(** * Bronze/silver ETL pipeline: a shallow embedding and its properties

    The development follows the two scripts of [datareference]:
    - [import_json.py]: JSON documents are flattened and loaded into
      bronze tables, guarded by the import ledger ([import_tracking]);
    - [bronze_to_silver.py]: bronze tables are fused or copied into the
      silver store, guarded by the transformation ledger
      ([transformation_tracking]).

    Conventions of the model:
    - a Python [str] is a [string] of ASCII characters, a dictionary is
      a [gmap], a relational store is a finite map from (schema, table)
      to the columns and rows of the table, a row is a finite map from
      column names to values;
    - the scripts run sequentially, so each function takes the state of
      the stores and of the module-level variables and returns the new
      state; an exception that the script catches is the branch of the
      function that the handler takes, and the text of the exception is
      not modelled;
    - what the libraries compute ([hashlib.md5], [json.loads],
      [json.dumps]) and what the servers decide beyond the data (whether
      they can be reached, whether a statement on a table is refused) are
      parameters, collected in the classes [PyLib] and [Postgres];
    - grants, indexes, schemas without tables, timestamps and log lines
      have no counterpart in the state. *)

From Stdlib Require Import ZArith Ascii String Decimal DecimalString DecimalNat.
From stdpp Require Import base option list gmap strings sorting.

Local Open Scope Z_scope.
Local Open Scope nat_scope.

(** ** Python string primitives *)

Module PyStr.


Definition code (c : ascii) : nat := nat_of_ascii c.

(** [c.isdigit()], [c.isalnum()] on the ASCII range. *)
Definition isdigit (c : ascii) : bool :=
  (48 <=? code c) && (code c <=? 57).
Definition isupper (c : ascii) : bool :=
  (65 <=? code c) && (code c <=? 90).
Definition islower (c : ascii) : bool :=
  (97 <=? code c) && (code c <=? 122).
Definition isalnum (c : ascii) : bool :=
  isdigit c || isupper c || islower c.

Definition lower_char (c : ascii) : ascii :=
  if isupper c then ascii_of_nat (code c + 32) else c.
Definition upper_char (c : ascii) : ascii :=
  if islower c then ascii_of_nat (code c - 32) else c.

Fixpoint map_chars (f : ascii → ascii) (s : string) : string :=
  match s with
  | EmptyString => EmptyString
  | String c s' => String (f c) (map_chars f s')
  end.

(** [s.lower()] and [s.upper()]. *)
Definition lower : string → string := map_chars lower_char.
Definition upper : string → string := map_chars upper_char.

(** [s[:n]]. *)
Fixpoint take (n : nat) (s : string) : string :=
  match n, s with
  | S n', String c s' => String c (take n' s')
  | _, _ => EmptyString
  end.

(** [s[:-1]]. *)
Fixpoint drop_last (s : string) : string :=
  match s with
  | EmptyString => EmptyString
  | String c EmptyString => EmptyString
  | String c s' => String c (drop_last s')
  end.

(** [sub in s]. *)
Fixpoint contains (sub s : string) : bool :=
  String.prefix sub s ||
  match s with
  | EmptyString => false
  | String _ s' => contains sub s'
  end.

(** [s.startswith(p)]. *)
Definition startswith (s p : string) : bool := String.prefix p s.

(** [sep.join(l)]. *)
Fixpoint join (sep : string) (l : list string) : string :=
  match l with
  | [] => EmptyString
  | [x] => x
  | x :: l' => x +:+ sep +:+ join sep l'
  end.

(** [s.split(c)] for a one-character separator. *)
Fixpoint split_go (sep : ascii) (cur : string) (s : string) : list string :=
  match s with
  | EmptyString => [String.rev cur]
  | String c s' =>
      if decide (c = sep) then String.rev cur :: split_go sep EmptyString s'
      else split_go sep (String c cur) s'
  end.
Definition split (sep : ascii) (s : string) : list string :=
  split_go sep EmptyString s.

(** [s.replace(old, '')] for a non-empty [old]: occurrences are removed
    left to right, without overlap.  [skip] counts the characters of
    the current occurrence that are still to be dropped. *)
Fixpoint remove_go (old : string) (skip : nat) (s : string) : string :=
  match s with
  | EmptyString => EmptyString
  | String c s' =>
      match skip with
      | S k => remove_go old k s'
      | O =>
          if String.prefix old s
          then remove_go old (String.length old - 1) s'
          else String c (remove_go old 0 s')
      end
  end.
Definition remove_all (old s : string) : string := remove_go old 0 s.

(** [str(n)] for a non-negative integer. *)
Definition of_nat (n : nat) : string :=
  NilEmpty.string_of_uint (Nat.to_uint n).

(** [repr(s)] of a string without quotes, backslashes or control
    characters, which is what identifiers and type names are. *)
Definition repr (s : string) : string := "'" +:+ s +:+ "'".

End PyStr.

(** ** JSON values, rows and tables *)

(** A parsed JSON document, as [json.loads] returns it.  An object keeps
    its fields in document order, as a Python [dict] does. *)
#[warnings="-register-all"]
Inductive json : Type :=
| JNull
| JBool (b : bool)
| JInt (n : Z)
| JFloat (literal : string)
| JStr (s : string)
| JList (items : list json)
| JDict (fields : list (string * json)).

Definition is_list (v : json) : bool :=
  match v with JList _ => true | _ => false end.

(** A row maps a column name to its value; an absent column is NULL. *)
Abbreviation row := (gmap string json).

(** A table: its columns as [information_schema.columns] lists them
    (name and data type, by ordinal position) and its rows. *)
Record table := Table {
  columns : list (string * string);
  rows : list row
}.

(** A store maps (schema, table name) to the table. *)
Abbreviation store := (gmap (string * string) table).

Definition column_names (t : table) : list string := (columns t).*1.

(** The tables that [information_schema.tables] lists for a schema. *)
Definition list_tables (db : store) (schema : string) : list string :=
  omap (λ k : string * string, if decide (k.1 = schema) then Some k.2 else None)
       (map_to_list db).*1.

(** The schemas that own at least one table. *)
Definition list_schemas (db : store) : list string :=
  elements (set_map (D := gset string) fst (dom db)).

(** An accepted [INSERT]: the [SERIAL] column [id] takes the next value
    unless the row gives one. *)
Definition append_row (t : table) (r : row) : table :=
  let r :=
    match r !! "id" with
    | Some _ => r
    | None => <["id" := JInt (Z.of_nat (S (length (rows t))))]> r
    end in
  Table (columns t) (rows t ++ [r]).

(** ** What the scripts take from their libraries and from the stores *)

(** [hashlib], [json] and the interpreter's recursion limit. *)
Class PyLib := {
  md5_hexdigest : string → string;
  md5_length : ∀ s, String.length (md5_hexdigest s) = 32;
  (** [None] when [json.loads] raises on the text. *)
  json_loads : string → option json;
  json_dumps : json → string;
  (** Number of nested calls of [_flatten] before [RecursionError]. *)
  recursion_limit : nat
}.

(** The behaviour of the PostgreSQL servers that the data alone does not
    determine. *)
Class Postgres := {
  (** [psycopg2.connect] reaches the bronze, respectively silver, server. *)
  bronze_up : bool;
  silver_up : bool;
  (** A [SELECT] on the bronze table [schema.table] succeeds. *)
  select_ok : string → string → bool;
  (** The [dblink] transfer of the bronze table [schema.table] succeeds. *)
  dblink_ok : string → string → bool;
  (** [schema.table] accepts the [INSERT] of the row. *)
  insert_ok : string → string → row → bool
}.

(** ** [import_json.py]: ingestion of JSON documents into the bronze store *)

Module ImportJson.

Section Defs.
Context {py : PyLib} {pg : Postgres}.

(** SQL reserved keywords that [sanitize_name] prefixes. *)
Definition reserved : list string := [
  "all"; "analyse"; "analyze"; "and"; "any"; "array"; "as"; "asc";
  "asymmetric"; "authorization"; "between"; "binary"; "both"; "case";
  "cast"; "check"; "collate"; "column"; "constraint"; "create"; "cross";
  "current_catalog"; "current_date"; "current_role"; "current_schema";
  "current_time"; "current_timestamp"; "current_user"; "default";
  "deferrable"; "desc"; "distinct"; "do"; "else"; "end"; "except";
  "false"; "fetch"; "for"; "foreign"; "freeze"; "from"; "full"; "grant";
  "group"; "having"; "ilike"; "in"; "initially"; "inner"; "intersect";
  "into"; "is"; "isnull"; "join"; "lateral"; "leading"; "left"; "like";
  "limit"; "localtime"; "localtimestamp"; "natural"; "not"; "notnull";
  "null"; "offset"; "on"; "only"; "or"; "order"; "outer"; "over";
  "overlaps"; "placing"; "primary"; "references"; "returning"; "right";
  "select"; "session_user"; "similar"; "some"; "symmetric"; "table";
  "then"; "to"; "trailing"; "true"; "union"; "unique"; "user"; "using";
  "variadic"; "verbose"; "when"; "where"; "window"; "with" ].

(** [sanitize_name], as it acts on a name of ASCII characters.  On
    other names [str.isalnum], [str.isdigit] and [str.lower] also know
    the letters and digits beyond ASCII; what is stated of the
    characters of the result is stated for ASCII names. *)
Definition sanitize_name (name : string) : string :=
  let name :=
    PyStr.map_chars (λ c, if PyStr.isalnum c then c else "_"%char) name in
  let name :=
    match name with
    | EmptyString => "c_empty"
    | String c _ =>
        if PyStr.isdigit c || bool_decide (PyStr.lower name ∈ reserved)
        then "c_" +:+ name else name
    end in
  PyStr.lower name.

Definition MAX_KEY_LENGTH : nat := 58.
Definition MAX_TEXT_LENGTH : nat := 8000.

(** The name under which the field [a] of an object reached as [name] is
    flattened; it ends with the separator. *)
Definition safe_name (name a : string) : string :=
  let safe := name +:+ PyStr.take MAX_KEY_LENGTH (sanitize_name a) +:+ "_" in
  if MAX_KEY_LENGTH <? String.length safe
  then PyStr.take MAX_KEY_LENGTH safe +:+ "_" else safe.

Definition list_placeholder (n : nat) : json :=
  JDict [("warning", JStr "List truncated"); ("length", JInt (Z.of_nat n))].

Definition clip_text (x : json) : json :=
  match x with
  | JStr s =>
      if MAX_TEXT_LENGTH <? String.length s
      then JStr (PyStr.take MAX_TEXT_LENGTH s +:+ "... [truncated]") else x
  | _ => x
  end.

(** The inner [_flatten], writing into the dictionary [out].  [depth] is
    the number of nested calls still allowed; [None] is the exception
    raised when it is used up. *)
Fixpoint _flatten (depth : nat) (x : json) (name : string)
    (out : gmap string json) : option (gmap string json) :=
  match depth with
  | O => None
  | S depth' =>
      match x with
      | JDict fields =>
          foldl (λ acc (f : string * json),
                   out' ← acc; _flatten depth' f.2 (safe_name name f.1) out')
                (Some out) fields
      | JList items =>
          let json_str := json_dumps x in
          let json_str :=
            if MAX_TEXT_LENGTH <? String.length json_str
            then json_dumps (list_placeholder (length items)) else json_str in
          Some (<[PyStr.drop_last name := JStr json_str]> out)
      | _ =>
          let key := PyStr.drop_last name in
          if decide (key = "") then Some out
          else Some (<[key := clip_text x]> out)
      end
  end.

Definition flatten_json (obj : json) : gmap string json :=
  match _flatten recursion_limit obj "" ∅ with
  | Some out => out
  | None => {["json_data" := JStr (json_dumps obj)]}
  end.

(** The items of a document: the root itself when it is a list, the
    first list-valued field of the root when it is an object with one,
    and the root alone otherwise. *)
Definition normalize_root (data : json) : list json :=
  match data with
  | JList items => items
  | JDict fields =>
      if existsb is_list fields.*2
      then match List.find is_list fields.*2 with
           | Some (JList items) => items
           | _ => [data]
           end
      else [data]
  | _ => [data]
  end.

(** A row of the [import_tracking] table, keyed by [file_path]. *)
Record tracking_row := TrackingRow {
  file_hash : string;
  schema_name : string;
  table_name : string;
  row_count : nat;
  status : string;
  error_message : option string
}.

(** An entry of the in-memory cache [memory_tracking].  A cache entry
    written after a look-up in the store holds the status and the hash
    only; one written by [update_import_status] holds the whole row. *)
Record mem_entry := MemEntry {
  m_file_hash : string;
  m_status : string;
  m_details : option (string * string * nat * option string)
}.

(** The statements that [process_blob] runs on the table of a
    document. *)
Inductive event :=
| Dropped (schema tname : string)
| Created (schema tname : string)
| Inserted (schema tname : string).

(** The bronze store, its import ledger ([None] when the tracking table
    could not be created), the module-level variables of the script,
    and the journal of the [DROP TABLE], [CREATE TABLE] and [INSERT]
    statements that ran on the tables of the documents, oldest
    first. *)
Record state := State {
  bronze : store;
  import_tracking : option (gmap string tracking_row);
  memory_tracking : gmap string mem_entry;
  failed_imports : gset string;
  journal : list event
}.

Definition set_bronze (f : store → store) (st : state) : state :=
  State (f (bronze st)) (import_tracking st) (memory_tracking st)
        (failed_imports st) (journal st).
Definition set_memory (f : gmap string mem_entry → gmap string mem_entry)
    (st : state) : state :=
  State (bronze st) (import_tracking st) (f (memory_tracking st))
        (failed_imports st) (journal st).
Definition log (events : list event) (st : state) : state :=
  State (bronze st) (import_tracking st) (memory_tracking st)
        (failed_imports st) (journal st ++ events).

Definition calculate_file_hash (content : string) : string :=
  md5_hexdigest content.

Definition is_file_already_imported (file_path file_hash' : string)
    (st : state) : bool * state :=
  match memory_tracking st !! file_path with
  | Some e =>
      (bool_decide (m_status e = "success")
       && bool_decide (m_file_hash e = file_hash'), st)
  | None =>
      match import_tracking st with
      | Some ledger =>
          match ledger !! file_path with
          | Some r =>
              if decide (file_hash r = file_hash')
              then (bool_decide (status r = "success"),
                    set_memory
                      <[file_path := MemEntry file_hash' (status r) None]> st)
              else (false, st)
          | None => (false, st)
          end
      | None => (false, st)
      end
  end.

Definition update_import_status (file_path file_hash' schema table : string)
    (count : nat) (status' : string) (error : option string)
    (st : state) : state :=
  let st :=
    set_memory
      <[file_path :=
          MemEntry file_hash' status' (Some (schema, table, count, error))]>
      st in
  match import_tracking st with
  | Some ledger =>
      State (bronze st)
            (Some (<[file_path :=
                       TrackingRow file_hash' schema table count status' error]>
                     ledger))
            (memory_tracking st) (failed_imports st) (journal st)
  | None => st
  end.

Definition timestamp : string := "timestamp without time zone".

(** The column that the flattened key [col] gets in the bronze table. *)
Definition column_for (col : string) : string :=
  let col_name := PyStr.take 58 (sanitize_name col) in
  if decide (PyStr.lower col_name = "id") then "json_id" else col_name.

Definition flat_table_columns (cols : list string) : list (string * string) :=
  ("id", "integer") :: ((λ c, (column_for c, "text")) <$> cols)
  ++ [("json_data", "jsonb"); ("created_at", timestamp);
      ("updated_at", timestamp)].

Definition raw_table_columns : list (string * string) :=
  [("id", "integer"); ("json_data", "jsonb"); ("created_at", timestamp);
   ("updated_at", timestamp)].

Definition json_only (item : json) : row :=
  {["json_data" := JStr (json_dumps item)]}.

(** Second pass of the flattened import, for one item: the flattened
    row, or the row with [json_data] alone when the store refuses the
    first, or nothing when it refuses that too. *)
Definition insert_item (schema tname : string) (t : table)
    (item_flat : json * gmap string json) : table :=
  let '(item, flat) := item_flat in
  let r := <["json_data" := JStr (json_dumps item)]> flat in
  if bool_decide (dom flat ⊆ list_to_set (column_names t))
     && bool_decide ("json_data" ∉ dom flat)
     && insert_ok schema tname r
  then append_row t r
  else if insert_ok schema tname (json_only item)
       then append_row t (json_only item) else t.

Definition insert_raw (schema tname : string) (t : table) (item : json)
    : table :=
  if insert_ok schema tname (json_only item)
  then append_row t (json_only item) else t.

(** The table that [process_blob] builds for the items of a document:
    flattened when the first pass finds columns and [CREATE TABLE]
    accepts them (their names are pairwise distinct), raw JSON
    otherwise. *)
Definition build_table (schema tname : string) (array_data : list json)
    : table :=
  let all_flats := flatten_json <$> array_data in
  let all_columns : gset string := ⋃ (dom <$> all_flats) in
  let cols_def := flat_table_columns (elements all_columns) in
  if bool_decide (all_columns ≠ ∅) && bool_decide (NoDup cols_def.*1)
  then foldl (insert_item schema tname) (Table cols_def [])
             (zip array_data all_flats)
  else foldl (insert_raw schema tname) (Table raw_table_columns [])
             array_data.

(** The statements that building the table runs: the table is dropped
    and created, once more when [CREATE TABLE] refused the flattened
    columns after the first [DROP TABLE], and one [INSERT] is accepted
    for each row of the table. *)
Definition build_journal (schema tname : string) (array_data : list json)
    : list event :=
  let all_flats := flatten_json <$> array_data in
  let all_columns : gset string := ⋃ (dom <$> all_flats) in
  let cols_def := flat_table_columns (elements all_columns) in
  (if bool_decide (all_columns ≠ ∅) && negb (bool_decide (NoDup cols_def.*1))
   then [Dropped schema tname] else [])
  ++ [Dropped schema tname; Created schema tname]
  ++ replicate (length (rows (build_table schema tname array_data)))
               (Inserted schema tname).

Definition failure_message (blob_name : string) : string :=
  "Erreur lors du traitement de " +:+ blob_name.

(** The [except] branch of [process_blob]. *)
Definition record_failure (blob_name file_hash' schema tname : string)
    (st : state) : state :=
  let st :=
    update_import_status blob_name file_hash' schema tname 0 "error"
      (Some (failure_message blob_name)) st in
  State (bronze st) (import_tracking st) (memory_tracking st)
        ({[blob_name]} ∪ failed_imports st) (journal st).

Definition process_blob (blob_name content : string) (st : state)
    : bool * state :=
  let file_hash' := calculate_file_hash content in
  let '(imported, st) := is_file_already_imported blob_name file_hash' st in
  if imported then (true, st)
  else
    let parts := PyStr.split "/" blob_name in
    let schema :=
      if 2 <? length parts
      then sanitize_name (nth (length parts - 2) parts "") else "main" in
    let tname := sanitize_name (PyStr.remove_all ".json" (List.last parts "")) in
    match json_loads content with
    | Some data =>
        if bronze_up then
          let t := build_table schema tname (normalize_root data) in
          let st := set_bronze <[(schema, tname) := t]> st in
          let st := log (build_journal schema tname (normalize_root data)) st in
          let st :=
            update_import_status blob_name file_hash' schema tname
              (length (rows t)) "success" None st in
          (true, st)
        else (false, record_failure blob_name file_hash' schema tname st)
    | None => (false, record_failure blob_name file_hash' schema tname st)
    end.

(** A run of the script on the documents [docs] (path and text) against
    the store [db] with ledger [ledger]; the result is the exit code of
    the process and the final state.  [docs] is [None] when the source
    of the documents cannot be opened. *)
Definition main (docs : option (list (string * string))) (db : store)
    (ledger : option (gmap string tracking_row)) : nat * state :=
  let st := State db ledger ∅ ∅ [] in
  if negb bronze_up then (1, st)
  else
    match docs with
    | None => (1, st)
    | Some [] => (0, st)
    | Some docs =>
        let st :=
          foldl (λ st (d : string * string), (process_blob d.1 d.2 st).2)
                st docs in
        if bool_decide (failed_imports st ≠ ∅) then (1, st) else (0, st)
    end.

End Defs.
End ImportJson.

(** ** [bronze_to_silver.py]: fusion and copy of bronze tables into silver *)

Module BronzeToSilver.

Section Defs.
Context {py : PyLib} {pg : Postgres}.

(** A row of [transformation_tracking], keyed by
    (source_schema, target_table, transformation_type). *)
Record ledger_entry := LedgerEntry {
  source_tables : string;
  target_schema : string;
  source_hash : string;
  row_count : nat;
  status : string;
  error_message : option string
}.

(** Statements that change the shape of the silver store. *)
Inductive event :=
| Dropped (schema tname : string)
| Created (schema tname : string).

(** Both stores, the transformation ledger ([None] when the tracking
    table could not be created, so that every statement on it raises)
    and the journal of the [DROP TABLE] and [CREATE TABLE] statements
    run on the silver store, oldest first. *)
Record state := State {
  bronze : store;
  silver : store;
  tracking : option (gmap (string * string * string) ledger_entry);
  journal : list event
}.

Definition get_table_columns (db : store) (schema tname : string)
    : list (string * string) :=
  match db !! (schema, tname) with
  | Some t => columns t
  | None => []
  end.

(** A query on [schema.tname] in the bronze store succeeds. *)
Definition readable (db : store) (schema tname : string) : bool :=
  select_ok schema tname && bool_decide (is_Some (db !! (schema, tname))).

(** The type kept for a column that is already in the accumulator with
    type [existing] and is met again with type [col_type]. *)
Definition reconcile (existing col_type : string) : string :=
  if bool_decide (PyStr.upper col_type = "TEXT")
     || bool_decide (PyStr.upper existing = "TEXT")
  then "TEXT"
  else if bool_decide (PyStr.upper col_type = "JSONB")
          || bool_decide (PyStr.upper existing = "JSONB")
  then "JSONB"
  else if PyStr.contains "INT" (PyStr.upper col_type)
          && PyStr.contains "INT" (PyStr.upper existing)
  then if PyStr.contains "BIGINT" (PyStr.upper col_type)
          || PyStr.contains "BIGINT" (PyStr.upper existing)
       then "BIGINT" else "INTEGER"
  else existing.

Definition add_column (all_columns : gmap string string)
    (c : string * string) : gmap string string :=
  if decide (c.1 = "id") then all_columns
  else match all_columns !! c.1 with
       | Some existing => <[c.1 := reconcile existing c.2]> all_columns
       | None => <[c.1 := c.2]> all_columns
       end.

Definition collect_all_columns_from_tables (db : store) (schema : string)
    (tables : list string) : gmap string string :=
  foldl (λ all_columns t,
           foldl add_column all_columns (get_table_columns db schema t))
        ∅ tables.

(** [str(columns)] for the list of pairs that the cursor returns. *)
Definition str_columns (cols : list (string * string)) : string :=
  "[" +:+ PyStr.join ", "
            ((λ c : string * string,
                "(" +:+ PyStr.repr c.1 +:+ ", " +:+ PyStr.repr c.2 +:+ ")")
             <$> cols)
  +:+ "]".

(** The text that describes one source table in the fingerprint; [None]
    when counting its rows raises. *)
Definition table_info (db : store) (schema tname : string) : option string :=
  if select_ok schema tname
  then t ← db !! (schema, tname);
       Some (tname +:+ ":" +:+ PyStr.of_nat (length (rows t)) +:+ ":"
             +:+ str_columns (columns t))
  else None.

(** The text that is hashed. *)
Definition combined_data (db : store) (schema : string)
    (tables : list string) : option string :=
  hash_data ← mapM (table_info db schema) tables;
  Some (PyStr.join "|" (merge_sort String.le hash_data)).

Definition calculate_tables_hash (db : store) (schema : string)
    (tables : list string) : option string :=
  md5_hexdigest <$> combined_data db schema tables.

Definition ledger_lookup (st : state) (source_schema target_table kind : string)
    : option ledger_entry :=
  ledger ← tracking st; ledger !! (source_schema, target_table, kind).

Definition is_transformation_needed (st : state)
    (source_schema target_table kind source_hash' : string) : bool :=
  match tracking st with
  | Some ledger =>
      match ledger !! (source_schema, target_table, kind) with
      | Some e =>
          if bool_decide (status e = "success")
             && bool_decide (source_hash e = source_hash')
          then false else true
      | None => true
      end
  | None => true
  end.

Definition update_transformation_status (source_schema : string)
    (source_tables' : list string)
    (target_schema' target_table kind source_hash' : string) (count : nat)
    (status' : string) (error : option string) (st : state) : state :=
  match tracking st with
  | Some ledger =>
      State (bronze st) (silver st)
            (Some (<[(source_schema, target_table, kind) :=
                       LedgerEntry (PyStr.join "," source_tables')
                         target_schema' source_hash' count status' error]>
                     ledger))
            (journal st)
  | None => st
  end.

(** [if source_hash: update_transformation_status(...)]. *)
Definition when_hashed (source_hash' : option string)
    (f : string → state → state) (st : state) : state :=
  match source_hash' with
  | Some h => if decide (h = "") then st else f h st
  | None => st
  end.

(** [source_hash and not is_transformation_needed(...)]. *)
Definition up_to_date (st : state) (source_schema target_table kind : string)
    (source_hash' : option string) : bool :=
  match source_hash' with
  | Some h =>
      negb (bool_decide (h = ""))
      && negb (is_transformation_needed st source_schema target_table kind h)
  | None => false
  end.

Definition drop_table (schema tname : string) (st : state) : state :=
  State (bronze st) (delete (schema, tname) (silver st)) (tracking st)
        (journal st ++ [Dropped schema tname]).

Definition create_table (schema tname : string) (t : table) (st : state)
    : state :=
  State (bronze st) (<[(schema, tname) := t]> (silver st)) (tracking st)
        (journal st ++ [Created schema tname]).

Definition fusion_columns (all_columns : gmap string string)
    : list (string * string) :=
  [("id", "SERIAL PRIMARY KEY"); ("source_table", "TEXT");
   ("original_id", "INTEGER")] ++ map_to_list all_columns.

(** The row that the [dblink] query of the fusion yields for the row [r]
    of the source table [tname]. *)
Definition fusion_row (tname : string) (all_columns : gmap string string)
    (table_columns : list string) (r : row) : row :=
  <["source_table" := JStr tname]>
    (<["original_id" := default JNull (r !! "id")]>
       (filter (λ kv : string * json,
                  kv.1 ∈ dom all_columns ∧ kv.1 ∈ table_columns) r)).

Definition source_rows (db : store) (schema tname : string) : list row :=
  match db !! (schema, tname) with
  | Some t => rows t
  | None => []
  end.

(** One turn of the insertion loop of [create_fusion_table]. *)
Definition fuse_table (db : store) (schema : string)
    (all_columns : gmap string string) (target : table) (tname : string)
    : table :=
  let cols := get_table_columns db schema tname in
  let table_columns := List.filter (λ c, negb (String.eqb c "id")) cols.*1 in
  match table_columns with
  | [] => target
  | _ =>
      if dblink_ok schema tname && bool_decide ("id" ∈ cols.*1)
      then foldl append_row target
                 (fusion_row tname all_columns table_columns
                    <$> source_rows db schema tname)
      else target
  end.

Definition create_fusion_table (schema table_prefix fusion_table_name : string)
    (st : state) : state :=
  let all_tables := list_tables (bronze st) schema in
  let prefix_tables :=
    List.filter (λ t, PyStr.startswith t table_prefix) all_tables in
  match prefix_tables with
  | [] => st
  | _ =>
      let source_hash' := calculate_tables_hash (bronze st) schema prefix_tables in
      if up_to_date st schema fusion_table_name "fusion" source_hash' then st
      else
        let st :=
          when_hashed source_hash'
            (λ h, update_transformation_status schema prefix_tables schema
                    fusion_table_name "fusion" h 0 "in_progress" None) st in
        let existing_tables :=
          List.filter (readable (bronze st) schema) prefix_tables in
        match existing_tables with
        | [] => st
        | _ =>
            let all_columns :=
              collect_all_columns_from_tables (bronze st) schema
                existing_tables in
            if decide (all_columns = ∅) then st
            else
              let st := drop_table schema fusion_table_name st in
              if bool_decide (NoDup (fusion_columns all_columns).*1) then
                let target :=
                  foldl (fuse_table (bronze st) schema all_columns)
                        (Table (fusion_columns all_columns) [])
                        existing_tables in
                let st := create_table schema fusion_table_name target st in
                when_hashed source_hash'
                  (λ h, update_transformation_status schema prefix_tables
                          schema fusion_table_name "fusion" h
                          (length (rows target)) "success" None) st
              else
                when_hashed source_hash'
                  (λ h, update_transformation_status schema prefix_tables
                          schema fusion_table_name "fusion" h 0 "error"
                          (Some "CREATE TABLE: column specified more than once"))
                  st
        end
  end.

Definition batch_size : nat := 100.

(** The row-by-row copy: batches of [batch_size] rows are read at
    increasing offsets until one is empty; a refused row is skipped.
    [turns] bounds the number of batches. *)
Fixpoint copy_batches (turns offset : nat) (schema tname : string)
    (source target : list row) : list row :=
  match turns with
  | O => target
  | S turns' =>
      match take batch_size (drop offset source) with
      | [] => target
      | batch =>
          copy_batches turns' (offset + batch_size) schema tname source
            (foldl (λ tgt r,
                      if insert_ok schema tname r then tgt ++ [r] else tgt)
                   target batch)
      end
  end.

Definition copy_table (schema tname : string) (st : state) : state :=
  if negb (readable (bronze st) schema tname) then st
  else
    let source_hash' := calculate_tables_hash (bronze st) schema [tname] in
    if up_to_date st schema tname "copy" source_hash' then st
    else
      let st :=
        when_hashed source_hash'
          (λ h, update_transformation_status schema [tname] schema tname
                  "copy" h 0 "in_progress" None) st in
      let cols := get_table_columns (bronze st) schema tname in
      match cols with
      | [] => st
      | _ =>
          let st := drop_table schema tname st in
          if bool_decide (NoDup cols.*1) then
            let source := source_rows (bronze st) schema tname in
            let copied :=
              if dblink_ok schema tname then source
              else copy_batches (S (length source)) 0 schema tname source [] in
            let st := create_table schema tname (Table cols copied) st in
            when_hashed source_hash'
              (λ h, update_transformation_status schema [tname] schema tname
                      "copy" h (length copied) "success" None) st
          else
            when_hashed source_hash'
              (λ h, update_transformation_status schema [tname] schema tname
                      "copy" h 0 "error"
                      (Some "CREATE TABLE: column specified more than once"))
              st
      end.

Definition get_all_tables (db : store) (schema : string)
    : list string * list string * list string :=
  let tables := list_tables db schema in
  let is_schema t := PyStr.startswith t (schema +:+ "_") in
  let is_fluff t := PyStr.startswith t ("fluff_" +:+ schema +:+ "_") in
  (List.filter is_schema tables,
   List.filter (λ t, negb (is_schema t) && is_fluff t) tables,
   List.filter (λ t, negb (is_schema t) && negb (is_fluff t)) tables).

Definition named_schemas : list string :=
  ["bestiary"; "class"; "spells"; "adventure"; "book"].

Definition process_schema (schema : string) (st : state) : state :=
  let '(schema_tables, fluff_tables, other_tables) :=
    get_all_tables (bronze st) schema in
  let st :=
    match schema_tables with
    | [] => st
    | _ =>
        if bool_decide (schema ∈ named_schemas) then
          let fusion_name :=
            if decide (schema = "bestiary") then "fusion_monsters"
            else "fusion_" +:+ schema in
          create_fusion_table schema (schema +:+ "_") fusion_name st
        else
          create_fusion_table schema (schema +:+ "_") ("fusion_" +:+ schema) st
    end in
  let st :=
    match fluff_tables with
    | [] => st
    | _ =>
        create_fusion_table schema ("fluff_" +:+ schema +:+ "_")
          ("fusion_fluff_" +:+ schema) st
    end in
  foldl (λ st t, copy_table schema t st) st other_tables.

Definition default_schemas : list string :=
  ["main"; "bestiary"; "class"; "spells"; "items"; "rules"; "races"; "book";
   "adventure"].

Definition system_schemas : list string :=
  ["pg_catalog"; "information_schema"; "public"].

(** A run of the script; the result is the exit code of the process and
    the final state. *)
Definition main (st : state) : nat * state :=
  if negb (bronze_up && silver_up) then (1, st)
  else
    let schemas :=
      List.filter (λ s, negb (bool_decide (s ∈ system_schemas)))
                  (list_schemas (bronze st)) in
    let schemas := match schemas with [] => default_schemas | _ => schemas end in
    (0,
     foldl (λ st schema,
              if decide (schema = "main")
              then foldl (λ st t, copy_table "main" t st) st
                         (list_tables (bronze st) "main")
              else process_schema schema st)
           st schemas).

End Defs.
End BronzeToSilver.

(** ** Sample libraries and servers, for the examples *)

Module Sample.

(** A 32-character digest: the text, padded or cut to 32 characters. *)
Definition digest (s : string) : string :=
  PyStr.take 32 (s +:+ "00000000000000000000000000000000").

Definition dq : string := String (ascii_of_nat 34) EmptyString.

Definition str_of_Z (n : Z) : string := NilEmpty.string_of_int (Z.to_int n).

(** A serializer in the layout of [json.dumps]; strings are written
    without escapes. *)
Fixpoint dumps (v : json) : string :=
  match v with
  | JNull => "null"
  | JBool true => "true"
  | JBool false => "false"
  | JInt n => str_of_Z n
  | JFloat literal => literal
  | JStr s => dq +:+ s +:+ dq
  | JList items => "[" +:+ PyStr.join ", " (map dumps items) +:+ "]"
  | JDict fields =>
      "{" +:+ PyStr.join ", "
                (map (λ f : string * json,
                        dq +:+ f.1 +:+ dq +:+ ": " +:+ dumps f.2) fields)
      +:+ "}"
  end.

(** The documents of the examples; every other text is rejected. *)
Definition spell : json :=
  JDict [("name", JStr "Fireball"); ("level", JInt 3);
         ("source", JDict [("book", JStr "PHB"); ("pages", JList [JInt 241])])].

Definition documents : list (string * json) :=
  [("[]", JList []);
   ("[1, 2, 3]", JList [JInt 1; JInt 2; JInt 3]);
   (dumps (JList [spell]), JList [spell]);
   (dumps (JDict [("spell", JList [spell])]), JDict [("spell", JList [spell])])].

Definition loads (text : string) : option json :=
  snd <$> List.find (λ d : string * json, String.eqb d.1 text) documents.

#[export] Instance pylib : PyLib.
Proof.
  refine {| md5_hexdigest := digest; md5_length := _; json_loads := loads;
            json_dumps := dumps; recursion_limit := 1000 |}.
  intros s. unfold digest.
  assert (Htake : ∀ n t, n ≤ String.length t → String.length (PyStr.take n t) = n).
  { induction n as [|n IH]; intros [|c t] Hle; simpl in *; try done; try lia.
    rewrite IH; [done|lia]. }
  apply Htake.
  induction s as [|c s IH]; simpl in *; [done|lia].
Defined.

(** Servers that are up and refuse nothing. *)
#[export] Instance healthy : Postgres := {|
  bronze_up := true;
  silver_up := true;
  select_ok := λ _ _, true;
  dblink_ok := λ _ _, true;
  insert_ok := λ _ _ _, true
|}.

(** Two bronze tables of the schema [spells], as an import leaves them. *)
Definition spells_phb : table :=
  Table [("id", "integer"); ("name", "text"); ("level", "integer");
         ("json_data", "jsonb")]
        [ {[ "id" := JInt 1; "name" := JStr "Fireball"; "level" := JInt 3 ]};
          {[ "id" := JInt 2; "name" := JStr "Shield"; "level" := JInt 1 ]};
          {[ "id" := JInt 3; "name" := JStr "Wish"; "level" := JInt 9 ]} ].

Definition spells_xge : table :=
  Table [("id", "integer"); ("name", "text"); ("level", "bigint");
         ("school", "text")]
        [ {[ "id" := JInt 1; "name" := JStr "Catapult"; "level" := JInt 1;
             "school" := JStr "T" ]};
          {[ "id" := JInt 2; "name" := JStr "Invulnerability";
             "level" := JInt 9; "school" := JStr "A" ]} ].

Definition spells_db : store :=
  {[ ("spells", "spells_phb") := spells_phb;
     ("spells", "spells_xge") := spells_xge ]}.


(** A prefix table that has no column besides [id], and a table
    without any column. *)
Definition ids_only_db : store :=
  {[ ("spells", "spells_phb") :=
       Table [("id", "integer")] [ {[ "id" := JInt 1 ]}; {[ "id" := JInt 2 ]} ] ]}.

Definition columnless_db : store :=
  {[ ("main", "notes") := Table [] [] ]}.



(** A prefix table with a column named like the provenance column of
    the fusion table. *)
Definition clash_db : store :=
  {[ ("spells", "spells_log") :=
       Table [("id", "integer"); ("source_table", "text")]
             [ {[ "id" := JInt 1; "source_table" := JStr "phb" ]} ] ]}.


Definition notes_db : store :=
  {[ ("main", "private_notes") :=
       Table [("id", "integer"); ("body", "text")]
             [ {[ "id" := JInt 1; "body" := JStr "draft" ]} ] ]}.



(** The first run of the transformation on a bronze store: empty silver
    store, empty ledger, nothing run yet. *)
Definition first_run (db : store) : BronzeToSilver.state :=
  BronzeToSilver.State db ∅ (Some ∅) [].

End Sample.

(** ** Vocabulary of the statements *)

Module Spec.

Section Defs.
Context {py : PyLib} {pg : Postgres}.

(** Every key of a flattened document fits the bound on column names. *)
Definition short_keys (out : gmap string json) : Prop :=
  ∀ key, key ∈ dom out → String.length key ≤ ImportJson.MAX_KEY_LENGTH.

(** The precedence in the words of the specification, for a column
    first seen with type [first] and then with type [second]: TEXT
    beats anything; otherwise JSONB beats anything; otherwise, when
    both types contain INT, BIGINT beats INTEGER; otherwise the type
    seen first is kept. *)
Definition claimed (first second : string) : string :=
  if bool_decide (PyStr.upper first = "TEXT")
     || bool_decide (PyStr.upper second = "TEXT")
  then "TEXT"
  else if bool_decide (PyStr.upper first = "JSONB")
          || bool_decide (PyStr.upper second = "JSONB")
  then "JSONB"
  else if PyStr.contains "INT" (PyStr.upper first)
          && PyStr.contains "INT" (PyStr.upper second)
          && (PyStr.contains "BIGINT" (PyStr.upper first)
              || PyStr.contains "BIGINT" (PyStr.upper second))
  then "BIGINT"
  else first.

(** The case that the words of the specification leave out: neither
    type is TEXT or JSONB, both contain INT and neither contains
    BIGINT. *)
Definition both_int_no_bigint (first second : string) : Prop :=
  PyStr.upper first ≠ "TEXT" ∧ PyStr.upper second ≠ "TEXT"
  ∧ PyStr.upper first ≠ "JSONB" ∧ PyStr.upper second ≠ "JSONB"
  ∧ PyStr.contains "INT" (PyStr.upper first)
  ∧ PyStr.contains "INT" (PyStr.upper second)
  ∧ ¬ PyStr.contains "BIGINT" (PyStr.upper first)
  ∧ ¬ PyStr.contains "BIGINT" (PyStr.upper second).

(** The precedence with that case added, INTEGER being the type kept
    in it: [resolves first second kept] when a column first seen with
    type [first] and then with type [second] keeps the type [kept]. *)
Inductive resolves (first second : string) : string → Prop :=
| resolves_text :
    PyStr.upper first = "TEXT" ∨ PyStr.upper second = "TEXT" →
    resolves first second "TEXT"
| resolves_jsonb :
    PyStr.upper first ≠ "TEXT" → PyStr.upper second ≠ "TEXT" →
    PyStr.upper first = "JSONB" ∨ PyStr.upper second = "JSONB" →
    resolves first second "JSONB"
| resolves_bigint :
    PyStr.upper first ≠ "TEXT" → PyStr.upper second ≠ "TEXT" →
    PyStr.upper first ≠ "JSONB" → PyStr.upper second ≠ "JSONB" →
    PyStr.contains "INT" (PyStr.upper first) →
    PyStr.contains "INT" (PyStr.upper second) →
    PyStr.contains "BIGINT" (PyStr.upper first)
    ∨ PyStr.contains "BIGINT" (PyStr.upper second) →
    resolves first second "BIGINT"
| resolves_integer :
    PyStr.upper first ≠ "TEXT" → PyStr.upper second ≠ "TEXT" →
    PyStr.upper first ≠ "JSONB" → PyStr.upper second ≠ "JSONB" →
    PyStr.contains "INT" (PyStr.upper first) →
    PyStr.contains "INT" (PyStr.upper second) →
    ¬ PyStr.contains "BIGINT" (PyStr.upper first) →
    ¬ PyStr.contains "BIGINT" (PyStr.upper second) →
    resolves first second "INTEGER"
| resolves_first_seen :
    PyStr.upper first ≠ "TEXT" → PyStr.upper second ≠ "TEXT" →
    PyStr.upper first ≠ "JSONB" → PyStr.upper second ≠ "JSONB" →
    ¬ (PyStr.contains "INT" (PyStr.upper first)
       ∧ PyStr.contains "INT" (PyStr.upper second)) →
    resolves first second first.

(** The types with which the column [col] occurs in a column list, and
    in the tables [tables] taken in order. *)
Definition seen (col : string) (cols : list (string * string)) : list string :=
  (filter (λ c : string * string, c.1 = col) cols).*2.

Definition seen_in (db : store) (schema col : string) (tables : list string)
    : list string :=
  tables ≫= λ t, seen col (BronzeToSilver.get_table_columns db schema t).

(** What the accumulator holds for a column after it met the types
    [types], in order, starting from [acc]. *)
Definition met (acc : option string) (types : list string) : option string :=
  foldl (λ o ty,
           Some (match o with
                 | Some existing => BronzeToSilver.reconcile existing ty
                 | None => ty
                 end))
        acc types.












(** The answers of [process_blob] over the documents of a run, in
    order, with the state that the run ends in. *)
Definition run_all (docs : list (string * string)) (st : ImportJson.state)
    : list bool * ImportJson.state :=
  foldl (λ (acc : list bool * ImportJson.state) (d : string * string),
           let '(r, st') := ImportJson.process_blob d.1 d.2 acc.2 in
           (acc.1 ++ [r], st'))
        ([], st) docs.

(** The ledger holds, for the transformation, an entry with status
    [success] and the fingerprint [h] that was just computed. *)
Definition recorded_success (st : BronzeToSilver.state)
    (schema target kind : string) (h : option string) : Prop :=
  ∃ e hash,
    h = Some hash
    ∧ BronzeToSilver.ledger_lookup st schema target kind = Some e
    ∧ BronzeToSilver.status e = "success"
    ∧ BronzeToSilver.source_hash e = hash.

(** Between the states [st] and [st'] the target table was dropped;
    it was dropped and created again. *)
Definition dropped_in (st st' : BronzeToSilver.state)
    (schema target : string) : Prop :=
  ∃ evs, BronzeToSilver.journal st'
         = BronzeToSilver.journal st
           ++ BronzeToSilver.Dropped schema target :: evs.

Definition rebuilt_in (st st' : BronzeToSilver.state)
    (schema target : string) : Prop :=
  BronzeToSilver.journal st'
  = BronzeToSilver.journal st
    ++ [BronzeToSilver.Dropped schema target;
        BronzeToSilver.Created schema target].

(** The tables of a schema whose name starts with the prefix, and those
    of them that can be queried. *)
Definition prefix_tables (db : store) (schema table_prefix : string)
    : list string :=
  List.filter (λ t, PyStr.startswith t table_prefix) (list_tables db schema).

Definition existing_tables (db : store) (schema table_prefix : string)
    : list string :=
  List.filter (BronzeToSilver.readable db schema)
              (prefix_tables db schema table_prefix).




(** The fusion can take the rows of the table: it has a column besides
    [id], it has the column [id], and its bulk transfer succeeds. *)
Definition transferable (db : store) (schema tname : string) : Prop :=
  Exists (λ c, c ≠ "id") (BronzeToSilver.get_table_columns db schema tname).*1
  ∧ "id" ∈ (BronzeToSilver.get_table_columns db schema tname).*1
  ∧ dblink_ok schema tname = true.

#[global] Instance transferable_dec (db : store) (schema tname : string) :
  Decision (transferable db schema tname).
Proof. unfold transferable. apply _. Defined.

(** A root that is neither a list nor an object. *)
Definition is_scalar (v : json) : bool :=
  match v with JList _ | JDict _ => false | _ => true end.

End Defs.
End Spec.

(** ** Further vocabulary *)

Module Terms.

(** A character that may occur in a sanitized identifier: a lower-case
    letter, a digit or the underscore. *)
Definition safe_char (c : ascii) : bool :=
  PyStr.isdigit c || PyStr.islower c || bool_decide (c = "_"%char).

Fixpoint all_chars (p : ascii → bool) (s : string) : bool :=
  match s with
  | EmptyString => true
  | String c s' => p c && all_chars p s'
  end.

(** The first character of a text is a digit. *)
Definition starts_with_digit (s : string) : bool :=
  match s with
  | EmptyString => false
  | String c _ => PyStr.isdigit c
  end.

(** The replacement that [sanitize_name] applies to each character. *)
Definition clean (c : ascii) : ascii :=
  if PyStr.isalnum c then c else "_"%char.

(** A value that fits a cell: not a list, not an object. *)
Definition is_cell (v : json) : bool :=
  match v with JList _ | JDict _ => false | _ => true end.

(** A text of ASCII characters, as [str.isascii] tells.  On such texts
    the character tests of [PyStr] are those of Python; on others
    Python also counts letters and digits beyond ASCII. *)
Definition is_ascii (s : string) : bool :=
  all_chars (λ c, PyStr.code c <? 128) s.

(** A document whose objects, as far as [_flatten] descends into them,
    have ASCII field names. *)
Fixpoint ascii_fields (v : json) : bool :=
  match v with
  | JDict fields =>
      (fix go (l : list (string * json)) : bool :=
         match l with
         | [] => true
         | (a, x) :: l' => is_ascii a && ascii_fields x && go l'
         end) fields
  | _ => true
  end.

Definition transformation_ledger_table : string * string :=
  ("public", "transformation_tracking").



(** What the import script knows of the document at [path]: the hash
    and the status of its cache entry or, without one, of its row in
    the import ledger. *)
Definition recorded_import (st : ImportJson.state) (path : string)
    : option (string * string) :=
  match ImportJson.memory_tracking st !! path with
  | Some e => Some (ImportJson.m_file_hash e, ImportJson.m_status e)
  | None =>
      match ImportJson.import_tracking st with
      | Some ledger =>
          (λ r, (ImportJson.file_hash r, ImportJson.status r))
            <$> ledger !! path
      | None => None
      end
  end.

(** The number of times the character [c] occurs in [s]. *)
Fixpoint count_char (c : ascii) (s : string) : nat :=
  match s with
  | EmptyString => 0
  | String c' s' => (if decide (c' = c) then 1 else 0) + count_char c s'
  end.

(** Every entry has a key of safe characters and a value that fits a
    cell. *)
Definition well_shaped (out : gmap string json) : Prop :=
  ∀ key v, out !! key = Some v →
           all_chars safe_char key = true ∧ is_cell v = true.

(** The rows [rs] with the values that a [SERIAL] column [id] takes
    when they are inserted, in order, into a table of [start] rows. *)
Definition numbered (start : nat) (rs : list row) : list row :=
  imap (λ i r, <["id" := JInt (Z.of_nat (S (start + i)))]> r) rs.


Section Servers.
Context {py : PyLib} {pg : Postgres}.

(** The rows that a copy puts into the silver table: all of them when
    the bulk transfer succeeds, the accepted ones otherwise. *)
Definition copied_rows (schema tname : string) (tb : table) : list row :=
  if dblink_ok schema tname then rows tb
  else List.filter (insert_ok schema tname) (rows tb).

(** The turn of the loop of [main] of the transformation for one
    schema. *)
Definition run_schema (st : BronzeToSilver.state) (schema : string)
    : BronzeToSilver.state :=
  if decide (schema = "main")
  then foldl (λ st t, BronzeToSilver.copy_table "main" t st) st
             (list_tables (BronzeToSilver.bronze st) "main")
  else BronzeToSilver.process_schema schema st.

End Servers.

Section Gate.
Context {py : PyLib} {pg : Postgres}.
Import BronzeToSilver.




End Gate.

End Terms.

(** ** Waiting for the servers *)

(** The retry loops of [wait_for_database] ([import_json.py]) and of
    [get_db_connection] ([bronze_to_silver.py]).  What the server
    answers at each attempt is given from outside, attempt by attempt,
    counted from 0; the loops return what they return and the number
    of seconds spent in [time.sleep]. *)
Module Connection.

(** [wait_for_database]: [body_ok attempt] tells whether the body of
    the [try] runs to its [return] at that attempt.  [left] counts the
    turns of the [for] loop still to run.  The result is the attempt
    that returned the connection, or [None] for the exception raised
    after the loop. *)
Fixpoint wait_loop (body_ok : nat → bool) (max_attempts retry_interval : nat)
    (left attempt slept : nat) : option nat * nat :=
  match left with
  | O => (None, slept)
  | S left' =>
      if body_ok attempt then (Some attempt, slept)
      else
        let slept :=
          if attempt <? max_attempts - 1 then slept + retry_interval
          else slept in
        wait_loop body_ok max_attempts retry_interval left' (S attempt) slept
  end.

Definition wait_for_database (body_ok : nat → bool)
    (max_attempts retry_interval : nat) : option nat * nat :=
  wait_loop body_ok max_attempts retry_interval max_attempts 0 0.

(** What [psycopg2.connect] does at one attempt of [get_db_connection]:
    it connects, it raises an [OperationalError] (which says that the
    database does not exist, or something else), or it raises another
    exception.  For a database that does not exist, [created] tells
    whether the connection to [postgres] and the statements run on it
    succeed. *)
Inductive answer :=
| Connected
| Missing (created : bool)
| Refused
| Broken.

(** What [get_db_connection] ends with: the connection of an attempt,
    the [ConnectionError] raised after the loop, or the exception that
    [psycopg2.connect] raised and no handler caught. *)
Inductive outcome :=
| Returned (attempt : nat)
| GaveUp
| Raised (attempt : nat).

Definition max_attempts : nat := 30.
Definition retry_interval : nat := 5.

Fixpoint connect_loop (db_name : string) (server : nat → answer)
    (left attempt slept : nat) : outcome * nat :=
  match left with
  | O => (GaveUp, slept)
  | S left' =>
      let pause :=
        if attempt <? max_attempts - 1 then slept + retry_interval
        else slept in
      match server attempt with
      | Connected => (Returned attempt, slept)
      | Broken => (Raised attempt, slept)
      | Missing created =>
          if bool_decide (db_name ≠ "postgres") && created
          then connect_loop db_name server left' (S attempt) slept
          else connect_loop db_name server left' (S attempt) pause
      | Refused => connect_loop db_name server left' (S attempt) pause
      end
  end.

Definition get_db_connection (db_name : string) (server : nat → answer)
    : outcome * nat :=
  connect_loop db_name server max_attempts 0 0.

(** The answers after which the loop goes on, and those among them
    that it follows with a pause: all but the database that was missing
    and could be created. *)
Definition retries (a : answer) : bool :=
  match a with Missing _ | Refused => true | _ => false end.

Definition pauses (db_name : string) (a : answer) : bool :=
  match a with
  | Refused => true
  | Missing created => negb (bool_decide (db_name ≠ "postgres") && created)
  | _ => false
  end.

(** The number of attempts followed by a pause among the [n] attempts
    from [start] on. *)
Definition paused (db_name : string) (server : nat → answer)
    (start n : nat) : nat :=
  length (List.filter (λ j, pauses db_name (server j)) (seq start n)).

End Connection.

(** * Properties *)

(** Closed decidable facts are settled by evaluation. *)
Ltac by_computation := apply (bool_decide_unpack _); vm_compute; exact I.

(** ** Strings *)

Section PyStrFacts.

Lemma string_length_app (s1 s2 : string) :
  String.length (s1 +:+ s2) = String.length s1 + String.length s2.
Proof. induction s1 as [|c s1 IH]; simpl; [done|]. by rewrite <- IH. Qed.

Lemma string_length_take (n : nat) (s : string) :
  String.length (PyStr.take n s) = n `min` String.length s.
Proof.
  revert s. induction n as [|n IH]; intros [|c s]; simpl; try done.
  by rewrite IH.
Qed.

Lemma string_length_drop_last (s : string) :
  String.length (PyStr.drop_last s) = String.length s - 1.
Proof.
  induction s as [|c s IH]; [done|].
  destruct s as [|c' s]; [done|].
  change (PyStr.drop_last (String c (String c' s)))
    with (String c (PyStr.drop_last (String c' s))).
  simpl String.length in *. rewrite IH. lia.
Qed.

End PyStrFacts.

(** ** The JSON flattener *)

Section FlattenFacts.
Context {py : PyLib} {pg : Postgres}.
Import ImportJson Spec.

Lemma safe_name_length (name a : string) :
  String.length (safe_name name a) ≤ S MAX_KEY_LENGTH.
Proof.
  unfold safe_name. cbv zeta.
  destruct (Nat.ltb_spec MAX_KEY_LENGTH
    (String.length (name +:+ PyStr.take MAX_KEY_LENGTH (sanitize_name a) +:+ "_")))
    as [Hlong|Hshort].
  - rewrite string_length_app, string_length_take. simpl String.length. lia.
  - lia.
Qed.

Lemma short_keys_insert (key : string) (v : json) (out : gmap string json) :
  String.length key ≤ MAX_KEY_LENGTH → short_keys out →
  short_keys (<[key := v]> out).
Proof.
  intros Hkey Hout k. rewrite dom_insert_L, elem_of_union, elem_of_singleton.
  intros [->|Hk]; [done|by apply Hout].
Qed.

Lemma foldl_bind_None {A B} (f : A → B → option A) (l : list B) :
  foldl (λ acc b, a ← acc; f a b) None l = None.
Proof. induction l as [|b l IH]; [done|]. simpl. apply IH. Qed.

Lemma _flatten_short_keys (depth : nat) :
  ∀ (x : json) (name : string) (out out' : gmap string json),
    String.length name ≤ S MAX_KEY_LENGTH →
    short_keys out →
    _flatten depth x name out = Some out' →
    short_keys out'.
Proof.
  induction depth as [|depth IH]; intros x name out out' Hname Hout Hrun;
    [done|].
  assert (Hkey : String.length (PyStr.drop_last name) ≤ MAX_KEY_LENGTH).
  { rewrite string_length_drop_last. lia. }
  assert (Hscalar : ∀ v,
    (if decide (PyStr.drop_last name = "") then Some out
     else Some (<[PyStr.drop_last name := v]> out)) = Some out' →
    short_keys out').
  { intros v Hv. case_decide; simplify_eq; [done|].
    by apply short_keys_insert. }
  destruct x as [| b | n | lit | s | items | fields]; simpl in Hrun;
    try (by eapply Hscalar).
  - simplify_eq. by apply short_keys_insert.
  - clear Hkey Hscalar. revert out Hout Hrun.
    induction fields as [|[a v] fields IHf]; intros out Hout Hrun; simpl in Hrun.
    + by simplify_eq.
    + destruct (_flatten depth v (safe_name name a) out) as [out1|] eqn:Hv.
      * simpl in Hrun. apply (IHf out1); [|done].
        eapply IH; [|exact Hout|exact Hv]. apply safe_name_length.
      * simpl in Hrun. by rewrite foldl_bind_None in Hrun.
Qed.

(** C10: when [_flatten] completes, so that [flatten_json] returns what
    it built and not the single [json_data] column, every key of the
    returned mapping has at most 58 characters, at any nesting depth. *)
Theorem flatten_json_key_length (obj : json) (out : gmap string json) :
  _flatten recursion_limit obj "" ∅ = Some out →
  flatten_json obj = out ∧
  ∀ key, key ∈ dom out → String.length key ≤ 58.
Proof.
  intros Hrun. split.
  - unfold flatten_json. by rewrite Hrun.
  - eapply _flatten_short_keys; [| |exact Hrun].
    + simpl. lia.
    + intros k Hk. rewrite dom_empty_L in Hk. set_solver.
Qed.

End FlattenFacts.

(** ** Normalisation of the root of a document *)

Section NormalizeFacts.
Import ImportJson Spec.

Lemma find_first_list (pre post : list json) (items : list json) :
  Forall (λ v, is_list v = false) pre →
  List.find is_list (pre ++ JList items :: post) = Some (JList items).
Proof.
  induction 1 as [|v pre Hv _ IH]; simpl; [done|]. by rewrite Hv.
Qed.

Lemma existsb_no_list (values : list json) :
  Forall (λ v, is_list v = false) values → existsb is_list values = false.
Proof. induction 1 as [|v values Hv _ IH]; simpl; [done|]. by rewrite Hv. Qed.

(** C7, as the code has it: a list root is used as it is; an object root
    with at least one list-valued field is replaced by the first such
    field, whatever its other fields are; an object without list-valued
    field and a scalar root are wrapped as the only item. *)
Theorem normalize_root_first_list :
  (∀ items, normalize_root (JList items) = items) ∧
  (∀ pre key items post,
     Forall (λ f : string * json, is_list f.2 = false) pre →
     normalize_root (JDict (pre ++ (key, JList items) :: post)) = items) ∧
  (∀ fields,
     Forall (λ f : string * json, is_list f.2 = false) fields →
     normalize_root (JDict fields) = [JDict fields]) ∧
  (∀ data, is_scalar data = true → normalize_root data = [data]).
Proof.
  repeat split.
  - intros pre key items post Hpre. unfold normalize_root.
    rewrite fmap_app, fmap_cons. simpl.
    assert (Hpre' : Forall (λ v, is_list v = false) pre.*2).
    { by apply Forall_fmap. }
    rewrite (find_first_list _ _ _ Hpre').
    rewrite existsb_app. simpl. by rewrite orb_true_r.
  - intros fields Hfields. unfold normalize_root.
    rewrite existsb_no_list; [done|]. by apply Forall_fmap.
  - by intros [].
Qed.

(** C7 fails as stated: an object with two list-valued fields is not
    wrapped; its first list is taken. *)
Lemma normalize_root_two_lists :
  let data := JDict [("spells", JList [JInt 1]); ("items", JList [JInt 2])] in
  length (List.filter is_list [JList [JInt 1]; JList [JInt 2]]) = 2 ∧
  normalize_root data = [JInt 1] ∧
  normalize_root data ≠ [data].
Proof. repeat split. intros Heq. discriminate Heq. Qed.

Lemma normalize_root_first_list_witness :
  Forall (λ f : string * json, is_list f.2 = false) [("version", JInt 2)] ∧
  normalize_root
    (JDict ([("version", JInt 2)] ++ ("spell", JList [Sample.spell])
            :: [("item", JList [])]))
  = [Sample.spell].
Proof.
  assert (Hpre : Forall (λ f : string * json, is_list f.2 = false)
                        [("version", JInt 2)]).
  { by repeat constructor. }
  split; [exact Hpre|].
  exact (proj1 (proj2 normalize_root_first_list) _ "spell" _ _ Hpre).
Defined.

End NormalizeFacts.

Section FlattenExamples.
Import ImportJson Spec Sample.

Lemma flatten_json_key_length_witness :
  let out : gmap string json :=
    list_to_map [("name", JStr "Fireball"); ("level", JInt 3);
                 ("source_book", JStr "PHB"); ("source_pages", JStr "[241]")] in
  _flatten recursion_limit spell "" ∅ = Some out ∧
  flatten_json spell = out ∧
  ∀ key, key ∈ dom out → String.length key ≤ 58.
Proof.
  intros out.
  assert (Hrun : _flatten recursion_limit spell "" ∅ = Some out).
  { vm_compute. reflexivity. }
  split; [exact Hrun|].
  exact (flatten_json_key_length spell out Hrun).
Defined.

End FlattenExamples.

(** ** The column-type reconciler *)

Section ReconcileFacts.
Import BronzeToSilver Spec.

Lemma reconcile_resolves (first second : string) :
  resolves first second (reconcile first second).
Proof.
  unfold reconcile.
  destruct (decide (PyStr.upper second = "TEXT")) as [Ht2|Ht2].
  { rewrite (bool_decide_eq_true_2 _ Ht2). simpl. constructor. by right. }
  rewrite (bool_decide_eq_false_2 _ Ht2). simpl.
  destruct (decide (PyStr.upper first = "TEXT")) as [Ht1|Ht1].
  { rewrite (bool_decide_eq_true_2 _ Ht1). constructor. by left. }
  rewrite (bool_decide_eq_false_2 _ Ht1).
  destruct (decide (PyStr.upper second = "JSONB")) as [Hj2|Hj2].
  { rewrite (bool_decide_eq_true_2 _ Hj2). simpl.
    apply resolves_jsonb; auto. }
  rewrite (bool_decide_eq_false_2 _ Hj2). simpl.
  destruct (decide (PyStr.upper first = "JSONB")) as [Hj1|Hj1].
  { rewrite (bool_decide_eq_true_2 _ Hj1). apply resolves_jsonb; auto. }
  rewrite (bool_decide_eq_false_2 _ Hj1).
  destruct (PyStr.contains "INT" (PyStr.upper second)) eqn:Hi2; simpl;
    [|apply resolves_first_seen; auto; rewrite Hi2; naive_solver].
  destruct (PyStr.contains "INT" (PyStr.upper first)) eqn:Hi1; simpl;
    [|apply resolves_first_seen; auto; rewrite Hi1; naive_solver].
  destruct (PyStr.contains "BIGINT" (PyStr.upper second)) eqn:Hb2; simpl.
  { apply resolves_bigint; auto; rewrite ?Hi1, ?Hi2, ?Hb2; auto. }
  destruct (PyStr.contains "BIGINT" (PyStr.upper first)) eqn:Hb1; simpl.
  { apply resolves_bigint; auto; rewrite ?Hi1, ?Hi2, ?Hb1; auto. }
  apply resolves_integer; auto; rewrite ?Hi1, ?Hi2, ?Hb1, ?Hb2; auto.
Qed.

Lemma resolves_functional (first second kept kept' : string) :
  resolves first second kept → resolves first second kept' → kept = kept'.
Proof.
  destruct 1; destruct 1; try done; naive_solver.
Qed.

Lemma met_app (acc : option string) (l k : list string) :
  met acc (l ++ k) = met (met acc l) k.
Proof. apply foldl_app. Qed.

Lemma seen_app (col : string) (l k : list (string * string)) :
  seen col (l ++ k) = seen col l ++ seen col k.
Proof. unfold seen. by rewrite filter_app, fmap_app. Qed.

(** What [add_column] does to the entry of one column over a column
    list. *)
Lemma foldl_add_column_lookup (col : string) (cols : list (string * string)) :
  col ≠ "id" →
  ∀ acc : gmap string string,
    foldl add_column acc cols !! col = met (acc !! col) (seen col cols).
Proof.
  intros Hid. induction cols as [|[name ty] cols IH]; intros acc; [done|].
  simpl foldl. rewrite IH. unfold seen.
  destruct (decide (name = col)) as [->|Hne].
  - rewrite filter_cons_True by done. simpl. f_equal.
    unfold add_column. simpl. rewrite decide_False by done.
    destruct (acc !! col); by rewrite lookup_insert_eq.
  - rewrite filter_cons_False by done. f_equal.
    unfold add_column. simpl. case_decide; [done|].
    destruct (acc !! name); by rewrite lookup_insert_ne.
Qed.

Lemma foldl_add_column_id (cols : list (string * string)) :
  ∀ acc : gmap string string,
    foldl add_column acc cols !! "id" = acc !! "id".
Proof.
  induction cols as [|[name ty] cols IH]; intros acc; [done|].
  simpl foldl. rewrite IH. unfold add_column. simpl.
  case_decide as Hname; [done|].
  destruct (acc !! name); by rewrite lookup_insert_ne.
Qed.

Lemma collect_lookup_from (db : store) (schema col : string)
    (tables : list string) :
  col ≠ "id" →
  ∀ acc : gmap string string,
    foldl (λ all_columns t,
             foldl add_column all_columns (get_table_columns db schema t))
          acc tables !! col
    = met (acc !! col) (seen_in db schema col tables).
Proof.
  intros Hid. induction tables as [|t tables IH]; intros acc; [done|].
  simpl foldl. rewrite IH, foldl_add_column_lookup by done.
  unfold seen_in. simpl. by rewrite met_app.
Qed.

Lemma collect_lookup (db : store) (schema col : string) (tables : list string) :
  col ≠ "id" →
  collect_all_columns_from_tables db schema tables !! col
  = met None (seen_in db schema col tables).
Proof.
  intros Hid. unfold collect_all_columns_from_tables.
  by rewrite collect_lookup_from, lookup_empty.
Qed.

Lemma collect_lookup_id (db : store) (schema : string) (tables : list string) :
  collect_all_columns_from_tables db schema tables !! "id" = None.
Proof.
  unfold collect_all_columns_from_tables.
  assert (Hgen : ∀ acc : gmap string string,
    foldl (λ all_columns t,
             foldl add_column all_columns (get_table_columns db schema t))
          acc tables !! "id" = acc !! "id").
  { induction tables as [|t tables IH]; intros acc; [done|].
    simpl foldl. by rewrite IH, foldl_add_column_id. }
  by rewrite Hgen, lookup_empty.
Qed.

Lemma seen_absent (col : string) (cols : list (string * string)) :
  col ∉ cols.*1 → seen col cols = [].
Proof.
  unfold seen. induction cols as [|[name ty] cols IH]; intros Hin; [done|].
  rewrite fmap_cons, not_elem_of_cons in Hin. destruct Hin as [Hne Hin].
  rewrite filter_cons_False by (simpl; intros ->; by apply Hne). by apply IH.
Qed.

Lemma seen_unique (col ty : string) (cols : list (string * string)) :
  NoDup cols.*1 → (col, ty) ∈ cols → seen col cols = [ty].
Proof.
  induction cols as [|[name ty'] cols IH]; intros Hnd Hin.
  - by apply elem_of_nil in Hin.
  - apply NoDup_cons in Hnd as [Hname Hnd].
    apply elem_of_cons in Hin as [Heq|Hin].
    + simplify_eq. unfold seen. rewrite filter_cons_True by done. simpl.
      f_equal. by apply seen_absent.
    + destruct (decide (name = col)) as [->|Hne].
      * exfalso. apply Hname, list_elem_of_fmap. by exists (col, ty).
      * unfold seen. rewrite filter_cons_False by done. by apply IH.
Qed.

Lemma seen_in_app (db : store) (schema col : string) (l k : list string) :
  seen_in db schema col (l ++ k)
  = seen_in db schema col l ++ seen_in db schema col k.
Proof. unfold seen_in. apply bind_app. Qed.

Lemma seen_in_cons (db : store) (schema col t : string) (l : list string) :
  seen_in db schema col (t :: l)
  = seen col (get_table_columns db schema t) ++ seen_in db schema col l.
Proof. done. Qed.

Lemma seen_in_absent (db : store) (schema col : string) (l : list string) :
  (∀ t, t ∈ l → col ∉ (get_table_columns db schema t).*1) →
  seen_in db schema col l = [].
Proof.
  induction l as [|t l IH]; intros Habsent; [done|].
  rewrite seen_in_cons, seen_absent, IH; [done| |].
  - intros t' Ht'. apply Habsent. by right.
  - apply Habsent. left.
Qed.

Lemma resolves_claimed (first second kept : string) :
  resolves first second kept →
  kept = claimed first second
  ∨ (both_int_no_bigint first second ∧ kept = "INTEGER").
Proof.
  unfold claimed, both_int_no_bigint.
  destruct 1 as [Ht|Ht1 Ht2 Hj|Ht1 Ht2 Hj1 Hj2 Hi1 Hi2 Hb
                 |Ht1 Ht2 Hj1 Hj2 Hi1 Hi2 Hb1 Hb2|Ht1 Ht2 Hj1 Hj2 Hi].
  - left. destruct Ht as [Ht|Ht]; rewrite (bool_decide_eq_true_2 _ Ht);
      by rewrite ?orb_true_r.
  - left. rewrite (bool_decide_eq_false_2 _ Ht1), (bool_decide_eq_false_2 _ Ht2).
    cbn [orb]. destruct Hj as [Hj|Hj]; rewrite (bool_decide_eq_true_2 _ Hj);
      by rewrite ?orb_true_r.
  - left. rewrite (bool_decide_eq_false_2 _ Ht1), (bool_decide_eq_false_2 _ Ht2),
      (bool_decide_eq_false_2 _ Hj1), (bool_decide_eq_false_2 _ Hj2).
    cbn [orb]. apply Is_true_true in Hi1, Hi2. rewrite Hi1, Hi2. cbn [andb].
    destruct Hb as [Hb|Hb]; apply Is_true_true in Hb; rewrite Hb;
      by rewrite ?orb_true_r.
  - right. done.
  - left. rewrite (bool_decide_eq_false_2 _ Ht1), (bool_decide_eq_false_2 _ Ht2),
      (bool_decide_eq_false_2 _ Hj1), (bool_decide_eq_false_2 _ Hj2).
    cbn [orb].
    destruct (PyStr.contains "INT" (PyStr.upper first)) eqn:Hi1; [|done].
    destruct (PyStr.contains "INT" (PyStr.upper second)) eqn:Hi2; [|done].
    exfalso. by apply Hi.
Qed.

(** C2, as the code has it: a column that two of the contributing
    tables hold, with the types [first] and [second] in the order of
    the tables, and that no other contributing table holds, gets the
    type that the precedence gives: TEXT if either is TEXT, else JSONB
    if either is JSONB, else, both containing INT, BIGINT if either
    contains BIGINT and INTEGER if neither does, else the type seen
    first.  This is the type of the specification except in the case
    where both contain INT and neither BIGINT, where the code writes
    INTEGER whatever the two types are. *)
Theorem reconciler_precedence (db : store) (schema : string)
    (before between after : list string) (t1 t2 col first second : string) :
  col ≠ "id" →
  NoDup (get_table_columns db schema t1).*1 →
  NoDup (get_table_columns db schema t2).*1 →
  (col, first) ∈ get_table_columns db schema t1 →
  (col, second) ∈ get_table_columns db schema t2 →
  (∀ t, t ∈ before ++ between ++ after →
        col ∉ (get_table_columns db schema t).*1) →
  (∃ kept,
     collect_all_columns_from_tables db schema
       (before ++ t1 :: between ++ t2 :: after) !! col = Some kept
     ∧ resolves first second kept
     ∧ (∀ kept', resolves first second kept' → kept' = kept)
     ∧ (kept = claimed first second
        ∨ (both_int_no_bigint first second ∧ kept = "INTEGER")))
  ∧ reconcile "INTEGER" "TEXT" = "TEXT"
  ∧ reconcile "INTEGER" "BIGINT" = "BIGINT"
  ∧ reconcile "JSONB" "INTEGER" = "JSONB".
Proof.
  intros Hid Hnd1 Hnd2 Hin1 Hin2 Hothers. split; [|done].
  exists (reconcile first second). split; [|split; [|split]].
  - rewrite collect_lookup by done.
    rewrite seen_in_app, seen_in_cons, seen_in_app, seen_in_cons.
    rewrite !seen_in_absent.
    + rewrite (seen_unique _ _ _ Hnd1 Hin1), (seen_unique _ _ _ Hnd2 Hin2).
      reflexivity.
    + intros t Ht. apply Hothers. rewrite !elem_of_app. by right; right.
    + intros t Ht. apply Hothers. rewrite !elem_of_app. by right; left.
    + intros t Ht. apply Hothers. rewrite !elem_of_app. by left.
  - apply reconcile_resolves.
  - intros kept' Hk. eapply resolves_functional; [exact Hk|].
    apply reconcile_resolves.
  - apply resolves_claimed, reconcile_resolves.
Qed.

(** C2 fails as stated: for the types [smallint] and [interval], which
    both contain INT, the code keeps neither the type seen first nor a
    type that either table has; it writes INTEGER.  The same happens
    when the first type is [smallint] and the second [integer]. *)
Lemma reconciler_invents_integer :
  let db : store :=
    {[ ("main", "a") := Table [("id", "integer"); ("n", "smallint")] [];
       ("main", "b") := Table [("id", "integer"); ("n", "interval")] [] ]} in
  collect_all_columns_from_tables db "main" ["a"; "b"] !! "n" = Some "INTEGER"
  ∧ claimed "smallint" "interval" = "smallint"
  ∧ reconcile "smallint" "integer" = "INTEGER"
  ∧ claimed "smallint" "integer" = "smallint".
Proof.
  intros db.
  assert (H1 : collect_all_columns_from_tables db "main" ["a"; "b"] !! "n"
               = Some "INTEGER") by (vm_compute; reflexivity).
  assert (H2 : claimed "smallint" "interval" = "smallint")
    by (vm_compute; reflexivity).
  assert (H3 : reconcile "smallint" "integer" = "INTEGER")
    by (vm_compute; reflexivity).
  assert (H4 : claimed "smallint" "integer" = "smallint")
    by (vm_compute; reflexivity).
  exact (conj H1 (conj H2 (conj H3 H4))).
Qed.

Lemma reconciler_precedence_witness :
  let db := Sample.spells_db in
  let cols1 := get_table_columns db "spells" "spells_phb" in
  let cols2 := get_table_columns db "spells" "spells_xge" in
  "level" ≠ "id" ∧ NoDup cols1.*1 ∧ NoDup cols2.*1 ∧
  ("level", "integer") ∈ cols1 ∧ ("level", "bigint") ∈ cols2 ∧
  (∀ t, t ∈ ["absent"] ++ [] ++ ["missing"] →
        "level" ∉ (get_table_columns db "spells" t).*1) ∧
  collect_all_columns_from_tables db "spells"
    (["absent"] ++ "spells_phb" :: [] ++ "spells_xge" :: ["missing"])
  !! "level" = Some "BIGINT".
Proof.
  intros db cols1 cols2.
  assert (Hid : "level" ≠ "id") by done.
  assert (Hnd1 : NoDup cols1.*1) by by_computation.
  assert (Hnd2 : NoDup cols2.*1) by by_computation.
  assert (Hin1 : ("level", "integer") ∈ cols1) by by_computation.
  assert (Hin2 : ("level", "bigint") ∈ cols2) by by_computation.
  assert (Hothers : ∀ t, t ∈ ["absent"] ++ [] ++ ["missing"] →
                         "level" ∉ (get_table_columns db "spells" t).*1).
  { intros t Ht. simpl in Ht.
    apply elem_of_cons in Ht as [->|Ht];
      [|apply elem_of_cons in Ht as [->|Ht]; [|by apply elem_of_nil in Ht]];
      vm_compute; by intros ?%elem_of_nil. }
  repeat (split; [assumption|]).
  destruct (reconciler_precedence db "spells" ["absent"] [] ["missing"]
              "spells_phb" "spells_xge" "level" "integer" "bigint"
              Hid Hnd1 Hnd2 Hin1 Hin2 Hothers)
    as [(kept & Hkept & Hres & _) _].
  rewrite Hkept. f_equal.
  eapply resolves_functional; [exact Hres|]. apply reconcile_resolves.
Defined.











End ReconcileFacts.

(** ** The fingerprint of the source tables *)

Section FingerprintFacts.
Context {py : PyLib} {pg : Postgres}.
Import BronzeToSilver Spec.






















End FingerprintFacts.

(** ** Ingestion and its ledger *)

Section IngestionFacts.
Context {py : PyLib} {pg : Postgres}.
Import ImportJson Spec.

Lemma update_import_status_memory (file_path file_hash' schema tname : string)
    (count : nat) (status' : string) (error : option string) (st : state) :
  memory_tracking
    (update_import_status file_path file_hash' schema tname count status' error st)
  !! file_path
  = Some (MemEntry file_hash' status' (Some (schema, tname, count, error))).
Proof.
  unfold update_import_status. simpl.
  destruct (import_tracking st); simpl; by rewrite lookup_insert_eq.
Qed.

(** A positive answer of the look-up leaves an entry for the file in the
    cache, with status [success] and the hash asked for. *)
Lemma is_file_already_imported_true (file_path file_hash' : string)
    (st st' : state) :
  is_file_already_imported file_path file_hash' st = (true, st') →
  ∃ e, memory_tracking st' !! file_path = Some e
       ∧ m_status e = "success" ∧ m_file_hash e = file_hash'.
Proof.
  unfold is_file_already_imported.
  destruct (memory_tracking st !! file_path) as [e|] eqn:Hmem.
  - intros [= Hb <-]. apply andb_true_iff in Hb as [Hs Hh].
    apply bool_decide_eq_true in Hs, Hh. by exists e.
  - destruct (import_tracking st) as [ledger|]; [|done].
    destruct (ledger !! file_path) as [r|]; [|done].
    case_decide as Hhash; [|done].
    intros [= Hb <-]. apply bool_decide_eq_true in Hb.
    eexists. simpl. rewrite lookup_insert_eq. by split_and!.
Qed.

Lemma is_file_already_imported_hit (file_path file_hash' : string)
    (st : state) (e : mem_entry) :
  memory_tracking st !! file_path = Some e →
  m_status e = "success" → m_file_hash e = file_hash' →
  is_file_already_imported file_path file_hash' st = (true, st).
Proof.
  intros Hmem Hs Hh. unfold is_file_already_imported. rewrite Hmem.
  by rewrite !bool_decide_eq_true_2.
Qed.

(** After [process_blob] the cache holds an entry for the document, with
    the hash of the content that was submitted. *)
Lemma process_blob_memory (blob_name content : string) (st st1 : state)
    (r : bool) :
  process_blob blob_name content st = (r, st1) →
  ∃ e, memory_tracking st1 !! blob_name = Some e
       ∧ m_file_hash e = calculate_file_hash content.
Proof.
  unfold process_blob.
  destruct (is_file_already_imported blob_name (calculate_file_hash content) st)
    as [imported st'] eqn:Hlook.
  destruct imported.
  - intros [= <- <-].
    apply is_file_already_imported_true in Hlook as (e & He & _ & Hh).
    by exists e.
  - unfold record_failure.
    destruct (json_loads content) as [data|]; [destruct bronze_up|];
      intros [= <- <-]; simpl; rewrite update_import_status_memory;
      by eexists.
Qed.

Lemma update_import_status_journal (file_path file_hash' schema tname : string)
    (count : nat) (status' : string) (error : option string) (st : state) :
  journal
    (update_import_status file_path file_hash' schema tname count status' error st)
  = journal st.
Proof. unfold update_import_status. simpl. by destruct (import_tracking st). Qed.

Lemma is_file_already_imported_journal (file_path file_hash' : string)
    (st : state) :
  journal (is_file_already_imported file_path file_hash' st).2 = journal st.
Proof.
  unfold is_file_already_imported.
  destruct (memory_tracking st !! file_path); [done|].
  destruct (import_tracking st) as [ledger|]; [|done].
  destruct (ledger !! file_path); [|done]. by case_decide.
Qed.

Lemma build_journal_creates (schema tname : string) (array_data : list json) :
  Dropped schema tname ∈ build_journal schema tname array_data
  ∧ Created schema tname ∈ build_journal schema tname array_data.
Proof.
  unfold build_journal. cbv zeta.
  split; apply elem_of_app; right; apply elem_of_app; left.
  - left.
  - right. left.
Qed.

(** C4, as the code has it: when the ingestion of a document ends with the
    document recorded as [success], ingesting the same path and content
    again changes nothing: no table is dropped or created, no row is
    inserted (the journal of these statements is as it was), and the
    ledger keeps its entry for the path as it is.  The same holds in a
    later run, where the record is found in the ledger table and only
    the cache of the process changes.  The answer is [True]; it is also
    the answer of an ingestion that is performed, which drops the
    table, creates it and inserts the rows, so that the answer does not
    tell that the document was skipped. *)
Theorem second_ingestion_skips (blob_name content : string) :
  (∀ st st1 r e,
     process_blob blob_name content st = (r, st1) →
     memory_tracking st1 !! blob_name = Some e → m_status e = "success" →
     process_blob blob_name content st1 = (true, st1)) ∧
  (∀ st ledger row,
     memory_tracking st !! blob_name = None →
     import_tracking st = Some ledger → ledger !! blob_name = Some row →
     status row = "success" → file_hash row = calculate_file_hash content →
     ∃ st', process_blob blob_name content st = (true, st')
            ∧ bronze st' = bronze st
            ∧ import_tracking st' = Some ledger
            ∧ failed_imports st' = failed_imports st
            ∧ journal st' = journal st) ∧
  (∀ st data,
     (is_file_already_imported blob_name (calculate_file_hash content) st).1
     = false →
     json_loads content = Some data → bronze_up = true →
     ∃ schema tname events,
       (process_blob blob_name content st).1 = true
       ∧ journal (process_blob blob_name content st).2 = journal st ++ events
       ∧ Dropped schema tname ∈ events
       ∧ Created schema tname ∈ events).
Proof.
  split; [|split].
  - intros st st1 r e Hfirst Hmem Hs.
    destruct (process_blob_memory _ _ _ _ _ Hfirst) as (e' & He' & Hh).
    simplify_eq. unfold process_blob.
    by rewrite (is_file_already_imported_hit _ _ _ e).
  - intros st ledger row Hmem Hled Hrow Hs Hh.
    unfold process_blob, is_file_already_imported.
    rewrite Hmem, Hled, Hrow, decide_True by done.
    rewrite bool_decide_eq_true_2 by done. eexists. split; [done|]. done.
  - intros st data Hnew Hdata Hup.
    pose proof (is_file_already_imported_journal blob_name
                  (calculate_file_hash content) st) as Hj.
    unfold process_blob.
    destruct (is_file_already_imported blob_name (calculate_file_hash content)
                st) as [imported st0].
    cbn [fst snd] in Hnew, Hj. subst imported. rewrite Hdata, Hup.
    eexists _, _, _. cbn [fst snd].
    rewrite update_import_status_journal. cbn [log set_bronze journal].
    rewrite Hj.
    split; [reflexivity|]. split; [reflexivity|]. apply build_journal_creates.
Qed.

Lemma is_file_already_imported_failed (file_path file_hash' : string)
    (st st' : state) (b : bool) :
  is_file_already_imported file_path file_hash' st = (b, st') →
  failed_imports st' = failed_imports st.
Proof.
  unfold is_file_already_imported.
  destruct (memory_tracking st !! file_path); [by intros [= _ <-]|].
  destruct (import_tracking st) as [ledger|]; [|by intros [= _ <-]].
  destruct (ledger !! file_path); [|by intros [= _ <-]].
  case_decide; by intros [= _ <-].
Qed.

Lemma update_import_status_failed (file_path file_hash' schema tname : string)
    (count : nat) (status' : string) (error : option string) (st : state) :
  failed_imports
    (update_import_status file_path file_hash' schema tname count status' error st)
  = failed_imports st.
Proof. unfold update_import_status. simpl. by destruct (import_tracking st). Qed.

(** [process_blob] answers [False] exactly when it adds the document to
    [failed_imports]; otherwise the set is left as it is. *)
Lemma process_blob_failed (blob_name content : string) (st st' : state)
    (r : bool) :
  process_blob blob_name content st = (r, st') →
  failed_imports st'
  = if r then failed_imports st else {[blob_name]} ∪ failed_imports st.
Proof.
  unfold process_blob.
  destruct (is_file_already_imported blob_name (calculate_file_hash content) st)
    as [imported st0] eqn:Hlook.
  apply is_file_already_imported_failed in Hlook.
  destruct imported; [by intros [= <- <-]|].
  unfold record_failure.
  destruct (json_loads content) as [data|]; [destruct bronze_up|];
    intros [= <- <-]; simpl; rewrite update_import_status_failed; simpl;
    by rewrite Hlook.
Qed.

(** A document for which [process_blob] answers [False] is recorded
    with status [error], in the cache and, where there is one, in the
    ledger table. *)
Lemma process_blob_false_recorded (blob_name content : string)
    (st st' : state) :
  process_blob blob_name content st = (false, st') →
  (∃ e, memory_tracking st' !! blob_name = Some e ∧ m_status e = "error") ∧
  (∀ ledger, import_tracking st = Some ledger →
     ∃ ledger' r, import_tracking st' = Some ledger'
                  ∧ ledger' !! blob_name = Some r ∧ status r = "error").
Proof.
  unfold process_blob.
  destruct (is_file_already_imported blob_name (calculate_file_hash content) st)
    as [imported st0] eqn:Hlook.
  assert (Hled : import_tracking st0 = import_tracking st).
  { revert Hlook. unfold is_file_already_imported.
    destruct (memory_tracking st !! blob_name); [by intros [= _ <-]|].
    destruct (import_tracking st) as [ledger|] eqn:Hledger;
      [|by intros [= _ <-]].
    destruct (ledger !! blob_name); [|by intros [= _ <-]].
    case_decide; by intros [= _ <-]. }
  destruct imported; [done|].
  assert (Hfail :
    ∀ schema tname,
      (∃ e, memory_tracking
              (record_failure blob_name (calculate_file_hash content) schema
                 tname st0) !! blob_name = Some e ∧ m_status e = "error") ∧
      (∀ ledger, import_tracking st = Some ledger →
         ∃ ledger' r,
           import_tracking
             (record_failure blob_name (calculate_file_hash content) schema
                tname st0) = Some ledger'
           ∧ ledger' !! blob_name = Some r ∧ status r = "error")).
  { intros schema tname. unfold record_failure. simpl. split.
    - rewrite update_import_status_memory. by eexists.
    - intros ledger Hledger. unfold update_import_status. simpl.
      rewrite Hled, Hledger. simpl. eexists _, _. split; [done|].
      rewrite lookup_insert_eq. by split. }
  destruct (json_loads content) as [data|]; [destruct bronze_up|];
    intros [= <-]; try done; apply Hfail.
Qed.

Lemma run_all_snoc (docs : list (string * string)) (d : string * string)
    (st : state) :
  run_all (docs ++ [d]) st
  = let '(r, st') := process_blob d.1 d.2 (run_all docs st).2 in
    ((run_all docs st).1 ++ [r], st').
Proof. unfold run_all. by rewrite foldl_app. Qed.

Lemma run_all_state (docs : list (string * string)) (st : state) :
  foldl (λ st (d : string * string), (process_blob d.1 d.2 st).2) st docs
  = (run_all docs st).2.
Proof.
  induction docs as [|d docs IH] using rev_ind; [done|].
  rewrite foldl_app, run_all_snoc, IH. simpl.
  by destruct (process_blob d.1 d.2 (run_all docs st).2).
Qed.

Lemma run_all_failed (docs : list (string * string)) (st : state) :
  failed_imports st = ∅ →
  failed_imports (run_all docs st).2 ≠ ∅ ↔ false ∈ (run_all docs st).1.
Proof.
  intros Hempty. induction docs as [|d docs IH] using rev_ind.
  - simpl. rewrite Hempty. split; [done|]. by intros ?%elem_of_nil.
  - rewrite run_all_snoc.
    destruct (process_blob d.1 d.2 (run_all docs st).2) as [r st'] eqn:Hd.
    apply process_blob_failed in Hd. simpl. rewrite Hd, elem_of_app.
    destruct r.
    + rewrite IH. split; [by left|]. intros [?|Hin]; [done|].
      by apply list_elem_of_singleton in Hin.
    + split; [intros _; right; by apply list_elem_of_singleton|].
      intros _. set_solver.
Qed.

End IngestionFacts.

(** ** Exit codes *)

Section ExitCodes.
Context {py : PyLib} {pg : Postgres}.
Import Spec.

(** C8, as the code has it: with both servers reachable the
    transformation script exits with code 0 whatever happens to single
    tables; the ingestion script, with the server and the documents
    reachable, exits with code 1 exactly when [process_blob] answered
    [False] for at least one document, and with code 0 otherwise; such
    a document is recorded with status [error]. *)
Theorem exit_codes :
  (∀ st, bronze_up = true → silver_up = true →
         (BronzeToSilver.main st).1 = 0) ∧
  (∀ docs db ledger,
     bronze_up = true →
     (ImportJson.main (Some docs) db ledger).1
     = if bool_decide
            (false ∈ (run_all docs (ImportJson.State db ledger ∅ ∅ [])).1)
       then 1 else 0) ∧
  (∀ blob_name content st st',
     ImportJson.process_blob blob_name content st = (false, st') →
     (∃ e, ImportJson.memory_tracking st' !! blob_name = Some e
           ∧ ImportJson.m_status e = "error") ∧
     (∀ ledger, ImportJson.import_tracking st = Some ledger →
        ∃ ledger' r, ImportJson.import_tracking st' = Some ledger'
                     ∧ ledger' !! blob_name = Some r
                     ∧ ImportJson.status r = "error")).
Proof.
  split; [|split].
  - intros st Hb Hs. unfold BronzeToSilver.main. by rewrite Hb, Hs.
  - intros docs db ledger Hb. unfold ImportJson.main. rewrite Hb. simpl.
    destruct docs as [|d docs].
    + done.
    + rewrite run_all_state.
      set (st0 := ImportJson.State db ledger ∅ ∅ []).
      pose proof (run_all_failed (d :: docs) st0 eq_refl) as Hiff.
      rewrite (bool_decide_ext _ _ Hiff).
      by destruct (bool_decide (false ∈ (run_all (d :: docs) st0).1)).
  - apply process_blob_false_recorded.
Qed.

End ExitCodes.

(** ** The transformation ledger and the idempotency gate *)

Section LedgerFacts.
Context {py : PyLib} {pg : Postgres}.
Import BronzeToSilver Spec.

Lemma update_transformation_status_bronze a b c d e h n s err st :
  bronze (update_transformation_status a b c d e h n s err st) = bronze st.
Proof. unfold update_transformation_status. by destruct (tracking st). Qed.

Lemma update_transformation_status_silver a b c d e h n s err st :
  silver (update_transformation_status a b c d e h n s err st) = silver st.
Proof. unfold update_transformation_status. by destruct (tracking st). Qed.

Lemma update_transformation_status_journal a b c d e h n s err st :
  journal (update_transformation_status a b c d e h n s err st) = journal st.
Proof. unfold update_transformation_status. by destruct (tracking st). Qed.

Lemma when_hashed_bronze h a b c d e n s err st :
  bronze (when_hashed h
            (λ h0, update_transformation_status a b c d e h0 n s err) st)
  = bronze st.
Proof.
  unfold when_hashed. destruct h as [h|]; [|done].
  case_decide; [done|]. apply update_transformation_status_bronze.
Qed.

Lemma when_hashed_silver h a b c d e n s err st :
  silver (when_hashed h
            (λ h0, update_transformation_status a b c d e h0 n s err) st)
  = silver st.
Proof.
  unfold when_hashed. destruct h as [h|]; [|done].
  case_decide; [done|]. apply update_transformation_status_silver.
Qed.

Lemma when_hashed_journal h a b c d e n s err st :
  journal (when_hashed h
             (λ h0, update_transformation_status a b c d e h0 n s err) st)
  = journal st.
Proof.
  unfold when_hashed. destruct h as [h|]; [|done].
  case_decide; [done|]. apply update_transformation_status_journal.
Qed.

(** A fingerprint is never the empty text. *)
Lemma calculate_tables_hash_nonempty (db : store) (schema : string)
    (tables : list string) (h : string) :
  calculate_tables_hash db schema tables = Some h → h ≠ "".
Proof.
  unfold calculate_tables_hash.
  destruct (combined_data db schema tables) as [text|]; [|done].
  intros [= <-] Hempty. pose proof (md5_length text) as Hlen.
  by rewrite Hempty in Hlen.
Qed.

(** The answer of [is_transformation_needed], in terms of the ledger. *)
Lemma is_transformation_needed_false (st : state)
    (schema target kind h : string) :
  is_transformation_needed st schema target kind h = false ↔
  ∃ e, ledger_lookup st schema target kind = Some e
       ∧ status e = "success" ∧ source_hash e = h.
Proof.
  unfold is_transformation_needed, ledger_lookup.
  destruct (tracking st) as [ledger|]; simpl; [|naive_solver].
  destruct (ledger !! (schema, target, kind)) as [e|]; [|naive_solver].
  destruct (decide (status e = "success")) as [Hs|Hs],
           (decide (source_hash e = h)) as [Hh|Hh].
  - rewrite !bool_decide_eq_true_2 by done. naive_solver.
  - rewrite bool_decide_eq_true_2, bool_decide_eq_false_2 by done.
    naive_solver.
  - rewrite bool_decide_eq_false_2 by done. naive_solver.
  - rewrite bool_decide_eq_false_2 by done. naive_solver.
Qed.

Lemma up_to_date_recorded (st : state) (schema target kind : string)
    (h : option string) :
  (∀ hash, h = Some hash → hash ≠ "") →
  up_to_date st schema target kind h = true ↔
  recorded_success st schema target kind h.
Proof.
  intros Hne. unfold up_to_date, recorded_success.
  destruct h as [hash|]; [|naive_solver].
  rewrite (bool_decide_eq_false_2 (hash = "")) by by apply Hne.
  simpl. rewrite negb_true_iff, is_transformation_needed_false.
  naive_solver.
Qed.

Lemma not_dropped_in_self (st : state) (schema target : string) :
  ¬ dropped_in st st schema target.
Proof.
  intros [evs Hevs]. apply (f_equal length) in Hevs.
  rewrite length_app in Hevs. simpl in Hevs. lia.
Qed.

(** What [copy_table] does to a readable table with columns. *)
Lemma copy_table_gate (st : state) (schema tname : string) :
  readable (bronze st) schema tname = true →
  get_table_columns (bronze st) schema tname ≠ [] →
  let h := calculate_tables_hash (bronze st) schema [tname] in
  let st' := copy_table schema tname st in
  (recorded_success st schema tname "copy" h → st' = st) ∧
  (dropped_in st st' schema tname ↔ ¬ recorded_success st schema tname "copy" h) ∧
  (¬ recorded_success st schema tname "copy" h →
   NoDup (get_table_columns (bronze st) schema tname).*1 →
   rebuilt_in st st' schema tname).
Proof.
  intros Hread Hcols h st'.
  assert (Hgate : up_to_date st schema tname "copy" h = true ↔
                  recorded_success st schema tname "copy" h).
  { apply up_to_date_recorded. intros hash Hh.
    by eapply calculate_tables_hash_nonempty. }
  subst st'. unfold copy_table. rewrite Hread. simpl. fold h.
  destruct (up_to_date st schema tname "copy" h) eqn:Hup.
  { split; [done|]. split; [|by intros []; apply Hgate].
    split; [by intros ?%not_dropped_in_self|]. intros []. by apply Hgate. }
  assert (Hnot : ¬ recorded_success st schema tname "copy" h).
  { intros Hrec%Hgate. congruence. }
  split; [done|].
  rewrite when_hashed_bronze.
  destruct (get_table_columns (bronze st) schema tname) as [|c cols] eqn:Hc;
    [done|].
  split; [split; [done|]; intros _|intros _ Hnd].
  - unfold dropped_in. case_bool_decide.
    + rewrite when_hashed_journal. simpl. rewrite when_hashed_journal.
      rewrite <- app_assoc. by eexists.
    + rewrite when_hashed_journal. simpl. rewrite when_hashed_journal.
      by eexists.
  - unfold rebuilt_in. rewrite bool_decide_eq_true_2 by done.
    rewrite when_hashed_journal. simpl. rewrite when_hashed_journal.
    by rewrite <- app_assoc.
Qed.
(** What [create_fusion_table] does when its readable sources yield
    columns. *)
Lemma create_fusion_table_gate (st : state)
    (schema table_prefix target : string) :
  let sources := existing_tables (bronze st) schema table_prefix in
  let all_columns :=
    collect_all_columns_from_tables (bronze st) schema sources in
  sources ≠ [] → all_columns ≠ ∅ →
  let h := calculate_tables_hash (bronze st) schema
             (prefix_tables (bronze st) schema table_prefix) in
  let st' := create_fusion_table schema table_prefix target st in
  (recorded_success st schema target "fusion" h → st' = st) ∧
  (dropped_in st st' schema target ↔ ¬ recorded_success st schema target "fusion" h) ∧
  (¬ recorded_success st schema target "fusion" h →
   NoDup (fusion_columns all_columns).*1 →
   rebuilt_in st st' schema target).
Proof.
  intros sources all_columns Hsources Hcolumns h st'.
  assert (Hgate : up_to_date st schema target "fusion" h = true ↔
                  recorded_success st schema target "fusion" h).
  { apply up_to_date_recorded. intros hash Hh.
    by eapply calculate_tables_hash_nonempty. }
  subst st'. unfold create_fusion_table.
  change (List.filter (λ t, PyStr.startswith t table_prefix)
            (list_tables (bronze st) schema))
    with (prefix_tables (bronze st) schema table_prefix).
  destruct (prefix_tables (bronze st) schema table_prefix) as [|p ps] eqn:Hp.
  { exfalso. apply Hsources. unfold sources, existing_tables. by rewrite Hp. }
  fold h.
  destruct (up_to_date st schema target "fusion" h) eqn:Hup.
  { split; [done|]. split; [|by intros []; apply Hgate].
    split; [by intros ?%not_dropped_in_self|]. intros []. by apply Hgate. }
  assert (Hnot : ¬ recorded_success st schema target "fusion" h).
  { intros Hrec%Hgate. congruence. }
  split; [done|].
  rewrite when_hashed_bronze.
  assert (Hex : List.filter (readable (bronze st) schema) (p :: ps) = sources).
  { unfold sources, existing_tables. by rewrite Hp. }
  rewrite Hex.
  destruct sources as [|s0 ss] eqn:Hs; [done|]. fold all_columns.
  rewrite decide_False by done.
  split; [split; [done|]; intros _|intros _ Hnd].
  - unfold dropped_in. case_bool_decide.
    + rewrite when_hashed_journal. simpl. rewrite when_hashed_journal.
      rewrite <- app_assoc. by eexists.
    + rewrite when_hashed_journal. simpl. rewrite when_hashed_journal.
      by eexists.
  - unfold rebuilt_in. rewrite bool_decide_eq_true_2 by done.
    rewrite when_hashed_journal. simpl. rewrite when_hashed_journal.
    by rewrite <- app_assoc.
Qed.
Lemma not_dropped_in_same_journal (st st' : state) (schema target : string) :
  journal st' = journal st → ¬ dropped_in st st' schema target.
Proof.
  intros Hsame [evs Hevs]. rewrite Hsame in Hevs.
  apply (f_equal length) in Hevs. rewrite length_app in Hevs.
  simpl in Hevs. lia.
Qed.

(** Without a readable table that has columns, [copy_table] runs no
    statement on the silver store. *)
Lemma copy_table_nothing_to_copy (st : state) (schema tname : string) :
  readable (bronze st) schema tname = false
  ∨ get_table_columns (bronze st) schema tname = [] →
  journal (copy_table schema tname st) = journal st.
Proof.
  intros Hnothing. unfold copy_table.
  destruct (readable (bronze st) schema tname); simpl; [|done].
  destruct Hnothing as [?|Hcols]; [done|].
  destruct (up_to_date st schema tname "copy" _); [done|].
  rewrite when_hashed_bronze, Hcols. apply when_hashed_journal.
Qed.


End LedgerFacts.

Section LedgerExamples.
Import BronzeToSilver Spec Sample.


(** C9: the code leaves the entry [in_progress] behind.  A fusion whose
    sources have no column besides [id], and the copy of a table
    without columns, mark the entry [in_progress] and return before
    anything is dropped; no later statement sets [success] or [error]. *)
Theorem in_progress_left_behind :
  (let st :=
     create_fusion_table "spells" "spells_" "fusion_spells"
       (first_run ids_only_db) in
   status <$> ledger_lookup st "spells" "fusion_spells" "fusion"
   = Some "in_progress" ∧ journal st = []) ∧
  (let st := copy_table "main" "notes" (first_run columnless_db) in
   status <$> ledger_lookup st "main" "notes" "copy" = Some "in_progress"
   ∧ journal st = []).
Proof. split; split; vm_compute; reflexivity. Qed.

End LedgerExamples.

(** ** Provenance of the rows of a fusion table *)

Section FusionFacts.
Context {py : PyLib} {pg : Postgres}.
Import BronzeToSilver Spec.








Lemma list_tables_NoDup (db : store) (schema : string) :
  NoDup (list_tables db schema).
Proof.
  unfold list_tables.
  pose proof (NoDup_fst_map_to_list db) as Hnd.
  induction Hnd as [|k l Hk Hnd IH]; simpl; [constructor|].
  case_decide as Hschema; [|done].
  constructor; [|done]. intros Hin.
  apply list_elem_of_omap in Hin as (k' & Hk' & Hf).
  case_decide as Hschema'; [|done]. simplify_eq.
  apply Hk. destruct k, k'. simpl in *. by simplify_eq.
Qed.








End FusionFacts.

Section FusionExamples.
Import BronzeToSilver Spec Sample.



End FusionExamples.

Section Examples.
Import ImportJson BronzeToSilver Spec Sample.


Lemma second_ingestion_skips_witness :
  let path := "data/spells/spells-phb.json" in
  let text := dumps (JList [spell]) in
  let first := process_blob path text (ImportJson.State ∅ (Some ∅) ∅ ∅ []) in
  first.1 = true ∧
  m_status <$> memory_tracking first.2 !! path = Some "success" ∧
  ImportJson.row_count <$> (import_tracking first.2 ≫= (.!! path)) = Some 1 ∧
  process_blob path text first.2 = (true, first.2).
Proof.
  intros path text first.
  assert (Hfirst : process_blob path text (ImportJson.State ∅ (Some ∅) ∅ ∅ [])
                   = (first.1, first.2)).
  { subst first. apply surjective_pairing. }
  assert (Hr : first.1 = true) by (vm_compute; reflexivity).
  assert (Hs : m_status <$> memory_tracking first.2 !! path = Some "success")
    by (vm_compute; reflexivity).
  assert (Hc : ImportJson.row_count <$> (import_tracking first.2 ≫= (.!! path))
               = Some 1) by (vm_compute; reflexivity).
  split; [exact Hr|]. split; [exact Hs|]. split; [exact Hc|].
  destruct (memory_tracking first.2 !! path) as [e|] eqn:He; [|discriminate Hs].
  injection Hs as Hs.
  pose proof (proj1 (second_ingestion_skips path text)) as Hthm.
  exact (Hthm _ _ _ e Hfirst He Hs).
Defined.

(** C4 fails as stated: the second ingestion of a document answers
    [True], which is what the first one answered after it had dropped
    and created the table and inserted a row; the value does not
    indicate a skip. *)
Lemma skip_answers_like_import :
  let path := "data/spells/spells-phb.json" in
  let text := dumps (JList [spell]) in
  let first := process_blob path text (ImportJson.State ∅ (Some ∅) ∅ ∅ []) in
  let second := process_blob path text first.2 in
  ImportJson.journal first.2
  = [ImportJson.Dropped "spells" "spells_phb"; ImportJson.Created "spells" "spells_phb";
     ImportJson.Inserted "spells" "spells_phb"]
  ∧ ImportJson.journal second.2 = ImportJson.journal first.2
  ∧ first.1 = true ∧ second.1 = true.
Proof.
  intros path text first second.
  assert (Hfirst : ImportJson.journal first.2
                   = [ImportJson.Dropped "spells" "spells_phb";
                      ImportJson.Created "spells" "spells_phb";
                      ImportJson.Inserted "spells" "spells_phb"])
    by (vm_compute; reflexivity).
  assert (Hsecond : ImportJson.journal second.2 = ImportJson.journal first.2)
    by (vm_compute; reflexivity).
  assert (H1 : first.1 = true) by (vm_compute; reflexivity).
  assert (H2 : second.1 = true) by (vm_compute; reflexivity).
  exact (conj Hfirst (conj Hsecond (conj H1 H2))).
Qed.


Lemma exit_codes_witness :
  bronze_up = true ∧ silver_up = true ∧
  (BronzeToSilver.main (first_run spells_db)).1 = 0 ∧
  (ImportJson.main (Some [("data/spells/spells-phb.json", dumps (JList [spell]))])
     ∅ (Some ∅)).1 = 0.
Proof.
  destruct exit_codes as (Hsilver & Himport & _).
  split; [reflexivity|]. split; [reflexivity|]. split.
  - by apply Hsilver.
  - rewrite Himport by reflexivity. vm_compute. reflexivity.
Defined.

(** C8 fails as stated: with the server reachable, one document whose
    text is not JSON makes the ingestion script exit with code 1; the
    failure is in the ledger as well. *)
Lemma ingestion_exit_code_reports_failure :
  let run :=
    ImportJson.main (Some [("data/spells/spells-phb.json", dumps (JList [spell]));
                           ("data/spells/broken.json", "{")])
      ∅ (Some ∅) in
  bronze_up = true ∧ json_loads "{" = None ∧
  run.1 = 1 ∧
  ImportJson.status <$> (import_tracking run.2 ≫= (.!! "data/spells/broken.json"))
  = Some "error" ∧
  ImportJson.status
  <$> (import_tracking run.2 ≫= (.!! "data/spells/spells-phb.json"))
  = Some "success".
Proof. repeat split; vm_compute; reflexivity. Qed.

(** A fusion that ends in [error] does not show in the exit code of
    the transformation script. *)
Example transformation_exit_code_hides_failure :
  let run := BronzeToSilver.main (first_run clash_db) in
  run.1 = 0 ∧
  BronzeToSilver.status
  <$> ledger_lookup run.2 "spells" "fusion_spells" "fusion" = Some "error" ∧
  silver run.2 !! ("spells", "fusion_spells") = None.
Proof. repeat split; vm_compute; reflexivity. Qed.

End Examples.

(** ** Identifiers *)

Section IdentifierFacts.
Import ImportJson Terms.

Lemma lower_clean_safe (c : ascii) :
  safe_char (PyStr.lower_char (clean c)) = true.
Proof. by destruct c as [[] [] [] [] [] [] [] []]. Qed.

Lemma safe_char_fixed (c : ascii) :
  safe_char c = true → clean c = c ∧ PyStr.lower_char c = c.
Proof. by destruct c as [[] [] [] [] [] [] [] []]. Qed.

Lemma lower_clean_digit (c : ascii) :
  PyStr.isdigit (PyStr.lower_char (clean c)) = PyStr.isdigit (clean c).
Proof. by destruct c as [[] [] [] [] [] [] [] []]. Qed.

Lemma lower_app (s1 s2 : string) :
  PyStr.lower (s1 +:+ s2) = PyStr.lower s1 +:+ PyStr.lower s2.
Proof.
  induction s1 as [|c s1 IH]; [done|].
  change (String c s1 +:+ s2) with (String c (s1 +:+ s2)).
  unfold PyStr.lower in *. simpl. by rewrite IH.
Qed.

Lemma all_chars_app (p : ascii → bool) (s1 s2 : string) :
  all_chars p (s1 +:+ s2) = all_chars p s1 && all_chars p s2.
Proof.
  induction s1 as [|c s1 IH]; [done|].
  change (String c s1 +:+ s2) with (String c (s1 +:+ s2)).
  simpl. by rewrite IH, andb_assoc.
Qed.

Lemma all_chars_take (p : ascii → bool) (n : nat) (s : string) :
  all_chars p s = true → all_chars p (PyStr.take n s) = true.
Proof.
  revert s. induction n as [|n IH]; intros [|c s]; simpl; try done.
  intros [Hc Hs]%andb_true_iff. by rewrite Hc, IH.
Qed.

Lemma all_chars_drop_last (p : ascii → bool) (s : string) :
  all_chars p s = true → all_chars p (PyStr.drop_last s) = true.
Proof.
  induction s as [|c s IH]; [done|]. destruct s as [|c' s]; [done|].
  change (PyStr.drop_last (String c (String c' s)))
    with (String c (PyStr.drop_last (String c' s))).
  intros [Hc Hs]%andb_true_iff.
  change (all_chars p (String c (PyStr.drop_last (String c' s))))
    with (p c && all_chars p (PyStr.drop_last (String c' s))).
  by rewrite Hc, IH.
Qed.

(** The characters of [sanitize_name], before the prefix is decided. *)
Lemma lower_map_clean_safe (name : string) :
  all_chars safe_char (PyStr.lower (PyStr.map_chars clean name)) = true.
Proof.
  induction name as [|c name IH]; [done|].
  unfold PyStr.lower in *. simpl. by rewrite lower_clean_safe, IH.
Qed.

Lemma safe_fixed (s : string) :
  all_chars safe_char s = true →
  PyStr.map_chars clean s = s ∧ PyStr.lower s = s.
Proof.
  induction s as [|c s IH]; [done|]. simpl.
  intros [Hc Hs]%andb_true_iff. destruct (IH Hs) as [IH1 IH2].
  destruct (safe_char_fixed c Hc) as [Hc1 Hc2].
  unfold PyStr.lower in *. simpl. by rewrite Hc1, Hc2, IH1, IH2.
Qed.

Lemma reserved_no_prefix :
  Forall (λ w, String.prefix "c_" w = false) reserved.
Proof. by_computation. Qed.

Lemma prefixed_not_reserved (s : string) : "c_" +:+ s ∉ reserved.
Proof.
  intros Hin. pose proof reserved_no_prefix as Hall.
  rewrite Forall_forall in Hall. specialize (Hall _ Hin).
  by destruct s.
Qed.

(** What [sanitize_name] returns, case by case. *)
Lemma sanitize_name_cases (name : string) :
  let cleaned := PyStr.map_chars clean name in
  (cleaned = "" ∧ sanitize_name name = "c_empty")
  ∨ (cleaned ≠ ""
     ∧ (starts_with_digit cleaned = true ∨ PyStr.lower cleaned ∈ reserved)
     ∧ sanitize_name name = "c_" +:+ PyStr.lower cleaned)
  ∨ (cleaned ≠ "" ∧ starts_with_digit cleaned = false
     ∧ PyStr.lower cleaned ∉ reserved
     ∧ sanitize_name name = PyStr.lower cleaned).
Proof.
  intros cleaned. unfold sanitize_name. fold clean. fold cleaned.
  destruct cleaned as [|c rest] eqn:Hc; [by left|]. right.
  destruct (PyStr.isdigit c) eqn:Hd; simpl.
  { left. split; [done|]. split; [by left|]. by rewrite lower_app. }
  case_bool_decide as Hres.
  - left. split; [done|]. split; [by right|]. by rewrite lower_app.
  - right. by split_and!.
Qed.
Lemma length_map_chars (f : ascii → ascii) (s : string) :
  String.length (PyStr.map_chars f s) = String.length s.
Proof. induction s as [|c s IH]; simpl; [done|]. by rewrite IH. Qed.

Lemma sanitize_name_safe (name : string) :
  sanitize_name name ≠ ""
  ∧ all_chars safe_char (sanitize_name name) = true
  ∧ starts_with_digit (sanitize_name name) = false
  ∧ sanitize_name name ∉ reserved.
Proof.
  destruct (sanitize_name_cases name)
    as [[Hc ->]|[(Hc & _ & ->)|(Hc & Hd & Hres & ->)]].
  - split_and!; [done|done|done|by_computation].
  - split_and!; [done| |done|apply prefixed_not_reserved].
    rewrite all_chars_app. by rewrite lower_map_clean_safe.
  - destruct name as [|c0 rest]; [done|]. split_and!; [done| |..|done].
    + apply lower_map_clean_safe.
    + simpl in *. fold (clean c0) in *. by rewrite lower_clean_digit.
Qed.

(** X1: for a name of ASCII characters [sanitize_name] returns an
    identifier: a non-empty text of lower-case letters, digits and
    underscores that does not start with a digit and is not one of the
    reserved words of the function, at most two characters longer than
    the name it was given (seven characters for the empty name). *)
Theorem sanitize_name_identifier (name : string) :
  is_ascii name = true →
  sanitize_name name ≠ ""
  ∧ all_chars safe_char (sanitize_name name) = true
  ∧ starts_with_digit (sanitize_name name) = false
  ∧ sanitize_name name ∉ reserved
  ∧ String.length (sanitize_name name) ≤ 7 `max` (String.length name + 2).
Proof.
  intros _. destruct (sanitize_name_safe name) as (H1 & H2 & H3 & H4).
  split_and!; try done.
  destruct (sanitize_name_cases name)
    as [[Hc ->]|[(Hc & _ & ->)|(Hc & Hd & Hres & ->)]].
  - simpl. lia.
  - rewrite string_length_app. unfold PyStr.lower.
    rewrite !length_map_chars. simpl. lia.
  - unfold PyStr.lower. rewrite !length_map_chars. lia.
Qed.

Lemma identifier_fixed (s : string) :
  s ≠ "" → all_chars safe_char s = true → starts_with_digit s = false →
  s ∉ reserved → sanitize_name s = s.
Proof.
  intros Hne Hsafe Hd Hres.
  destruct (safe_fixed _ Hsafe) as [Hclean Hlower].
  destruct (sanitize_name_cases s)
    as [[Hc _]|[(_ & Hpre & _)|(_ & _ & _ & ->)]].
  - rewrite Hclean in Hc. done.
  - rewrite Hclean, Hlower in Hpre. destruct Hpre as [Hpre|Hpre].
    + by rewrite Hd in Hpre.
    + done.
  - by rewrite Hclean, Hlower.
Qed.

(** X2: for a name of ASCII characters, sanitizing the sanitized name
    changes nothing. *)
Theorem sanitize_name_idempotent (name : string) :
  is_ascii name = true →
  sanitize_name (sanitize_name name) = sanitize_name name.
Proof.
  intros _. destruct (sanitize_name_safe name) as (Hne & Hsafe & Hd & Hres).
  by apply identifier_fixed.
Qed.

End IdentifierFacts.

Section IdentifierExamples.
Import ImportJson Terms.

Lemma sanitize_name_identifier_witness :
  is_ascii "2nd Level!" = true
  ∧ sanitize_name "2nd Level!" = "c_2nd_level_"
  ∧ all_chars safe_char (sanitize_name "2nd Level!") = true
  ∧ sanitize_name "2nd Level!" ∉ reserved.
Proof.
  assert (Hascii : is_ascii "2nd Level!" = true) by reflexivity.
  split; [exact Hascii|]. split; [vm_compute; reflexivity|].
  destruct (sanitize_name_identifier "2nd Level!" Hascii)
    as (_ & Hsafe & _ & Hres & _).
  split; [exact Hsafe|exact Hres].
Defined.

Lemma sanitize_name_idempotent_witness :
  is_ascii "Select" = true
  ∧ sanitize_name "Select" = "c_select"
  ∧ sanitize_name (sanitize_name "Select") = sanitize_name "Select".
Proof.
  assert (Hascii : is_ascii "Select" = true) by reflexivity.
  split; [exact Hascii|]. split; [vm_compute; reflexivity|].
  exact (sanitize_name_idempotent "Select" Hascii).
Defined.

End IdentifierExamples.

(** ** Shape of a flattened document *)

Section FlattenShape.
Context {py : PyLib} {pg : Postgres}.
Import ImportJson Terms.

Lemma safe_name_safe (name a : string) :
  all_chars safe_char name = true →
  all_chars safe_char (safe_name name a) = true.
Proof.
  intros Hname.
  assert (Hsafe : all_chars safe_char
            (name +:+ PyStr.take MAX_KEY_LENGTH (sanitize_name a) +:+ "_") = true).
  { rewrite !all_chars_app, Hname, all_chars_take; [done|].
    by apply sanitize_name_safe. }
  unfold safe_name. cbv zeta. case_match; [|done].
  rewrite all_chars_app, all_chars_take by done. done.
Qed.

Lemma well_shaped_insert (key : string) (v : json) (out : gmap string json) :
  all_chars safe_char key = true → is_cell v = true → well_shaped out →
  well_shaped (<[key := v]> out).
Proof.
  intros Hkey Hv Hout k w. rewrite lookup_insert.
  case_decide; [intros [= <-]; by subst|apply Hout].
Qed.

Lemma clip_text_cell (x : json) :
  is_cell x = true → is_cell (clip_text x) = true.
Proof. destruct x; simpl; try done. by case_match. Qed.

Lemma _flatten_well_shaped (depth : nat) :
  ∀ (x : json) (name : string) (out out' : gmap string json),
    all_chars safe_char name = true → well_shaped out →
    _flatten depth x name out = Some out' → well_shaped out'.
Proof.
  induction depth as [|depth IH]; intros x name out out' Hname Hout Hrun;
    [done|].
  assert (Hkey : all_chars safe_char (PyStr.drop_last name) = true)
    by by apply all_chars_drop_last.
  assert (Hscalar : ∀ v,
    is_cell v = true →
    (if decide (PyStr.drop_last name = "") then Some out
     else Some (<[PyStr.drop_last name := clip_text v]> out)) = Some out' →
    well_shaped out').
  { intros v Hv Hrun'. case_decide; simplify_eq; [done|].
    apply well_shaped_insert; [done| |done]. by apply clip_text_cell. }
  destruct x as [| b | n | lit | s | items | fields];
    [by apply (Hscalar JNull)|by apply (Hscalar (JBool b))
    |by apply (Hscalar (JInt n))|by apply (Hscalar (JFloat lit))
    |by apply (Hscalar (JStr s))|simpl in Hrun..].
  - simplify_eq. by apply well_shaped_insert.
  - clear Hkey Hscalar. revert out Hout Hrun.
    induction fields as [|[a v] fields IHf]; intros out Hout Hrun; simpl in Hrun.
    + by simplify_eq.
    + destruct (_flatten depth v (safe_name name a) out) as [out1|] eqn:Hv.
      * simpl in Hrun. apply (IHf out1); [|done].
        eapply IH; [|exact Hout|exact Hv]. by apply safe_name_safe.
      * simpl in Hrun. by rewrite foldl_bind_None in Hrun.
Qed.

(** X3: every entry of a flattened document whose field names are
    ASCII, whether [_flatten] completed or the single [json_data]
    column was used, has a key made of lower-case letters, digits and
    underscores and a value that is not a list or an object. *)
Theorem flatten_json_entries (obj : json) (key : string) (v : json) :
  ascii_fields obj = true →
  flatten_json obj !! key = Some v →
  all_chars safe_char key = true ∧ is_cell v = true.
Proof.
  intros _. unfold flatten_json.
  destruct (_flatten recursion_limit obj "" ∅) as [out|] eqn:Hrun.
  - revert key v. change (well_shaped out).
    eapply _flatten_well_shaped; [| |exact Hrun]; [done|].
    intros k w Hk. by rewrite lookup_empty in Hk.
  - intros Hk. apply lookup_singleton_Some in Hk as [<- <-]. done.
Qed.

End FlattenShape.

Section FlattenShapeExamples.
Import ImportJson Terms Sample.

Lemma flatten_json_entries_witness :
  ascii_fields spell = true ∧
  flatten_json spell !! "source_pages" = Some (JStr "[241]") ∧
  all_chars safe_char "source_pages" = true ∧ is_cell (JStr "[241]") = true.
Proof.
  assert (Hascii : ascii_fields spell = true) by reflexivity.
  assert (Hlook : flatten_json spell !! "source_pages" = Some (JStr "[241]")).
  { vm_compute. reflexivity. }
  split; [exact Hascii|]. split; [exact Hlook|].
  exact (flatten_json_entries spell "source_pages" (JStr "[241]") Hascii Hlook).
Defined.

End FlattenShapeExamples.

(** ** The import ledger and [process_blob] *)

Section ImportFacts.
Context {py : PyLib} {pg : Postgres}.
Import ImportJson Terms.


Lemma update_import_status_keeps_failed path h schema t n status' err st :
  failed_imports (update_import_status path h schema t n status' err st)
  = failed_imports st.
Proof. unfold update_import_status. simpl. by destruct (import_tracking st). Qed.

Lemma update_import_status_cache path h schema t n status' err st :
  memory_tracking (update_import_status path h schema t n status' err st)
  = <[path := MemEntry h status' (Some (schema, t, n, err))]>
      (memory_tracking st).
Proof. unfold update_import_status. simpl. by destruct (import_tracking st). Qed.

Lemma update_import_status_ledger path h schema t n status' err st :
  import_tracking (update_import_status path h schema t n status' err st)
  = <[path := TrackingRow h schema t n status' err]> <$> import_tracking st.
Proof.
  unfold update_import_status. simpl.
  destruct (import_tracking st) eqn:Hledger; simpl; by rewrite ?Hledger.
Qed.


Lemma is_file_already_imported_failed_imports path h st :
  failed_imports (is_file_already_imported path h st).2 = failed_imports st.
Proof.
  unfold is_file_already_imported. repeat case_match; done.
Qed.


Lemma is_file_already_imported_recorded path h st :
  (is_file_already_imported path h st).1
  = bool_decide (recorded_import st path = Some (h, "success")).
Proof.
  unfold is_file_already_imported, recorded_import.
  destruct (memory_tracking st !! path) as [e|]; simpl.
  - apply eq_true_iff_eq.
    rewrite andb_true_iff, !bool_decide_eq_true. split.
    + by intros [-> ->].
    + by intros [= -> ->].
  - destruct (import_tracking st) as [ledger|]; simpl; [|done].
    destruct (ledger !! path) as [r|]; simpl; [|done].
    case_decide as Hh; simpl.
    + apply bool_decide_ext. split; [by intros ->; subst|by intros [= _ ->]].
    + symmetry. apply bool_decide_eq_false. by intros [= ? _].
Qed.

(** X4: what [update_import_status] writes for a path is what
    [is_file_already_imported] reads back: the path counts as imported
    exactly when the status written is [success] and the hash asked for
    is the hash written, the look-up changes nothing, and the answer for
    every other path is what it was before the write. *)
Theorem import_status_round_trip path h schema t n status' err st h' :
  let st' := update_import_status path h schema t n status' err st in
  is_file_already_imported path h' st'
  = (bool_decide (status' = "success") && bool_decide (h = h'), st')
  ∧ ∀ other, other ≠ path →
      (is_file_already_imported other h' st').1
      = (is_file_already_imported other h' st).1.
Proof.
  intros st'. split.
  - unfold is_file_already_imported. subst st'.
    rewrite update_import_status_cache, lookup_insert_eq. done.
  - intros other Hother. rewrite !is_file_already_imported_recorded.
    f_equal. unfold recorded_import. subst st'.
    rewrite update_import_status_cache, update_import_status_ledger.
    rewrite lookup_insert_ne by done.
    destruct (memory_tracking st !! other); [done|].
    destruct (import_tracking st) as [ledger|]; simpl; [|done].
    by rewrite lookup_insert_ne.
Qed.

Lemma length_split_go (sep : ascii) (s cur : string) :
  length (PyStr.split_go sep cur s) = S (count_char sep s).
Proof.
  revert cur. induction s as [|c s IH]; intros cur; simpl; [done|].
  case_decide; simpl; by rewrite IH.
Qed.

(** The schema and the table in which [process_blob] stores a document
    are taken from its path, and the schema is [main] for a path of
    fewer than three components. *)
Lemma process_blob_cases blob content st :
  ∃ schema tname,
    (count_char "/" blob < 2 → schema = "main") ∧
    let st0 := (is_file_already_imported blob (md5_hexdigest content) st).2 in
    process_blob blob content st =
      if (is_file_already_imported blob (md5_hexdigest content) st).1
      then (true, st0)
      else match json_loads content with
           | Some data =>
               if bronze_up then
                 let t := build_table schema tname (normalize_root data) in
                 (true,
                  update_import_status blob (md5_hexdigest content) schema
                    tname (length (rows t)) "success" None
                    (log (build_journal schema tname (normalize_root data))
                       (set_bronze <[(schema, tname) := t]> st0)))
               else (false,
                     record_failure blob (md5_hexdigest content) schema tname
                       st0)
           | None =>
               (false,
                record_failure blob (md5_hexdigest content) schema tname st0)
           end.
Proof.
  unfold process_blob, calculate_file_hash.
  destruct (is_file_already_imported blob (md5_hexdigest content) st)
    as [imported st0].
  eexists _, _. split; [|simpl; reflexivity].
  intros Hfew. unfold PyStr.split. rewrite length_split_go.
  by rewrite (proj2 (Nat.ltb_ge _ _)) by lia.
Qed.







End ImportFacts.

Section ImportExamples.
Import ImportJson Terms Sample.


End ImportExamples.

(** ** The table built for a document *)

Section BuildTableFacts.
Context {py : PyLib} {pg : Postgres}.
Import ImportJson Terms.

Lemma append_row_columns (t : table) (r : row) :
  columns (append_row t r) = columns t.
Proof. done. Qed.

Lemma append_row_length (t : table) (r : row) :
  length (rows (append_row t r)) = S (length (rows t)).
Proof. unfold append_row. simpl. rewrite length_app. simpl. lia. Qed.

Lemma insert_item_columns schema tname t item_flat :
  columns (insert_item schema tname t item_flat) = columns t.
Proof.
  unfold insert_item. destruct item_flat as [item flat].
  repeat case_match; done.
Qed.

Lemma insert_raw_columns schema tname t item :
  columns (insert_raw schema tname t item) = columns t.
Proof. unfold insert_raw. by case_match. Qed.

Lemma insert_item_length schema tname t item_flat :
  length (rows (insert_item schema tname t item_flat)) ≤ S (length (rows t))
  ∧ (insert_ok schema tname (json_only item_flat.1) = true →
     length (rows (insert_item schema tname t item_flat))
     = S (length (rows t))).
Proof.
  unfold insert_item. destruct item_flat as [item flat]. simpl.
  repeat case_match; rewrite ?append_row_length; split; (done || lia).
Qed.

Lemma insert_raw_length schema tname t item :
  length (rows (insert_raw schema tname t item)) ≤ S (length (rows t))
  ∧ (insert_ok schema tname (json_only item) = true →
     length (rows (insert_raw schema tname t item)) = S (length (rows t))).
Proof.
  unfold insert_raw.
  case_match; rewrite ?append_row_length; split; (done || lia).
Qed.

Lemma foldl_insert_item schema tname (pairs : list (json * gmap string json))
    (t : table) :
  let t' := foldl (insert_item schema tname) t pairs in
  columns t' = columns t
  ∧ length (rows t') ≤ length (rows t) + length pairs
  ∧ ((∀ p, p ∈ pairs → insert_ok schema tname (json_only p.1) = true) →
     length (rows t') = length (rows t) + length pairs).
Proof.
  revert t. induction pairs as [|p pairs IH]; intros t; simpl.
  - split_and!; [done|lia|intros; lia].
  - destruct (IH (insert_item schema tname t p)) as (Hc & Hle & Heq).
    destruct (insert_item_length schema tname t p) as [Hle1 Heq1].
    rewrite insert_item_columns in Hc. split_and!; [done|lia|].
    intros Hok. rewrite Heq, Heq1; [lia|apply Hok; left|].
    intros q Hq. apply Hok. by right.
Qed.

Lemma foldl_insert_raw schema tname (items : list json) (t : table) :
  let t' := foldl (insert_raw schema tname) t items in
  columns t' = columns t
  ∧ length (rows t') ≤ length (rows t) + length items
  ∧ ((∀ item, item ∈ items → insert_ok schema tname (json_only item) = true) →
     length (rows t') = length (rows t) + length items).
Proof.
  revert t. induction items as [|p items IH]; intros t; simpl.
  - split_and!; [done|lia|intros; lia].
  - destruct (IH (insert_raw schema tname t p)) as (Hc & Hle & Heq).
    destruct (insert_raw_length schema tname t p) as [Hle1 Heq1].
    rewrite insert_raw_columns in Hc. split_and!; [done|lia|].
    intros Hok. rewrite Heq, Heq1; [lia|apply Hok; left|].
    intros q Hq. apply Hok. by right.
Qed.

(** X7: the table built for a document never has more rows than the
    document has items, and has exactly one row per item when the store
    accepts, for each item, the row that holds its JSON text alone: an
    item whose flattened row is refused costs no row. *)
Theorem build_table_row_count schema tname (array_data : list json) :
  length (rows (build_table schema tname array_data)) ≤ length array_data
  ∧ ((∀ item, item ∈ array_data →
        insert_ok schema tname (json_only item) = true) →
     length (rows (build_table schema tname array_data)) = length array_data).
Proof.
  unfold build_table. cbv zeta. case_match.
  - match goal with
    | |- context [foldl _ ?t ?pairs] =>
        destruct (foldl_insert_item schema tname pairs t) as (_ & Hle & Heq)
    end.
    cbv zeta in *. simpl in Hle, Heq.
    rewrite length_zip, length_fmap, Nat.min_id in Hle, Heq.
    split; [done|]. intros Hok. apply Heq.
    intros [item flat] Hin%elem_of_zip_l. by apply Hok.
  - destruct (foldl_insert_raw schema tname array_data
                (Table raw_table_columns [])) as (_ & Hle & Heq).
    cbv zeta in *. simpl in Hle, Heq. done.
Qed.

Lemma column_for_length (col : string) :
  0 < String.length (column_for col) ≤ 58.
Proof.
  unfold column_for. case_decide; [simpl; lia|].
  destruct (sanitize_name_safe col) as (Hne & _).
  destruct (sanitize_name col) as [|c s]; [done|].
  pose proof (string_length_take 57 s) as Hlen.
  change (PyStr.take 58 (String c s)) with (String c (PyStr.take 57 s)).
  change (String.length (String c (PyStr.take 57 s)))
    with (S (String.length (PyStr.take 57 s))).
  lia.
Qed.

(** X8: whichever layout is used, the table built for a document has
    pairwise distinct column names, starts with the column [id], holds
    the columns [json_data], [created_at] and [updated_at], and every
    other column is of type [text]; no column name is empty or longer
    than 58 characters. *)
Theorem build_table_columns schema tname (array_data : list json) :
  let t := build_table schema tname array_data in
  NoDup (column_names t)
  ∧ head (columns t) = Some ("id", "integer")
  ∧ raw_table_columns ⊆ columns t
  ∧ ∀ col ty, (col, ty) ∈ columns t →
      ((col, ty) ∈ raw_table_columns ∨ ty = "text")
      ∧ 0 < String.length col ≤ 58.
Proof.
  unfold build_table. cbv zeta. case_match eqn:Hflat.
  - apply andb_true_iff in Hflat as [_ Hnd%bool_decide_eq_true].
    match goal with
    | |- context [foldl _ ?t ?pairs] =>
        destruct (foldl_insert_item schema tname pairs t) as (Hc & _)
    end.
    unfold column_names. rewrite Hc. clear Hc. simpl columns.
    split_and!; [done|done| |].
    + unfold raw_table_columns, flat_table_columns.
      intros x Hx. rewrite elem_of_cons, elem_of_app.
      apply elem_of_cons in Hx as [->|Hx]; [by left|]. right. by right.
    + intros col ty Hin. unfold flat_table_columns in Hin.
      rewrite elem_of_cons, elem_of_app in Hin.
      destruct Hin as [[= -> ->]|[Hin|Hin]].
      * split; [left; by left|simpl; lia].
      * apply list_elem_of_fmap in Hin as (c & [= -> ->] & _).
        split; [by right|apply column_for_length].
      * split; [left; by right|].
        repeat (apply elem_of_cons in Hin as [[= -> ->]|Hin];
                [simpl; lia|]).
        by apply elem_of_nil in Hin.
  - destruct (foldl_insert_raw schema tname array_data
                (Table raw_table_columns [])) as (Hc & _).
    unfold column_names. rewrite Hc. clear Hc. simpl columns.
    split_and!; [by_computation|done|done|].
    intros col ty Hin. split; [by left|].
    unfold raw_table_columns in Hin.
    repeat (apply elem_of_cons in Hin as [[= -> ->]|Hin];
            [simpl; lia|]).
    by apply elem_of_nil in Hin.
Qed.

End BuildTableFacts.

Section BuildTableExamples.
Import ImportJson Terms Sample.

Lemma build_table_row_count_witness :
  length (rows (build_table "spells" "spells_phb" [spell; JInt 7])) = 2.
Proof.
  apply (proj2 (build_table_row_count "spells" "spells_phb" [spell; JInt 7])).
  intros item _. reflexivity.
Defined.

End BuildTableExamples.

(** ** The transformation ledger and the fingerprint *)

Section TransformationLedgerFacts.
Context {py : PyLib} {pg : Postgres}.
Import BronzeToSilver Spec Terms.

Lemma table_info_readable (db : store) (schema tname : string) :
  is_Some (table_info db schema tname) ↔ readable db schema tname = true.
Proof.
  unfold table_info, readable. destruct (select_ok schema tname); simpl.
  - rewrite bool_decide_eq_true.
    destruct (db !! (schema, tname)) as [tb|]; simpl.
    + split; intros _; by eexists.
    + split; intros [? ?]; done.
  - split; [by intros [? ?]|done].
Qed.

Lemma calculate_tables_hash_is_Some (db : store) (schema : string)
    (tables : list string) :
  is_Some (calculate_tables_hash db schema tables)
  ↔ ∀ t, t ∈ tables → readable db schema t = true.
Proof.
  unfold calculate_tables_hash, combined_data.
  rewrite fmap_is_Some.
  transitivity (is_Some (mapM (table_info db schema) tables)).
  { destruct (mapM (table_info db schema) tables) as [hash_data|]; simpl.
    - split; intros _; by eexists.
    - split; intros [? ?]; done. }
  rewrite mapM_is_Some, Forall_forall. unfold compose.
  by setoid_rewrite table_info_readable.
Qed.

(** X9: the fingerprint of a list of tables exists exactly when every
    table of the list can be read; it then has 32 characters, so that
    the tests [if source_hash] of the script succeed. *)
Theorem calculate_tables_hash_available (db : store) (schema : string)
    (tables : list string) :
  (calculate_tables_hash db schema tables = None
   ↔ ∃ t, t ∈ tables ∧ readable db schema t = false)
  ∧ ∀ h, calculate_tables_hash db schema tables = Some h →
         String.length h = 32 ∧ ∀ f st, when_hashed (Some h) f st = f h st.
Proof.
  split.
  - rewrite eq_None_not_Some, calculate_tables_hash_is_Some.
    split.
    + intros Hnot.
      destruct (decide (Exists (λ t, readable db schema t = false) tables))
        as [Hex|Hall].
      * apply Exists_exists in Hex as (t & Ht & Hf). by exists t.
      * exfalso. apply Hnot. intros t Ht. apply not_false_iff_true.
        intros Hf. apply Hall, Exists_exists. by exists t.
    + intros (t & Ht & Hf) Hall. rewrite Hall in Hf; done.
  - intros h Hh. unfold calculate_tables_hash in Hh.
    destruct (combined_data db schema tables) as [text|]; [|done].
    injection Hh as <-. split; [apply md5_length|]. intros f st.
    unfold when_hashed. rewrite decide_False; [done|].
    intros Hempty. pose proof (md5_length text) as Hlen.
    by rewrite Hempty in Hlen.
Qed.

(** X10: what [update_transformation_status] writes under a key is what
    [is_transformation_needed] reads back: with a ledger, the
    transformation is needed again unless the status written is
    [success] and the fingerprint asked for is the one written, and the
    answer under any other key is what it was; without a ledger the
    write is lost and every transformation is needed. *)
Theorem transformation_status_round_trip schema sources target_schema' target
    kind h n status' err st h' :
  let st' := update_transformation_status schema sources target_schema' target
               kind h n status' err st in
  is_transformation_needed st' schema target kind h'
  = match tracking st with
    | Some _ => negb (bool_decide (status' = "success") && bool_decide (h = h'))
    | None => true
    end
  ∧ ∀ schema2 target2 kind2,
      (schema2, target2, kind2) ≠ (schema, target, kind) →
      is_transformation_needed st' schema2 target2 kind2 h'
      = is_transformation_needed st schema2 target2 kind2 h'.
Proof.
  intros st'. subst st'.
  unfold is_transformation_needed, update_transformation_status.
  destruct (tracking st) as [ledger|] eqn:Hledger; simpl;
    [|by rewrite Hledger].
  split.
  - rewrite lookup_insert_eq. simpl. by case_match.
  - intros schema2 target2 kind2 Hne. by rewrite lookup_insert_ne.
Qed.

End TransformationLedgerFacts.

(** ** What [copy_table] leaves in the silver store *)

Section CopyFacts.
Context {py : PyLib} {pg : Postgres}.
Import BronzeToSilver Spec Terms.

Lemma when_hashed_Some (h : string) (f : string → state → state) (st : state) :
  h ≠ "" → when_hashed (Some h) f st = f h st.
Proof. intros Hh. unfold when_hashed. by rewrite decide_False. Qed.

Lemma update_transformation_status_tracking a b c d e h n s err st :
  tracking (update_transformation_status a b c d e h n s err st)
  = <[(a, d, e) := LedgerEntry (PyStr.join "," b) c h n s err]>
      <$> tracking st.
Proof.
  unfold update_transformation_status.
  destruct (tracking st) eqn:Hledger; simpl; by rewrite ?Hledger.
Qed.

Lemma up_to_date_tracking (st st' : state) schema target kind h :
  tracking st = tracking st' →
  up_to_date st schema target kind h = up_to_date st' schema target kind h.
Proof.
  intros Hsame. unfold up_to_date, is_transformation_needed.
  by rewrite Hsame.
Qed.

Lemma up_to_date_written (st : state) ledger schema target kind h srcs ts n err :
  h ≠ "" →
  tracking st
  = Some (<[(schema, target, kind) := LedgerEntry srcs ts h n "success" err]>
            ledger) →
  up_to_date st schema target kind (Some h) = true.
Proof.
  intros Hh Hledger. unfold up_to_date, is_transformation_needed.
  rewrite Hledger, lookup_insert_eq. cbn [status source_hash].
  rewrite (bool_decide_eq_false_2 (h = "")) by done.
  by rewrite !bool_decide_eq_true_2 by done.
Qed.

Lemma foldl_accepted (ok : row → bool) (batch target : list row) :
  foldl (λ tgt r, if ok r then tgt ++ [r] else tgt) target batch
  = target ++ List.filter ok batch.
Proof.
  revert target. induction batch as [|r batch IH]; intros target; simpl.
  - by rewrite app_nil_r.
  - rewrite IH. destruct (ok r); [|done]. by rewrite <- app_assoc.
Qed.

Lemma copy_batches_from schema tname (source : list row) :
  ∀ turns offset target,
    length source ≤ offset + turns * batch_size →
    copy_batches turns offset schema tname source target
    = target ++ List.filter (insert_ok schema tname) (drop offset source).
Proof.
  induction turns as [|turns IH]; intros offset target Hlen.
  - rewrite drop_ge by lia. simpl. by rewrite app_nil_r.
  - cbn [copy_batches].
    destruct (take batch_size (drop offset source)) as [|r batch] eqn:Hbatch.
    + assert (Hnil : drop offset source = []).
      { destruct (drop offset source); [done|discriminate Hbatch]. }
      rewrite Hnil. simpl. by rewrite app_nil_r.
    + rewrite <- Hbatch, foldl_accepted, IH by (unfold batch_size in *; lia).
      rewrite <- app_assoc, <- List.filter_app, <- drop_drop.
      by rewrite take_drop.
Qed.

Lemma copy_batches_accepted schema tname (source : list row) :
  copy_batches (S (length source)) 0 schema tname source []
  = List.filter (insert_ok schema tname) source.
Proof.
  rewrite copy_batches_from by (unfold batch_size; lia). done.
Qed.

Lemma copy_table_skips (st : state) (schema tname : string) :
  up_to_date st schema tname "copy"
    (calculate_tables_hash (bronze st) schema [tname]) = true →
  copy_table schema tname st = st.
Proof.
  intros Hup. unfold copy_table. case_match; [done|]. by rewrite Hup.
Qed.

Lemma copy_table_performed (st : state) (schema tname h : string) (tb : table) :
  readable (bronze st) schema tname = true →
  bronze st !! (schema, tname) = Some tb →
  columns tb ≠ [] → NoDup (columns tb).*1 →
  calculate_tables_hash (bronze st) schema [tname] = Some h →
  up_to_date st schema tname "copy" (Some h) = false →
  copy_table schema tname st
  = update_transformation_status schema [tname] schema tname "copy" h
      (length (copied_rows schema tname tb)) "success" None
      (create_table schema tname
         (Table (columns tb) (copied_rows schema tname tb))
         (drop_table schema tname
            (update_transformation_status schema [tname] schema tname "copy"
               h 0 "in_progress" None st))).
Proof.
  intros Hread Htb Hcols Hnd Hh Hup.
  assert (Hne : h ≠ "") by by eapply calculate_tables_hash_nonempty.
  unfold copy_table. rewrite Hread, Hh, Hup. simpl negb. cbv iota zeta.
  rewrite !when_hashed_Some by done.
  rewrite update_transformation_status_bronze.
  unfold get_table_columns, source_rows. simpl bronze.
  rewrite update_transformation_status_bronze, Htb.
  destruct (columns tb) as [|c cols] eqn:Hc; [done|].
  rewrite bool_decide_eq_true_2 by done.
  unfold copied_rows. rewrite copy_batches_accepted. done.
Qed.

(** X11: a readable bronze table that has columns and is not recorded
    as copied with its present fingerprint is copied under the same name
    and with the same columns; the silver table holds every row of the
    bronze table, in order, when the bulk transfer succeeds (the table
    is then cloned), and otherwise the rows that the store accepts one
    by one.  No other silver table changes, the bronze store is left as
    it was, and the ledger, when there is one, records [success] with
    the fingerprint and the number of rows copied. *)
Theorem copy_table_clones (st : state) (schema tname : string) (tb : table) :
  readable (bronze st) schema tname = true →
  bronze st !! (schema, tname) = Some tb →
  columns tb ≠ [] → NoDup (columns tb).*1 →
  ¬ recorded_success st schema tname "copy"
      (calculate_tables_hash (bronze st) schema [tname]) →
  let st' := copy_table schema tname st in
  let copied :=
    if dblink_ok schema tname then rows tb
    else List.filter (insert_ok schema tname) (rows tb) in
  silver st' !! (schema, tname) = Some (Table (columns tb) copied)
  ∧ (dblink_ok schema tname = true → silver st' !! (schema, tname) = Some tb)
  ∧ (∀ k, k ≠ (schema, tname) → silver st' !! k = silver st !! k)
  ∧ bronze st' = bronze st
  ∧ ∃ h, calculate_tables_hash (bronze st) schema [tname] = Some h
         ∧ tracking st'
           = <[(schema, tname, "copy") :=
                 LedgerEntry tname schema h (length copied) "success" None]>
               <$> tracking st.
Proof.
  intros Hread Htb Hcols Hnd Hnot st' copied.
  destruct (proj2 (calculate_tables_hash_is_Some (bronze st) schema [tname]))
    as [h Hh].
  { intros t ->%list_elem_of_singleton. done. }
  assert (Hne : h ≠ "") by by eapply calculate_tables_hash_nonempty.
  assert (Hup : up_to_date st schema tname "copy" (Some h) = false).
  { apply not_true_is_false. intros Hup. apply Hnot. rewrite Hh.
    apply up_to_date_recorded; [|done]. by intros ? [= <-]. }
  subst st'. rewrite (copy_table_performed st schema tname h tb) by done.
  fold (copied_rows schema tname tb). change (copied_rows schema tname tb)
    with copied.
  rewrite update_transformation_status_silver,
    update_transformation_status_bronze,
    update_transformation_status_tracking.
  simpl. rewrite update_transformation_status_silver,
    update_transformation_status_bronze,
    update_transformation_status_tracking.
  split_and!.
  - by rewrite lookup_insert_eq.
  - intros Hlink. rewrite lookup_insert_eq. subst copied. rewrite Hlink.
    by destruct tb.
  - intros k Hk. by rewrite lookup_insert_ne, lookup_delete_ne.
  - done.
  - exists h. split; [done|].
    destruct (tracking st) as [ledger|]; simpl; [|done].
    by rewrite insert_insert_eq.
Qed.

(** X12: with a ledger, running the copy of a table twice in a row is
    running it once: the second run finds the first one recorded and
    changes nothing, whether the first run copied the table, skipped
    it, could not read it or found no column in it. *)
Theorem copy_table_idempotent (st : state) (schema tname : string) :
  is_Some (tracking st) →
  NoDup (get_table_columns (bronze st) schema tname).*1 →
  copy_table schema tname (copy_table schema tname st)
  = copy_table schema tname st.
Proof.
  intros [ledger Hledger] Hnd.
  destruct (readable (bronze st) schema tname) eqn:Hread; cycle 1.
  { assert (Hst : copy_table schema tname st = st).
    { unfold copy_table. by rewrite Hread. }
    by rewrite !Hst. }
  destruct (proj2 (calculate_tables_hash_is_Some (bronze st) schema [tname]))
    as [h Hh].
  { intros t ->%list_elem_of_singleton. done. }
  assert (Hne : h ≠ "") by by eapply calculate_tables_hash_nonempty.
  destruct (up_to_date st schema tname "copy" (Some h)) eqn:Hup.
  { assert (Hst : copy_table schema tname st = st).
    { apply copy_table_skips. by rewrite Hh. }
    by rewrite !Hst. }
  assert (Hsome : is_Some (bronze st !! (schema, tname))).
  { unfold readable in Hread. apply andb_true_iff in Hread as [_ Hsome].
    by apply bool_decide_eq_true in Hsome. }
  destruct Hsome as [tb Htb].
  assert (Hcols : get_table_columns (bronze st) schema tname = columns tb).
  { unfold get_table_columns. by rewrite Htb. }
  rewrite Hcols in Hnd.
  destruct (decide (columns tb = [])) as [Hempty|Hfull].
  - set (st1 := update_transformation_status schema [tname] schema tname
                  "copy" h 0 "in_progress" None st).
    assert (Hrun : ∀ s, bronze s = bronze st →
              up_to_date s schema tname "copy" (Some h) = false →
              copy_table schema tname s
              = update_transformation_status schema [tname] schema tname
                  "copy" h 0 "in_progress" None s).
    { intros s Hb Hups. unfold copy_table. rewrite Hb, Hread, Hh, Hups.
      simpl negb. cbv iota zeta. rewrite when_hashed_Some by done.
      rewrite update_transformation_status_bronze, Hb, Hcols, Hempty. done. }
    rewrite (Hrun st) by done. fold st1.
    assert (Htr : tracking st1
                  = Some (<[(schema, tname, "copy") :=
                              LedgerEntry tname schema h 0 "in_progress" None]>
                            ledger)).
    { unfold st1. by rewrite update_transformation_status_tracking, Hledger. }
    rewrite Hrun.
    + unfold update_transformation_status at 1. rewrite Htr.
      rewrite insert_insert_eq. simpl PyStr.join.
      destruct st1 as [b s t j]. simpl in *. by rewrite Htr.
    + apply update_transformation_status_bronze.
    + unfold up_to_date, is_transformation_needed.
      rewrite Htr, lookup_insert_eq. cbn [status source_hash].
      rewrite (bool_decide_eq_false_2 ("in_progress" = "success")) by done.
      simpl. by rewrite ?andb_true_r, ?bool_decide_eq_false_2.
  - rewrite (copy_table_performed st schema tname h tb) by done.
    apply copy_table_skips.
    rewrite update_transformation_status_bronze. simpl bronze.
    rewrite update_transformation_status_bronze, Hh.
    eapply up_to_date_written; [done|].
    rewrite update_transformation_status_tracking. simpl tracking.
    rewrite update_transformation_status_tracking, Hledger. simpl.
    by rewrite insert_insert_eq.
Qed.

End CopyFacts.

Section CopyExamples.
Import BronzeToSilver Spec Terms Sample.

Lemma copy_table_clones_witness :
  let st := first_run spells_db in
  let st' := copy_table "spells" "spells_phb" st in
  readable (bronze st) "spells" "spells_phb" = true
  ∧ bronze st !! ("spells", "spells_phb") = Some spells_phb
  ∧ silver st' !! ("spells", "spells_phb") = Some spells_phb
  ∧ (∀ k, k ≠ ("spells", "spells_phb") → silver st' !! k = silver st !! k)
  ∧ bronze st' = bronze st.
Proof.
  intros st st'.
  assert (Hread : readable (bronze st) "spells" "spells_phb" = true)
    by (vm_compute; reflexivity).
  assert (Htb : bronze st !! ("spells", "spells_phb") = Some spells_phb)
    by (vm_compute; reflexivity).
  assert (Hcols : columns spells_phb ≠ []) by done.
  assert (Hnd : NoDup (columns spells_phb).*1) by by_computation.
  assert (Hnot : ¬ recorded_success st "spells" "spells_phb" "copy"
                     (calculate_tables_hash (bronze st) "spells"
                        ["spells_phb"])).
  { intros (e & hash & _ & Hl & _). vm_compute in Hl. discriminate Hl. }
  pose proof (copy_table_clones st "spells" "spells_phb" spells_phb) as Hthm.
  cbv zeta in Hthm. specialize (Hthm Hread). specialize (Hthm Htb).
  specialize (Hthm Hcols). specialize (Hthm Hnd). specialize (Hthm Hnot).
  destruct Hthm as (_ & Hclone & Hframe & Hbronze & _).
  split; [exact Hread|]. split; [exact Htb|].
  split; [apply Hclone; reflexivity|]. split; [exact Hframe|exact Hbronze].
Defined.

Lemma copy_table_idempotent_witness :
  let st := first_run spells_db in
  is_Some (tracking st)
  ∧ copy_table "spells" "spells_phb" (copy_table "spells" "spells_phb" st)
    = copy_table "spells" "spells_phb" st.
Proof.
  intros st.
  assert (Hledger : is_Some (tracking st)) by by eexists.
  assert (Hnd : NoDup (get_table_columns (bronze st) "spells" "spells_phb").*1)
    by by_computation.
  split; [exact Hledger|].
  exact (copy_table_idempotent st "spells" "spells_phb" Hledger Hnd).
Defined.

End CopyExamples.

(** ** The columns of a fusion table *)

Section CollectFacts.
Context {py : PyLib} {pg : Postgres}.
Import BronzeToSilver Spec Terms.

Lemma met_is_Some (types : list string) (acc : option string) :
  is_Some (met acc types) ↔ is_Some acc ∨ types ≠ [].
Proof.
  revert acc. induction types as [|ty types IH]; intros acc; simpl.
  - naive_solver.
  - unfold met in *. simpl. rewrite IH. split; [intros _; by right|].
    intros _. left. by eexists.
Qed.

Lemma seen_nonempty (col : string) (cols : list (string * string)) :
  seen col cols ≠ [] ↔ col ∈ cols.*1.
Proof.
  split.
  - intros Hseen. destruct (decide (col ∈ cols.*1)) as [|Hnot]; [done|].
    by apply seen_absent in Hnot.
  - intros Hin Hnil. apply list_elem_of_fmap in Hin as ([name ty] & -> & Hin).
    assert (Hty : ty ∈ seen name cols).
    { unfold seen. apply list_elem_of_fmap. exists (name, ty).
      split; [done|]. by apply list_elem_of_filter. }
    simpl in Hnil. rewrite Hnil in Hty. by apply elem_of_nil in Hty.
Qed.

Lemma seen_in_nonempty (db : store) (schema col : string)
    (tables : list string) :
  seen_in db schema col tables ≠ []
  ↔ ∃ t, t ∈ tables ∧ col ∈ (get_table_columns db schema t).*1.
Proof.
  unfold seen_in. split.
  - intros Hseen.
    destruct (tables ≫= λ t, seen col (get_table_columns db schema t))
      as [|ty tys] eqn:Hbind; [done|].
    assert (Hty : ty ∈ tables ≫= λ t, seen col (get_table_columns db schema t))
      by (rewrite Hbind; left).
    apply list_elem_of_bind in Hty as (t & Hty & Ht).
    exists t. split; [done|]. apply seen_nonempty. intros Hnil.
    rewrite Hnil in Hty. by apply elem_of_nil in Hty.
  - intros (t & Ht & Hcol) Hnil. apply seen_nonempty in Hcol.
    destruct (seen col (get_table_columns db schema t)) as [|ty tys] eqn:Hs;
      [done|].
    assert (Hty : ty ∈ tables ≫= λ t, seen col (get_table_columns db schema t)).
    { apply list_elem_of_bind. exists t. rewrite Hs. split; [left|done]. }
    rewrite Hnil in Hty. by apply elem_of_nil in Hty.
Qed.

Lemma collect_is_Some (db : store) (schema col : string)
    (tables : list string) :
  is_Some (collect_all_columns_from_tables db schema tables !! col)
  ↔ col ≠ "id" ∧ ∃ t, t ∈ tables ∧ col ∈ (get_table_columns db schema t).*1.
Proof.
  destruct (decide (col = "id")) as [->|Hid].
  - rewrite collect_lookup_id. split; [by intros [? ?]|by intros [? _]].
  - rewrite collect_lookup, met_is_Some, seen_in_nonempty by done.
    split; [intros [[? ?]|?]; done|intros [_ ?]; by right].
Qed.

(** X13: the columns collected for a fusion are the columns of the
    given tables, [id] apart: a name is collected exactly when some
    table has a column of that name.  A column that occurs once among
    the tables keeps its type as it is written in the catalogue. *)
Theorem collect_all_columns_domain (db : store) (schema : string)
    (tables : list string) (col : string) :
  (col ∈ dom (collect_all_columns_from_tables db schema tables)
   ↔ col ≠ "id"
     ∧ ∃ t, t ∈ tables ∧ col ∈ (get_table_columns db schema t).*1)
  ∧ ∀ ty, col ≠ "id" → seen_in db schema col tables = [ty] →
          collect_all_columns_from_tables db schema tables !! col = Some ty.
Proof.
  split.
  - rewrite elem_of_dom. apply collect_is_Some.
  - intros ty Hid Hseen. by rewrite collect_lookup, Hseen.
Qed.

End CollectFacts.

(** ** What [create_fusion_table] leaves in the silver store *)

Section FusionContents.
Context {py : PyLib} {pg : Postgres}.
Import BronzeToSilver Spec Terms.

Lemma numbered_cons (start : nat) (r : row) (rs : list row) :
  numbered start (r :: rs)
  = <["id" := JInt (Z.of_nat (S start))]> r :: numbered (S start) rs.
Proof.
  unfold numbered. rewrite imap_cons, Nat.add_0_r. f_equal.
  apply imap_ext. intros i x _. simpl. by rewrite Nat.add_succ_r.
Qed.









(** What [create_fusion_table] does once it is past the ledger and has
    readable sources with columns. *)
Lemma create_fusion_table_performed (st : state)
    (schema table_prefix target : string) :
  let tables := prefix_tables (bronze st) schema table_prefix in
  let sources := existing_tables (bronze st) schema table_prefix in
  let all_columns :=
    collect_all_columns_from_tables (bronze st) schema sources in
  let h := calculate_tables_hash (bronze st) schema tables in
  sources ≠ [] → all_columns ≠ ∅ →
  up_to_date st schema target "fusion" h = false →
  create_fusion_table schema table_prefix target st
  = let st :=
      drop_table schema target
        (when_hashed h
           (λ h, update_transformation_status schema tables schema target
                   "fusion" h 0 "in_progress" None) st) in
    if bool_decide (NoDup (fusion_columns all_columns).*1) then
      let fusion :=
        foldl (fuse_table (bronze st) schema all_columns)
              (Table (fusion_columns all_columns) []) sources in
      when_hashed h
        (λ h, update_transformation_status schema tables schema target
                "fusion" h (length (rows fusion)) "success" None)
        (create_table schema target fusion st)
    else
      when_hashed h
        (λ h, update_transformation_status schema tables schema target
                "fusion" h 0 "error"
                (Some "CREATE TABLE: column specified more than once"))
        st.
Proof.
  intros tables sources all_columns h Hsources Hcolumns Hup.
  unfold create_fusion_table.
  change (List.filter (λ t, PyStr.startswith t table_prefix)
            (list_tables (bronze st) schema)) with tables.
  destruct tables as [|p ps] eqn:Hp.
  { exfalso. apply Hsources. unfold sources, existing_tables.
    fold tables. by rewrite Hp. }
  fold h. rewrite Hup, when_hashed_bronze.
  assert (Hex : List.filter (readable (bronze st) schema) (p :: ps) = sources).
  { unfold sources, existing_tables. fold tables. by rewrite Hp. }
  rewrite Hex.
  destruct sources as [|s0 ss] eqn:Hs; [done|]. fold all_columns.
  rewrite decide_False by done. done.
Qed.


Lemma create_fusion_table_skips (st : state)
    (schema table_prefix target : string) :
  up_to_date st schema target "fusion"
    (calculate_tables_hash (bronze st) schema
       (prefix_tables (bronze st) schema table_prefix)) = true →
  create_fusion_table schema table_prefix target st = st.
Proof.
  intros Hup. unfold create_fusion_table.
  change (List.filter (λ t, PyStr.startswith t table_prefix)
            (list_tables (bronze st) schema))
    with (prefix_tables (bronze st) schema table_prefix).
  destruct (prefix_tables (bronze st) schema table_prefix); [done|].
  by rewrite Hup.
Qed.

(** What [create_fusion_table] does when its readable sources have no
    column besides [id]. *)
Lemma create_fusion_table_no_columns (st : state)
    (schema table_prefix target : string) :
  let tables := prefix_tables (bronze st) schema table_prefix in
  let sources := existing_tables (bronze st) schema table_prefix in
  let h := calculate_tables_hash (bronze st) schema tables in
  sources ≠ [] →
  collect_all_columns_from_tables (bronze st) schema sources = ∅ →
  up_to_date st schema target "fusion" h = false →
  create_fusion_table schema table_prefix target st
  = when_hashed h
      (λ h, update_transformation_status schema tables schema target
              "fusion" h 0 "in_progress" None) st.
Proof.
  intros tables sources h Hsources Hcolumns Hup.
  unfold create_fusion_table.
  change (List.filter (λ t, PyStr.startswith t table_prefix)
            (list_tables (bronze st) schema)) with tables.
  destruct tables as [|p ps] eqn:Hp.
  { exfalso. apply Hsources. unfold sources, existing_tables.
    fold tables. by rewrite Hp. }
  fold h. rewrite Hup, when_hashed_bronze.
  assert (Hex : List.filter (readable (bronze st) schema) (p :: ps) = sources).
  { unfold sources, existing_tables. fold tables. by rewrite Hp. }
  rewrite Hex.
  destruct sources as [|s0 ss] eqn:Hs; [done|].
  by rewrite Hcolumns, decide_True.
Qed.

Lemma filter_all (A : Type) (p : A → bool) (l : list A) :
  (∀ x, x ∈ l → p x = true) → List.filter p l = l.
Proof.
  induction l as [|x l IH]; intros Hall; simpl; [done|].
  rewrite (Hall x) by left. rewrite IH; [done|].
  intros y Hy. apply Hall. by right.
Qed.

(** X15: with a ledger and prefix tables that can all be read, running
    a fusion twice in a row is running it once: the second run finds
    the first one recorded and changes nothing. *)
Theorem create_fusion_table_idempotent (st : state)
    (schema table_prefix target : string) :
  let tables := prefix_tables (bronze st) schema table_prefix in
  is_Some (tracking st) →
  (∀ t, t ∈ tables → readable (bronze st) schema t = true) →
  NoDup (fusion_columns
           (collect_all_columns_from_tables (bronze st) schema tables)).*1 →
  create_fusion_table schema table_prefix target
    (create_fusion_table schema table_prefix target st)
  = create_fusion_table schema table_prefix target st.
Proof.
  intros tables [ledger Hledger] Hread Hnd.
  assert (Hsources : existing_tables (bronze st) schema table_prefix = tables).
  { unfold existing_tables. by apply filter_all. }
  destruct (decide (tables = [])) as [Hnone|Hsome].
  { assert (Hst : create_fusion_table schema table_prefix target st = st).
    { unfold create_fusion_table.
      change (List.filter (λ t, PyStr.startswith t table_prefix)
                (list_tables (bronze st) schema)) with tables.
      by rewrite Hnone. }
    by rewrite !Hst. }
  destruct (proj2 (calculate_tables_hash_is_Some (bronze st) schema tables))
    as [h Hh]; [done|].
  assert (Hne : h ≠ "") by by eapply calculate_tables_hash_nonempty.
  destruct (up_to_date st schema target "fusion" (Some h)) eqn:Hup.
  { assert (Hst : create_fusion_table schema table_prefix target st = st).
    { apply create_fusion_table_skips. fold tables. by rewrite Hh. }
    by rewrite !Hst. }
  destruct (decide (collect_all_columns_from_tables (bronze st) schema tables
                    = ∅)) as [Hempty|Hfull].
  - set (st1 := update_transformation_status schema tables schema target
                  "fusion" h 0 "in_progress" None st).
    assert (Hrun : ∀ s, bronze s = bronze st →
              up_to_date s schema target "fusion" (Some h) = false →
              create_fusion_table schema table_prefix target s
              = update_transformation_status schema tables schema target
                  "fusion" h 0 "in_progress" None s).
    { intros s Hb Hups.
      rewrite create_fusion_table_no_columns; rewrite Hb; fold tables;
        rewrite ?Hsources, ?Hh; try done.
      by rewrite when_hashed_Some. }
    rewrite (Hrun st) by done. fold st1.
    assert (Htr : tracking st1
                  = Some (<[(schema, target, "fusion") :=
                              LedgerEntry (PyStr.join "," tables) schema h 0
                                "in_progress" None]> ledger)).
    { unfold st1. by rewrite update_transformation_status_tracking, Hledger. }
    rewrite Hrun.
    + unfold update_transformation_status at 1. rewrite Htr.
      rewrite insert_insert_eq.
      destruct st1 as [b s t j]. simpl in *. by rewrite Htr.
    + apply update_transformation_status_bronze.
    + unfold up_to_date, is_transformation_needed.
      rewrite Htr, lookup_insert_eq. cbn [status source_hash].
      rewrite (bool_decide_eq_false_2 ("in_progress" = "success")) by done.
      simpl. by rewrite ?andb_true_r, ?bool_decide_eq_false_2.
  - rewrite (create_fusion_table_performed st schema table_prefix target);
      fold tables; rewrite ?Hsources, ?Hh; try done.
    cbv zeta. rewrite bool_decide_eq_true_2 by done.
    rewrite !when_hashed_Some by done.
    apply create_fusion_table_skips.
    rewrite update_transformation_status_bronze. simpl bronze.
    rewrite update_transformation_status_bronze. fold tables. rewrite Hh.
    eapply up_to_date_written; [done|].
    rewrite update_transformation_status_tracking. simpl tracking.
    rewrite update_transformation_status_tracking, Hledger. simpl.
    by rewrite insert_insert_eq.
Qed.



End FusionContents.

Section FusionContentsExamples.
Import BronzeToSilver Spec Terms Sample.


Lemma create_fusion_table_idempotent_witness :
  let st := first_run spells_db in
  is_Some (tracking st)
  ∧ create_fusion_table "spells" "spells_" "fusion_spells"
      (create_fusion_table "spells" "spells_" "fusion_spells" st)
    = create_fusion_table "spells" "spells_" "fusion_spells" st.
Proof.
  intros st.
  assert (Hledger : is_Some (tracking st)) by by eexists.
  assert (Hread : ∀ t, t ∈ prefix_tables (bronze st) "spells" "spells_" →
                       readable (bronze st) "spells" t = true).
  { assert (Hall : forallb (readable (bronze st) "spells")
                     (prefix_tables (bronze st) "spells" "spells_") = true)
      by (vm_compute; reflexivity).
    intros t Ht%list_elem_of_In.
    exact (proj1 (forallb_forall _ _) Hall t Ht). }
  assert (Hnd : NoDup (fusion_columns
                         (collect_all_columns_from_tables (bronze st) "spells"
                            (prefix_tables (bronze st) "spells" "spells_"))).*1)
    by by_computation.
  split; [exact Hledger|].
  exact (create_fusion_table_idempotent st "spells" "spells_" "fusion_spells"
           Hledger Hread Hnd).
Defined.



End FusionContentsExamples.

(** ** The ledger as the gate of the transformations *)

Section GateFacts.
Context {py : PyLib} {pg : Postgres}.
Import BronzeToSilver Spec Terms.




End GateFacts.

Section GateExamples.
Import BronzeToSilver Spec Terms Sample.


End GateExamples.

(** ** What a run of the transformation can touch *)

Section FootprintFacts.
Context {py : PyLib} {pg : Postgres}.
Import BronzeToSilver Spec Terms.

Lemma filter_partition (A : Type) (p q : A → bool) (l : list A) :
  List.filter p l
  ++ List.filter (λ x, negb (p x) && q x) l
  ++ List.filter (λ x, negb (p x) && negb (q x)) l ≡ₚ l.
Proof.
  induction l as [|x l IH]; simpl; [done|].
  destruct (p x), (q x); simpl.
  - by rewrite IH.
  - by rewrite IH.
  - rewrite <- Permutation_middle. by rewrite IH.
  - rewrite app_assoc, <- Permutation_middle, <- app_assoc. by rewrite IH.
Qed.

(** X18: [get_all_tables] puts every table of the schema in exactly one
    of its three groups: the tables named after the schema, the fluff
    tables of the schema among the others, and the rest; so that
    [process_schema] hands each table to one fusion or to the copy, and
    to one only. *)
Theorem get_all_tables_partition (db : store) (schema : string) :
  let groups := get_all_tables db schema in
  groups.1.1 ++ groups.1.2 ++ groups.2 ≡ₚ list_tables db schema
  ∧ NoDup (groups.1.1 ++ groups.1.2 ++ groups.2)
  ∧ (∀ t, t ∈ groups.1.1 → PyStr.startswith t (schema +:+ "_") = true)
  ∧ (∀ t, t ∈ groups.1.2 →
          PyStr.startswith t ("fluff_" +:+ schema +:+ "_") = true)
  ∧ (∀ t, t ∈ groups.2 →
          PyStr.startswith t (schema +:+ "_") = false
          ∧ PyStr.startswith t ("fluff_" +:+ schema +:+ "_") = false).
Proof.
  intros groups.
  assert (Hperm : groups.1.1 ++ groups.1.2 ++ groups.2 ≡ₚ list_tables db schema)
    by apply filter_partition.
  split_and!.
  - done.
  - rewrite Hperm. apply list_tables_NoDup.
  - intros t [_ Ht]%list_elem_of_In%filter_In. done.
  - intros t [_ Ht]%list_elem_of_In%filter_In.
    by apply andb_true_iff in Ht as [_ Ht].
  - intros t [_ Ht]%list_elem_of_In%filter_In.
    apply andb_true_iff in Ht as [H1 H2].
    by apply negb_true_iff in H1, H2.
Qed.

Lemma copy_table_frame (schema tname : string) (st : state) :
  bronze (copy_table schema tname st) = bronze st
  ∧ ∀ k, k ≠ (schema, tname) →
         silver (copy_table schema tname st) !! k = silver st !! k.
Proof.
  unfold copy_table.
  destruct (negb (readable (bronze st) schema tname)); [done|].
  destruct (up_to_date st schema tname "copy" _); [done|].
  cbv zeta. rewrite when_hashed_bronze.
  destruct (get_table_columns (bronze st) schema tname) as [|c cols].
  { by rewrite when_hashed_bronze, when_hashed_silver. }
  destruct (bool_decide (NoDup (c :: cols).*1));
    rewrite when_hashed_bronze, when_hashed_silver; simpl;
    rewrite when_hashed_bronze, when_hashed_silver;
    (split; [done|]); intros k Hk;
    by rewrite ?lookup_insert_ne, ?lookup_delete_ne by done.
Qed.

Lemma create_fusion_table_frame (schema table_prefix target : string)
    (st : state) :
  bronze (create_fusion_table schema table_prefix target st) = bronze st
  ∧ ∀ k, k ≠ (schema, target) →
         silver (create_fusion_table schema table_prefix target st) !! k
         = silver st !! k.
Proof.
  unfold create_fusion_table.
  destruct (List.filter (λ t, PyStr.startswith t table_prefix)
              (list_tables (bronze st) schema)) as [|p ps]; [done|].
  destruct (up_to_date st schema target "fusion" _); [done|].
  cbv zeta. rewrite when_hashed_bronze.
  destruct (List.filter (readable (bronze st) schema) (p :: ps)) as [|s0 ss].
  { by rewrite when_hashed_bronze, when_hashed_silver. }
  destruct (decide (collect_all_columns_from_tables (bronze st) schema
                      (s0 :: ss) = ∅)).
  { by rewrite when_hashed_bronze, when_hashed_silver. }
  destruct (bool_decide (NoDup (fusion_columns _).*1));
    rewrite when_hashed_bronze, when_hashed_silver; simpl;
    rewrite when_hashed_bronze, when_hashed_silver;
    (split; [done|]); intros k Hk;
    by rewrite ?lookup_insert_ne, ?lookup_delete_ne by done.
Qed.

Lemma foldl_copy_table_frame (schema : string) (tables : list string) :
  ∀ st,
    bronze (foldl (λ st t, copy_table schema t st) st tables) = bronze st
    ∧ ∀ k, k.1 ≠ schema →
           silver (foldl (λ st t, copy_table schema t st) st tables) !! k
           = silver st !! k.
Proof.
  induction tables as [|t tables IH]; intros st; simpl; [done|].
  destruct (IH (copy_table schema t st)) as [Hb Hs].
  destruct (copy_table_frame schema t st) as [Hb1 Hs1].
  split; [by rewrite Hb|]. intros k Hk. rewrite Hs by done.
  apply Hs1. intros ->. done.
Qed.

Lemma process_schema_frame (schema : string) (st : state) :
  bronze (process_schema schema st) = bronze st
  ∧ ∀ k, k.1 ≠ schema →
         silver (process_schema schema st) !! k = silver st !! k.
Proof.
  unfold process_schema.
  destruct (get_all_tables (bronze st) schema)
    as [[schema_tables fluff_tables] other_tables].
  set (st1 := match schema_tables with [] => st | _ => _ end).
  set (st2 := match fluff_tables with [] => st1 | _ => _ end).
  assert (H1 : bronze st1 = bronze st
               ∧ ∀ k, k.1 ≠ schema → silver st1 !! k = silver st !! k).
  { unfold st1. destruct schema_tables; [done|].
    destruct (bool_decide (schema ∈ named_schemas)).
    - destruct (create_fusion_table_frame schema (schema +:+ "_")
                  (if decide (schema = "bestiary") then "fusion_monsters"
                   else "fusion_" +:+ schema) st) as [Hb Hs].
      split; [done|]. intros k Hk. apply Hs. by intros ->.
    - destruct (create_fusion_table_frame schema (schema +:+ "_")
                  ("fusion_" +:+ schema) st) as [Hb Hs].
      split; [done|]. intros k Hk. apply Hs. by intros ->. }
  assert (H2 : bronze st2 = bronze st
               ∧ ∀ k, k.1 ≠ schema → silver st2 !! k = silver st !! k).
  { unfold st2. destruct fluff_tables; [done|].
    destruct (create_fusion_table_frame schema ("fluff_" +:+ schema +:+ "_")
                ("fusion_fluff_" +:+ schema) st1) as [Hb Hs].
    destruct H1 as [Hb1 Hs1]. split; [by rewrite Hb|].
    intros k Hk. rewrite Hs by by intros ->. by apply Hs1. }
  destruct (foldl_copy_table_frame schema other_tables st2) as [Hb Hs].
  destruct H2 as [Hb2 Hs2]. split; [by rewrite Hb|].
  intros k Hk. rewrite Hs by done. by apply Hs2.
Qed.

Lemma foldl_schemas_frame (schemas : list string) :
  ∀ st,
    let run := λ st schema,
      if decide (schema = "main")
      then foldl (λ st t, copy_table "main" t st) st
                 (list_tables (bronze st) "main")
      else process_schema schema st in
    bronze (foldl run st schemas) = bronze st
    ∧ ∀ k, k.1 ∉ schemas →
           silver (foldl run st schemas) !! k = silver st !! k.
Proof.
  induction schemas as [|schema schemas IH]; intros st run; simpl; [done|].
  destruct (IH (run st schema)) as [Hb Hs]. fold run in Hb, Hs.
  assert (Hstep : bronze (run st schema) = bronze st
                  ∧ ∀ k, k.1 ≠ schema →
                         silver (run st schema) !! k = silver st !! k).
  { unfold run. case_decide as Hmain.
    - subst schema. apply foldl_copy_table_frame.
    - apply process_schema_frame. }
  destruct Hstep as [Hb1 Hs1]. split; [by rewrite Hb|].
  intros k Hk. apply not_elem_of_cons in Hk as [Hk1 Hk2].
  rewrite Hs by done. by apply Hs1.
Qed.

(** X19: a run of the transformation never changes the bronze store.
    In the silver store, apart from its own ledger table
    [public.transformation_tracking], which it creates and writes, it
    changes no table of the schemas [pg_catalog], [information_schema]
    and [public], nor of any schema that neither holds a bronze table
    nor is one of the default schemas. *)
Theorem main_footprint (st : state) :
  let st' := (main st).2 in
  bronze st' = bronze st
  ∧ (∀ k, k.1 ∈ system_schemas → k ≠ transformation_ledger_table →
          silver st' !! k = silver st !! k)
  ∧ (∀ k, k.1 ∉ list_schemas (bronze st) → k.1 ∉ default_schemas →
          k ≠ transformation_ledger_table →
          silver st' !! k = silver st !! k).
Proof.
  intros st'. subst st'. unfold main.
  destruct (negb (bronze_up && silver_up)); [done|]. cbn [snd].
  set (found := List.filter (λ s, negb (bool_decide (s ∈ system_schemas)))
                            (list_schemas (bronze st))).
  set (schemas := match found with [] => default_schemas | _ => found end).
  destruct (foldl_schemas_frame schemas st) as [Hb Hs]. cbv zeta in Hb, Hs.
  assert (Hschemas : ∀ s, s ∈ schemas →
            s ∉ system_schemas
            ∧ (s ∈ list_schemas (bronze st) ∨ s ∈ default_schemas)).
  { intros s Hin. unfold schemas in Hin.
    assert (Hfound : s ∈ found → s ∉ system_schemas
                                 ∧ s ∈ list_schemas (bronze st)).
    { intros [Hl Hsys]%list_elem_of_In%filter_In.
      apply negb_true_iff, bool_decide_eq_false in Hsys.
      by apply list_elem_of_In in Hl. }
    destruct found as [|f fs].
    - split; [|by right].
      assert (Hdefault : Forall (λ s, s ∉ system_schemas) default_schemas)
        by by_computation.
      by apply (proj1 (Forall_forall _ _) Hdefault).
    - destruct (Hfound Hin). split; [done|by left]. }
  split_and!.
  - done.
  - intros k Hk _. apply Hs. intros Hin. by apply Hschemas in Hin as [? _].
  - intros k Hk1 Hk2 _. apply Hs. intros Hin.
    apply Hschemas in Hin as [_ [?|?]]; done.
Qed.

End FootprintFacts.

(** ** The retry loops *)

Section ConnectionFacts.
Import Connection.

Lemma wait_loop_spec (body_ok : nat → bool) (limit interval : nat) :
  ∀ left attempt slept,
    attempt + left = limit →
    let result := wait_loop body_ok limit interval left attempt slept in
    match result.1 with
    | Some i =>
        attempt ≤ i < limit ∧ body_ok i = true
        ∧ (∀ j, attempt ≤ j < i → body_ok j = false)
        ∧ result.2 = slept + interval * (i - attempt)
    | None =>
        (∀ j, attempt ≤ j < limit → body_ok j = false)
        ∧ result.2 = slept + interval * (left - 1)
    end.
Proof.
  induction left as [|left IH]; intros attempt slept Hsum; simpl.
  - split; [intros j Hj; lia|lia].
  - destruct (body_ok attempt) eqn:Hok; simpl.
    + split_and!; [lia|lia|done|intros j Hj; lia|lia].
    + specialize (IH (S attempt)
                    (if attempt <? limit - 1 then slept + interval else slept)).
      cbv zeta in IH.
      destruct (wait_loop body_ok limit interval left (S attempt) _)
        as [[i|] total]; simpl in *.
      * destruct IH as (Hi & Hoki & Hbefore & Htotal); [lia|].
        split_and!; [lia|lia|done| |].
        -- intros j Hj. destruct (decide (j = attempt)) as [->|Hne]; [done|].
           apply Hbefore. lia.
        -- rewrite Htotal. rewrite (proj2 (Nat.ltb_lt _ _)) by lia. nia.
      * destruct IH as (Hnone & Htotal); [lia|]. split.
        -- intros j Hj. destruct (decide (j = attempt)) as [->|Hne]; [done|].
           apply Hnone. lia.
        -- rewrite Htotal. destruct left as [|left'].
           ++ rewrite (proj2 (Nat.ltb_ge _ _)) by lia. simpl. lia.
           ++ rewrite (proj2 (Nat.ltb_lt _ _)) by lia. simpl. nia.
Qed.

(** X20: [wait_for_database] returns the connection of the first
    attempt whose body succeeds, if there is one among the
    [max_attempts] attempts, after one pause of [retry_interval]
    seconds for each failed attempt before it; otherwise it raises
    after [max_attempts - 1] pauses, the last failure being followed by
    none.  With the default arguments it never sleeps more than 145
    seconds. *)
Theorem wait_for_database_first_success (body_ok : nat → bool)
    (limit interval : nat) :
  let result := wait_for_database body_ok limit interval in
  match result.1 with
  | Some i =>
      i < limit ∧ body_ok i = true ∧ (∀ j, j < i → body_ok j = false)
      ∧ result.2 = interval * i
  | None =>
      (∀ j, j < limit → body_ok j = false)
      ∧ result.2 = interval * (limit - 1)
  end
  ∧ (wait_for_database body_ok 30 5).2 ≤ 145.
Proof.
  assert (Hspec : ∀ limit interval,
    let result := wait_for_database body_ok limit interval in
    match result.1 with
    | Some i =>
        i < limit ∧ body_ok i = true ∧ (∀ j, j < i → body_ok j = false)
        ∧ result.2 = interval * i
    | None =>
        (∀ j, j < limit → body_ok j = false)
        ∧ result.2 = interval * (limit - 1)
    end).
  { clear limit interval. intros limit interval.
    pose proof (wait_loop_spec body_ok limit interval limit 0 0 eq_refl)
      as Hloop.
    cbv zeta in *. unfold wait_for_database.
    destruct (wait_loop body_ok limit interval limit 0 0) as [[i|] total];
      simpl in *.
    - destruct Hloop as (Hi & Hok & Hbefore & Htotal).
      split_and!; [lia|done| |].
      + intros j Hj. apply Hbefore. lia.
      + rewrite Htotal. f_equal. lia.
    - destruct Hloop as (Hnone & Htotal). split; [|done].
      intros j Hj. apply Hnone. lia. }
  split; [apply Hspec|].
  specialize (Hspec 30 5). cbv zeta in Hspec.
  destruct (wait_for_database body_ok 30 5) as [[i|] total]; simpl in *.
  - destruct Hspec as (Hi & _ & _ & ->). lia.
  - destruct Hspec as (_ & ->). lia.
Qed.

Lemma paused_le (db_name : string) (server : nat → answer) (start n : nat) :
  paused db_name server start n ≤ n.
Proof.
  unfold paused. etransitivity; [apply List.filter_length_le|].
  by rewrite length_seq.
Qed.

Lemma paused_S (db_name : string) (server : nat → answer) (start n : nat) :
  paused db_name server start (S n)
  = (if pauses db_name (server start) then 1 else 0)
    + paused db_name server (S start) n.
Proof. unfold paused. simpl. by destruct (pauses _ _). Qed.

Lemma connect_loop_spec (db_name : string) (server : nat → answer) :
  ∀ left attempt slept,
    attempt + left = max_attempts →
    let result := connect_loop db_name server left attempt slept in
    match result.1 with
    | Returned i =>
        attempt ≤ i < max_attempts ∧ server i = Connected
        ∧ (∀ j, attempt ≤ j < i → retries (server j) = true)
        ∧ result.2
          = slept + retry_interval * paused db_name server attempt (i - attempt)
    | Raised i =>
        attempt ≤ i < max_attempts ∧ server i = Broken
        ∧ (∀ j, attempt ≤ j < i → retries (server j) = true)
        ∧ result.2
          = slept + retry_interval * paused db_name server attempt (i - attempt)
    | GaveUp =>
        (∀ j, attempt ≤ j < max_attempts → retries (server j) = true)
        ∧ result.2
          = slept + retry_interval * paused db_name server attempt (left - 1)
    end.
Proof.
  induction left as [|left IH]; intros attempt slept Hsum.
  - simpl. split; [intros j Hj; lia|]. unfold paused. simpl. lia.
  - cbn [connect_loop]. cbv zeta.
    assert (Hnext : ∀ slept',
      slept' = slept + retry_interval
                       * (if pauses db_name (server attempt)
                          then (if attempt <? max_attempts - 1 then 1 else 0)
                          else 0) →
      retries (server attempt) = true →
      let result := connect_loop db_name server left (S attempt) slept' in
      match result.1 with
      | Returned i =>
          attempt ≤ i < max_attempts ∧ server i = Connected
          ∧ (∀ j, attempt ≤ j < i → retries (server j) = true)
          ∧ result.2
            = slept
              + retry_interval * paused db_name server attempt (i - attempt)
      | Raised i =>
          attempt ≤ i < max_attempts ∧ server i = Broken
          ∧ (∀ j, attempt ≤ j < i → retries (server j) = true)
          ∧ result.2
            = slept
              + retry_interval * paused db_name server attempt (i - attempt)
      | GaveUp =>
          (∀ j, attempt ≤ j < max_attempts → retries (server j) = true)
          ∧ result.2
            = slept
              + retry_interval * paused db_name server attempt (S left - 1)
      end).
    { intros slept' Hslept Hretry. specialize (IH (S attempt) slept').
      cbv zeta in *.
      destruct (connect_loop db_name server left (S attempt) slept')
        as [[i| |i] total]; cbn [fst snd] in *;
        unfold max_attempts, retry_interval in *.
      - destruct IH as (Hi & Hc & Hbefore & Htotal); [lia|].
        split_and!; [lia|lia|done| |].
        + intros j Hj. destruct (decide (j = attempt)) as [->|Hne]; [done|].
          apply Hbefore. lia.
        + replace (i - attempt) with (S (i - S attempt)) by lia.
          rewrite paused_S, Htotal, Hslept.
          rewrite (proj2 (Nat.ltb_lt attempt (30 - 1))) by lia.
          destruct (pauses db_name (server attempt)); lia.
      - destruct IH as (Hall & Htotal); [lia|]. split.
        + intros j Hj. destruct (decide (j = attempt)) as [->|Hne]; [done|].
          apply Hall. lia.
        + rewrite Htotal, Hslept.
          replace (S left - 1) with left by lia. destruct left as [|left'].
          * rewrite (proj2 (Nat.ltb_ge attempt (30 - 1))) by lia.
            unfold paused. simpl. destruct (pauses _ _); lia.
          * rewrite (proj2 (Nat.ltb_lt attempt (30 - 1))) by lia.
            replace (S left' - 1) with left' by lia.
            rewrite (paused_S _ _ attempt).
            destruct (pauses db_name (server attempt)); lia.
      - destruct IH as (Hi & Hc & Hbefore & Htotal); [lia|].
        split_and!; [lia|lia|done| |].
        + intros j Hj. destruct (decide (j = attempt)) as [->|Hne]; [done|].
          apply Hbefore. lia.
        + replace (i - attempt) with (S (i - S attempt)) by lia.
          rewrite paused_S, Htotal, Hslept.
          rewrite (proj2 (Nat.ltb_lt attempt (30 - 1))) by lia.
          destruct (pauses db_name (server attempt)); lia. }
    unfold max_attempts, retry_interval in *.
    destruct (server attempt) as [|created| |] eqn:Hanswer.
    + cbn [fst snd]. rewrite Nat.sub_diag. unfold paused. simpl.
      split_and!; [lia|lia|done|intros j Hj; lia|lia].
    + destruct (bool_decide (db_name ≠ "postgres") && created) eqn:Hcreated.
      * apply Hnext; [|done]. cbn [pauses]. rewrite Hcreated. simpl. lia.
      * apply Hnext; [|done]. cbn [pauses]. rewrite Hcreated. cbn [negb].
        destruct (attempt <? 30 - 1); lia.
    + apply Hnext; [|done]. cbn [pauses]. destruct (attempt <? 30 - 1); lia.
    + cbn [fst snd]. rewrite Nat.sub_diag. unfold paused. simpl.
      split_and!; [lia|lia|done|intros j Hj; lia|lia].
Qed.

(** X21: [get_db_connection] follows the answers of the server up to
    the first that is a connection, which it returns, or an exception
    other than [OperationalError], which it lets through; when the 30
    attempts bring neither, it raises [ConnectionError].  It pauses 5
    seconds after every failed attempt but the thirtieth and those at
    which the missing database could be created, which are retried at
    once; so it never sleeps more than 145 seconds. *)
Theorem get_db_connection_attempts (db_name : string)
    (server : nat → answer) :
  let result := get_db_connection db_name server in
  result.2 ≤ 145
  ∧ match result.1 with
    | Returned i =>
        i < 30 ∧ server i = Connected
        ∧ (∀ j, j < i → retries (server j) = true)
        ∧ result.2 = 5 * paused db_name server 0 i
    | Raised i =>
        i < 30 ∧ server i = Broken
        ∧ (∀ j, j < i → retries (server j) = true)
        ∧ result.2 = 5 * paused db_name server 0 i
    | GaveUp =>
        (∀ j, j < 30 → retries (server j) = true)
        ∧ result.2 = 5 * paused db_name server 0 29
    end.
Proof.
  pose proof (connect_loop_spec db_name server max_attempts 0 0 eq_refl)
    as Hloop.
  cbv zeta in *. unfold get_db_connection.
  destruct (connect_loop db_name server max_attempts 0 0)
    as [[i| |i] total]; cbn [fst snd] in *;
    unfold max_attempts, retry_interval in *.
  - destruct Hloop as (Hi & Hc & Hbefore & Htotal).
    rewrite Nat.sub_0_r in Htotal.
    pose proof (paused_le db_name server 0 i).
    split; [lia|]. split_and!; [lia|done| |lia].
    intros j Hj. apply Hbefore. lia.
  - destruct Hloop as (Hall & Htotal).
    replace (30 - 1) with 29 in Htotal by done.
    pose proof (paused_le db_name server 0 29).
    split; [lia|]. split; [|lia]. intros j Hj. apply Hall. lia.
  - destruct Hloop as (Hi & Hc & Hbefore & Htotal).
    rewrite Nat.sub_0_r in Htotal.
    pose proof (paused_le db_name server 0 i).
    split; [lia|]. split_and!; [lia|done| |lia].
    intros j Hj. apply Hbefore. lia.
Qed.

End ConnectionFacts.

(** ** A whole run of the import *)

Section ImportRunFacts.
Context {py : PyLib} {pg : Postgres}.
Import ImportJson Terms.

Lemma is_file_already_imported_keeps (path h : string) (st : state) :
  ∀ other,
    recorded_import (is_file_already_imported path h st).2 other
    = recorded_import st other.
Proof.
  intros other. unfold is_file_already_imported.
  destruct (memory_tracking st !! path) as [e|] eqn:Hmem; [done|].
  destruct (import_tracking st) as [ledger|] eqn:Hledger; [|done].
  destruct (ledger !! path) as [r|] eqn:Hrow; [|done].
  case_decide as Hh; [|done]. unfold recorded_import. simpl.
  rewrite Hledger.
  destruct (decide (other = path)) as [->|Hne].
  - rewrite lookup_insert_eq, Hmem, Hrow. simpl. by rewrite Hh.
  - by rewrite lookup_insert_ne.
Qed.

Lemma update_import_status_recorded path h schema t n status' err st :
  ∀ other,
    recorded_import (update_import_status path h schema t n status' err st)
      other
    = if decide (other = path) then Some (h, status')
      else recorded_import st other.
Proof.
  intros other. unfold recorded_import.
  rewrite update_import_status_cache, update_import_status_ledger.
  case_decide as Hp.
  - subst. by rewrite lookup_insert_eq.
  - rewrite lookup_insert_ne by done.
    destruct (memory_tracking st !! other); [done|].
    destruct (import_tracking st) as [ledger|]; simpl; [|done].
    by rewrite lookup_insert_ne.
Qed.

Lemma record_failure_recorded blob h schema tname st :
  ∀ other,
    recorded_import (record_failure blob h schema tname st) other
    = if decide (other = blob) then Some (h, "error")
      else recorded_import st other.
Proof.
  intros other.
  rewrite <- (update_import_status_recorded blob h schema tname 0 "error"
                (Some (failure_message blob)) st other).
  done.
Qed.

Lemma record_failure_failed blob h schema tname st :
  failed_imports (record_failure blob h schema tname st)
  = {[blob]} ∪ failed_imports st.
Proof.
  unfold record_failure. cbv zeta. cbn [failed_imports].
  by rewrite update_import_status_keeps_failed.
Qed.

(** What one call of [process_blob] leaves for its own path and for
    the others. *)
Lemma process_blob_recorded blob content st :
  let st' := (process_blob blob content st).2 in
  (∀ other, other ≠ blob →
     recorded_import st' other = recorded_import st other
     ∧ (other ∈ failed_imports st' ↔ other ∈ failed_imports st))
  ∧ (bronze_up = true → is_Some (json_loads content) →
     recorded_import st' blob = Some (md5_hexdigest content, "success")
     ∧ (blob ∈ failed_imports st' ↔ blob ∈ failed_imports st))
  ∧ (json_loads content = None →
     recorded_import st blob ≠ Some (md5_hexdigest content, "success") →
     recorded_import st' blob = Some (md5_hexdigest content, "error")
     ∧ blob ∈ failed_imports st').
Proof.
  destruct (process_blob_cases blob content st)
    as (schema & tname & _ & Hrun).
  cbv zeta in *. rewrite Hrun. clear Hrun.
  rewrite is_file_already_imported_recorded.
  pose proof (is_file_already_imported_keeps blob (md5_hexdigest content) st)
    as Hkeep.
  pose proof (is_file_already_imported_failed_imports blob
                (md5_hexdigest content) st) as Hfailed.
  set (st0 := (is_file_already_imported blob (md5_hexdigest content) st).2)
    in *.
  assert (Hmoved : ∀ t events other,
    recorded_import (log events (set_bronze t st0)) other
    = recorded_import st other).
  { intros t events other. rewrite <- Hkeep. done. }
  case_bool_decide as Hrec.
  - cbn [fst snd]. split_and!.
    + intros other Hother. by rewrite Hkeep, Hfailed.
    + intros _ _. by rewrite Hkeep, Hfailed.
    + done.
  - destruct (json_loads content) as [data|] eqn:Hdata;
      [destruct bronze_up eqn:Hup|]; cbn [fst snd].
    + rewrite update_import_status_keeps_failed.
      cbn [log set_bronze failed_imports]. rewrite Hfailed.
      split_and!.
      * intros other Hother.
        rewrite update_import_status_recorded, decide_False by done.
        by rewrite Hmoved.
      * intros _ _.
        by rewrite update_import_status_recorded, decide_True.
      * done.
    + rewrite record_failure_failed, Hfailed.
      split_and!; [|done|done].
      intros other Hother.
      rewrite record_failure_recorded, decide_False by done.
      split; [apply Hkeep|set_solver].
    + rewrite record_failure_failed, Hfailed.
      split_and!.
      * intros other Hother.
        rewrite record_failure_recorded, decide_False by done.
        split; [apply Hkeep|set_solver].
      * by intros _ [? ?].
      * intros _ _.
        rewrite record_failure_recorded, decide_True by done.
        split; [done|set_solver].
Qed.

Lemma foldl_process_blob_others (docs : list (string * string)) :
  ∀ st path,
    path ∉ docs.*1 →
    let st' :=
      foldl (λ st (d : string * string), (process_blob d.1 d.2 st).2)
            st docs in
    recorded_import st' path = recorded_import st path
    ∧ (path ∈ failed_imports st' ↔ path ∈ failed_imports st).
Proof.
  induction docs as [|[p c] docs IH]; intros st path Hpath; [done|].
  rewrite fmap_cons, not_elem_of_cons in Hpath. destruct Hpath as [Hne Hpath].
  simpl foldl. cbv zeta.
  destruct (IH (process_blob p c st).2 path Hpath) as [-> ->].
  destruct (process_blob_recorded p c st) as (Hothers & _).
  by apply Hothers.
Qed.

(** X22: in a run of the import on documents with pairwise distinct
    paths, the documents do not get in each other's way.  Every
    document whose text parses ends recorded with its hash and the
    status [success], and is not among the failed imports; every
    document whose text does not parse, unless the ledger already held
    it as imported with that hash, ends recorded with the status
    [error] and among the failed imports. *)
Theorem main_imports_each (docs : list (string * string)) (db : store)
    (ledger : option (gmap string tracking_row)) (path content : string) :
  bronze_up = true → NoDup docs.*1 → (path, content) ∈ docs →
  let st' := (main (Some docs) db ledger).2 in
  (is_Some (json_loads content) →
   recorded_import st' path = Some (md5_hexdigest content, "success")
   ∧ path ∉ failed_imports st')
  ∧ (json_loads content = None →
     recorded_import (State db ledger ∅ ∅ []) path
     ≠ Some (md5_hexdigest content, "success") →
     recorded_import st' path = Some (md5_hexdigest content, "error")
     ∧ path ∈ failed_imports st').
Proof.
  intros Hup Hnd Hin st'.
  assert (Hst : st' = foldl (λ st (d : string * string),
                               (process_blob d.1 d.2 st).2)
                            (State db ledger ∅ ∅ []) docs).
  { subst st'. unfold main. rewrite Hup. simpl negb. cbv iota.
    destruct docs as [|d docs]; [by apply elem_of_nil in Hin|].
    by case_bool_decide. }
  rewrite Hst. clear Hst st'.
  assert (Hstart : path ∉ failed_imports (State db ledger ∅ ∅ [])) by set_solver.
  revert Hstart. generalize (State db ledger ∅ ∅ []). revert Hnd Hin.
  induction docs as [|[p c] docs IH]; intros Hnd Hin st Hstart;
    [by apply elem_of_nil in Hin|].
  rewrite fmap_cons in Hnd. apply NoDup_cons in Hnd as [Hp Hnd].
  simpl foldl.
  destruct (process_blob_recorded p c st) as (Hothers & Hgood & Hbad).
  cbv zeta in *.
  apply elem_of_cons in Hin as [[= <- <-]|Hin].
  - destruct (foldl_process_blob_others docs (process_blob path content st).2
                path Hp) as [-> Hf].
    split.
    + intros Hparse. destruct (Hgood Hup Hparse) as [-> Hsame].
      split; [done|]. rewrite Hf, Hsame. done.
    + intros Hparse Hnew. destruct (Hbad Hparse Hnew) as [-> Hfailed].
      split; [done|]. by apply Hf.
  - assert (Hne : path ≠ p).
    { intros ->. apply Hp. apply list_elem_of_fmap. by exists (p, content). }
    destruct (Hothers path Hne) as [Hrec Hfailed].
    destruct (IH Hnd Hin (process_blob p c st).2) as [IHgood IHbad].
    { by rewrite Hfailed. }
    split; [done|]. intros Hparse Hnew. apply IHbad; [done|].
    by rewrite Hrec.
Qed.

End ImportRunFacts.

Section ImportRunExamples.
Import ImportJson Terms Sample.

Lemma main_imports_each_witness :
  let good := dumps (JList [spell]) in
  let docs := [("spells/broken.json", "{"); ("spells/spells-phb.json", good)] in
  let st' := (main (Some docs) ∅ (Some ∅)).2 in
  bronze_up = true ∧ NoDup docs.*1
  ∧ ("spells/spells-phb.json", good) ∈ docs
  ∧ is_Some (json_loads good)
  ∧ recorded_import st' "spells/spells-phb.json"
    = Some (md5_hexdigest good, "success")
  ∧ "spells/spells-phb.json" ∉ failed_imports st'.
Proof.
  intros good docs st'.
  assert (Hup : bronze_up = true) by reflexivity.
  assert (Hnd : NoDup docs.*1) by by_computation.
  assert (Hin : ("spells/spells-phb.json", good) ∈ docs) by by_computation.
  assert (Hparse : is_Some (json_loads good)).
  { exists (JList [spell]). vm_compute. reflexivity. }
  split; [exact Hup|]. split; [exact Hnd|]. split; [exact Hin|].
  split; [exact Hparse|].
  pose proof (main_imports_each docs ∅ (Some ∅) "spells/spells-phb.json" good
                Hup Hnd Hin) as Hthm.
  cbv zeta in Hthm. exact (proj1 Hthm Hparse).
Defined.

End ImportRunExamples.

(** ** A whole run of the transformation *)

Section TransformationRunFacts.
Context {py : PyLib} {pg : Postgres}.
Import BronzeToSilver Spec Terms.

Lemma when_hashed_ledger_lookup h a b c d e n s err st schema target kind :
  (schema, target, kind) ≠ (a, d, e) →
  ledger_lookup
    (when_hashed h (λ h0, update_transformation_status a b c d e h0 n s err) st)
    schema target kind
  = ledger_lookup st schema target kind.
Proof.
  intros Hne. unfold when_hashed. destruct h as [h|]; [|done].
  case_decide; [done|]. unfold ledger_lookup.
  rewrite update_transformation_status_tracking.
  destruct (tracking st) as [ledger|]; simpl; [|done].
  by rewrite lookup_insert_ne.
Qed.

Lemma copy_table_ledger_frame (schema tname : string) (st : state)
    (schema2 target kind : string) :
  (schema2, target, kind) ≠ (schema, tname, "copy") →
  ledger_lookup (copy_table schema tname st) schema2 target kind
  = ledger_lookup st schema2 target kind.
Proof.
  intros Hne. unfold copy_table.
  destruct (negb (readable (bronze st) schema tname)); [done|].
  destruct (up_to_date st schema tname "copy" _); [done|].
  cbv zeta. rewrite when_hashed_bronze.
  destruct (get_table_columns (bronze st) schema tname) as [|c cols].
  { by rewrite when_hashed_ledger_lookup. }
  destruct (bool_decide (NoDup (c :: cols).*1));
    rewrite when_hashed_ledger_lookup by done;
    unfold ledger_lookup; simpl;
    fold (ledger_lookup
            (when_hashed (calculate_tables_hash (bronze st) schema [tname])
               (λ h, update_transformation_status schema [tname] schema tname
                       "copy" h 0 "in_progress" None) st)
            schema2 target kind);
    by rewrite when_hashed_ledger_lookup.
Qed.

Lemma create_fusion_table_ledger_frame (schema table_prefix fusion : string)
    (st : state) (schema2 target kind : string) :
  (schema2, target, kind) ≠ (schema, fusion, "fusion") →
  ledger_lookup (create_fusion_table schema table_prefix fusion st)
    schema2 target kind
  = ledger_lookup st schema2 target kind.
Proof.
  intros Hne. unfold create_fusion_table.
  destruct (List.filter (λ t, PyStr.startswith t table_prefix)
              (list_tables (bronze st) schema)) as [|p ps]; [done|].
  destruct (up_to_date st schema fusion "fusion" _); [done|].
  cbv zeta. rewrite when_hashed_bronze.
  destruct (List.filter (readable (bronze st) schema) (p :: ps)) as [|s0 ss].
  { by rewrite when_hashed_ledger_lookup. }
  destruct (decide (collect_all_columns_from_tables (bronze st) schema
                      (s0 :: ss) = ∅)).
  { by rewrite when_hashed_ledger_lookup. }
  destruct (bool_decide (NoDup (fusion_columns _).*1));
    rewrite when_hashed_ledger_lookup by done;
    unfold ledger_lookup; simpl;
    fold (ledger_lookup
            (when_hashed (calculate_tables_hash (bronze st) schema (p :: ps))
               (λ h, update_transformation_status schema (p :: ps) schema
                       fusion "fusion" h 0 "in_progress" None) st)
            schema2 target kind);
    by rewrite when_hashed_ledger_lookup.
Qed.

Lemma foldl_copy_table_ledger_frame (schema : string) (tables : list string)
    (schema2 target kind : string) :
  (schema2 ≠ schema ∨ target ∉ tables ∨ kind ≠ "copy") →
  ∀ st,
    ledger_lookup (foldl (λ st t, copy_table schema t st) st tables)
      schema2 target kind
    = ledger_lookup st schema2 target kind.
Proof.
  intros Hne. induction tables as [|t tables IH]; intros st; simpl; [done|].
  rewrite IH.
  - apply copy_table_ledger_frame. intros [= -> -> ->].
    destruct Hne as [?|[Hin|?]]; [done| |done]. apply Hin. left.
  - destruct Hne as [?|[Hin|?]]; [by left| |by right; right].
    right. left. intros Ht. apply Hin. by right.
Qed.

Lemma process_schema_ledger_frame (schema : string) (st : state)
    (schema2 target kind : string) :
  schema2 ≠ schema →
  ledger_lookup (process_schema schema st) schema2 target kind
  = ledger_lookup st schema2 target kind.
Proof.
  intros Hne. unfold process_schema.
  destruct (get_all_tables (bronze st) schema)
    as [[schema_tables fluff_tables] other_tables].
  rewrite foldl_copy_table_ledger_frame by by left.
  destruct fluff_tables;
    rewrite ?create_fusion_table_ledger_frame by (intros [= ? ? ?]; done);
    destruct schema_tables; try done;
    destruct (bool_decide (schema ∈ named_schemas));
    by rewrite create_fusion_table_ledger_frame by (intros [= ? ? ?]; done).
Qed.

Lemma foldl_run_schema_frame (schemas : list string) (target kind : string) :
  "main" ∉ schemas →
  ∀ st,
    bronze (foldl run_schema st schemas) = bronze st
    ∧ (∀ k, k.1 = "main" →
            silver (foldl run_schema st schemas) !! k = silver st !! k)
    ∧ ledger_lookup (foldl run_schema st schemas) "main" target kind
      = ledger_lookup st "main" target kind.
Proof.
  intros Hmain.
  induction schemas as [|schema schemas IH]; intros st; simpl; [done|].
  apply not_elem_of_cons in Hmain as [Hne Hmain].
  destruct (IH Hmain (run_schema st schema)) as (Hb & Hs & Hl).
  assert (Hrun : run_schema st schema = process_schema schema st).
  { unfold run_schema. by rewrite decide_False. }
  destruct (process_schema_frame schema st) as [Hb1 Hs1].
  rewrite Hrun in *. rewrite Hb, Hl, Hb1. split_and!; [done| |].
  - intros k Hk. rewrite Hs by done. apply Hs1. by rewrite Hk.
  - by apply process_schema_ledger_frame.
Qed.

Lemma list_tables_lookup (db : store) (schema tname : string) (tb : table) :
  db !! (schema, tname) = Some tb → tname ∈ list_tables db schema.
Proof.
  intros Htb. unfold list_tables. apply list_elem_of_omap.
  exists (schema, tname). split.
  - apply list_elem_of_fmap. exists (schema, tname, tb).
    split; [done|]. by apply elem_of_map_to_list.
  - simpl. by rewrite decide_True.
Qed.

Lemma list_schemas_lookup (db : store) (schema tname : string) (tb : table) :
  db !! (schema, tname) = Some tb → schema ∈ list_schemas db.
Proof.
  intros Htb. unfold list_schemas. apply elem_of_elements, elem_of_map.
  exists (schema, tname). split; [done|]. apply elem_of_dom. by eexists.
Qed.

Lemma foldl_copy_table_other (schema : string) (tables : list string)
    (tname : string) :
  tname ∉ tables →
  ∀ st,
    silver (foldl (λ st t, copy_table schema t st) st tables)
    !! (schema, tname)
    = silver st !! (schema, tname).
Proof.
  intros Hnot. induction tables as [|t tables IH]; intros st; simpl; [done|].
  apply not_elem_of_cons in Hnot as [Hne Hnot]. rewrite IH by done.
  apply copy_table_frame. by intros [= ->].
Qed.

Lemma recorded_success_ledger (st st' : state) (schema target kind : string)
    (h : option string) :
  ledger_lookup st' schema target kind = ledger_lookup st schema target kind →
  recorded_success st' schema target kind h →
  recorded_success st schema target kind h.
Proof.
  intros Hsame (e & hash & Hh & Hl & Hs & Hhash). exists e, hash.
  by rewrite <- Hsame.
Qed.

Lemma copy_table_silver (st : state) (schema tname : string) (tb : table) :
  readable (bronze st) schema tname = true →
  bronze st !! (schema, tname) = Some tb →
  columns tb ≠ [] → NoDup (columns tb).*1 →
  ¬ recorded_success st schema tname "copy"
      (calculate_tables_hash (bronze st) schema [tname]) →
  silver (copy_table schema tname st) !! (schema, tname)
  = Some (Table (columns tb) (copied_rows schema tname tb)).
Proof.
  intros Hread Htb Hcols Hnd Hnot.
  destruct (proj2 (calculate_tables_hash_is_Some (bronze st) schema [tname]))
    as [h Hh].
  { intros t ->%list_elem_of_singleton. done. }
  assert (Hup : up_to_date st schema tname "copy" (Some h) = false).
  { apply not_true_is_false. intros Hup. apply Hnot. rewrite Hh.
    apply up_to_date_recorded; [|done]. intros ? [= <-].
    by eapply calculate_tables_hash_nonempty. }
  rewrite (copy_table_performed st schema tname h tb) by done.
  rewrite update_transformation_status_silver. simpl.
  by rewrite lookup_insert_eq.
Qed.

(** X23: a run of the transformation with both servers up copies every
    table of the bronze schema [main] that can be read, has columns,
    can be transferred in bulk and is not recorded as copied with its
    present fingerprint: at the end of the run the silver store holds
    the table under the same name, with the same columns and the same
    rows, whatever the run did to the other tables and schemas. *)
Theorem main_copies_main_schema (st : state) (tname : string) (tb : table) :
  bronze_up = true → silver_up = true →
  bronze st !! ("main", tname) = Some tb →
  readable (bronze st) "main" tname = true →
  columns tb ≠ [] → NoDup (columns tb).*1 →
  dblink_ok "main" tname = true →
  ¬ recorded_success st "main" tname "copy"
      (calculate_tables_hash (bronze st) "main" [tname]) →
  (main st).1 = 0
  ∧ silver (main st).2 !! ("main", tname) = Some tb.
Proof.
  intros Hbup Hsup Htb Hread Hcols Hnd Hlink Hnot.
  unfold main. rewrite Hbup, Hsup. simpl negb. cbv iota. cbn [fst snd].
  split; [done|].
  set (found := List.filter (λ s, negb (bool_decide (s ∈ system_schemas)))
                            (list_schemas (bronze st))).
  assert (Hmain : "main" ∈ found).
  { apply list_elem_of_In, filter_In. split; [|by_computation].
    apply list_elem_of_In. by eapply list_schemas_lookup. }
  assert (Hfound : NoDup found).
  { unfold found. apply NoDup_ListNoDup, List.NoDup_filter, NoDup_ListNoDup.
    unfold list_schemas. apply NoDup_elements. }
  change (silver (foldl run_schema st
                    match found with [] => default_schemas | _ => found end)
          !! ("main", tname) = Some tb).
  assert (Hschemas : match found with [] => default_schemas | _ => found end
                     = found).
  { destruct found; [by apply elem_of_nil in Hmain|done]. }
  rewrite Hschemas. clear Hschemas.
  apply list_elem_of_split in Hmain as (before & after & Hsplit).
  rewrite Hsplit in Hfound |- *.
  apply NoDup_app in Hfound as (_ & Hbefore & Hafter%NoDup_cons).
  destruct Hafter as [Hafter _].
  assert (Hbefore' : "main" ∉ before).
  { intros Hin. apply (Hbefore _ Hin). left. }
  rewrite foldl_app. simpl foldl.
  destruct (foldl_run_schema_frame before tname "copy" Hbefore' st)
    as (Hb1 & Hs1 & Hl1).
  set (st1 := foldl run_schema st before) in *.
  destruct (foldl_run_schema_frame after tname "copy" Hafter
              (run_schema st1 "main")) as (_ & Hs2 & _).
  rewrite Hs2 by done. clear Hs2.
  unfold run_schema at 1. rewrite decide_True by done. rewrite Hb1.
  pose proof (list_tables_NoDup (bronze st) "main") as Htables.
  pose proof (list_tables_lookup _ _ _ _ Htb) as Hin.
  apply list_elem_of_split in Hin as (first & rest & Hsplit').
  rewrite Hsplit' in Htables |- *.
  apply NoDup_app in Htables as (_ & Hfirst & Hrest%NoDup_cons).
  destruct Hrest as [Hrest _].
  assert (Hfirst' : tname ∉ first).
  { intros Hin. apply (Hfirst _ Hin). left. }
  rewrite foldl_app. simpl foldl.
  rewrite foldl_copy_table_other by done.
  set (st2 := foldl (λ st t, copy_table "main" t st) st1 first).
  assert (Hb2 : bronze st2 = bronze st).
  { unfold st2. by rewrite (proj1 (foldl_copy_table_frame "main" first st1)). }
  assert (Hl2 : ledger_lookup st2 "main" tname "copy"
                = ledger_lookup st "main" tname "copy").
  { unfold st2. rewrite foldl_copy_table_ledger_frame; [done|].
    right. by left. }
  rewrite (copy_table_silver st2 "main" tname tb); rewrite ?Hb2; try done.
  - unfold copied_rows. rewrite Hlink. by destruct tb.
  - intros Hrec. apply Hnot. by eapply recorded_success_ledger.
Qed.

End TransformationRunFacts.

Section TransformationRunExamples.
Import BronzeToSilver Spec Terms Sample.

Lemma main_copies_main_schema_witness :
  let st := first_run notes_db in
  let notes :=
    Table [("id", "integer"); ("body", "text")]
          [ {[ "id" := JInt 1; "body" := JStr "draft" ]} ] in
  bronze st !! ("main", "private_notes") = Some notes
  ∧ readable (bronze st) "main" "private_notes" = true
  ∧ (main st).1 = 0
  ∧ silver (main st).2 !! ("main", "private_notes") = Some notes.
Proof.
  intros st notes.
  assert (Hbup : bronze_up = true) by reflexivity.
  assert (Hsup : silver_up = true) by reflexivity.
  assert (Htb : bronze st !! ("main", "private_notes") = Some notes)
    by (vm_compute; reflexivity).
  assert (Hread : readable (bronze st) "main" "private_notes" = true)
    by (vm_compute; reflexivity).
  assert (Hcols : columns notes ≠ []) by done.
  assert (Hnd : NoDup (columns notes).*1) by by_computation.
  assert (Hlink : dblink_ok "main" "private_notes" = true) by reflexivity.
  assert (Hnot : ¬ recorded_success st "main" "private_notes" "copy"
                     (calculate_tables_hash (bronze st) "main"
                        ["private_notes"])).
  { intros (e & hash & _ & Hl & _). vm_compute in Hl. discriminate Hl. }
  split; [exact Htb|]. split; [exact Hread|].
  exact (main_copies_main_schema st "private_notes" notes Hbup Hsup Htb Hread
           Hcols Hnd Hlink Hnot).
Defined.

End TransformationRunExamples.

(** ** Edge cases: documents of scalars, tables without columns *)

Section EdgeFacts.
Context {py : PyLib} {pg : Postgres}.
Import ImportJson Terms.

Lemma json_only_id (item : json) : json_only item !! "id" = None.
Proof. unfold json_only. by rewrite lookup_singleton_ne. Qed.

Lemma foldl_insert_raw_rows schema tname (items : list json) :
  ∀ t,
    foldl (insert_raw schema tname) t items
    = Table (columns t)
        (rows t
         ++ numbered (length (rows t))
              (json_only
               <$> List.filter (λ item, insert_ok schema tname (json_only item))
                               items)).
Proof.
  induction items as [|item items IH]; intros t.
  - simpl. rewrite app_nil_r. by destruct t.
  - simpl foldl. rewrite IH. unfold insert_raw. simpl List.filter.
    destruct (insert_ok schema tname (json_only item)).
    + unfold append_row. rewrite json_only_id. simpl.
      rewrite numbered_cons, <- app_assoc, length_app. simpl.
      by rewrite Nat.add_1_r.
    + done.
Qed.

Lemma flatten_json_scalar (item : json) :
  recursion_limit ≠ 0 → Spec.is_scalar item = true → flatten_json item = ∅.
Proof.
  intros Hlimit Hscalar. unfold flatten_json.
  destruct recursion_limit as [|depth]; [done|].
  by destruct item.
Qed.

(** X24: a document whose items are all scalars (numbers, texts,
    booleans, nulls) yields no column when it is flattened, and is
    stored in the raw layout: the table has the four columns of that
    layout and one row, numbered from 1 in [id], for the JSON text of
    each item that the store accepts, in the order of the document. *)
Theorem build_table_scalars schema tname (array_data : list json) :
  recursion_limit ≠ 0 →
  (∀ item, item ∈ array_data → Spec.is_scalar item = true) →
  build_table schema tname array_data
  = Table raw_table_columns
      (numbered 0
         (json_only
          <$> List.filter (λ item, insert_ok schema tname (json_only item))
                          array_data)).
Proof.
  intros Hlimit Hscalars. unfold build_table. cbv zeta.
  assert (Hempty : ⋃ (dom <$> (flatten_json <$> array_data)) = (∅ : gset string)).
  { induction array_data as [|item items IH]; [done|].
    rewrite !fmap_cons, union_list_cons, IH.
    - rewrite flatten_json_scalar; [set_solver|done|]. apply Hscalars. left.
    - intros x Hx. apply Hscalars. by right. }
  rewrite Hempty.
  rewrite (bool_decide_eq_false_2 ((∅ : gset string) ≠ ∅))
    by (intros Hne; by apply Hne).
  simpl andb. cbv iota. by rewrite foldl_insert_raw_rows.
Qed.

End EdgeFacts.

Section StaleFacts.
Context {py : PyLib} {pg : Postgres}.
Import BronzeToSilver Spec Terms.

Lemma copy_table_no_columns (st : state) (schema tname : string) :
  readable (bronze st) schema tname = true →
  get_table_columns (bronze st) schema tname = [] →
  up_to_date st schema tname "copy"
    (calculate_tables_hash (bronze st) schema [tname]) = false →
  copy_table schema tname st
  = when_hashed (calculate_tables_hash (bronze st) schema [tname])
      (λ h, update_transformation_status schema [tname] schema tname "copy"
              h 0 "in_progress" None) st.
Proof.
  intros Hread Hcols Hup. unfold copy_table.
  rewrite Hread, Hup. simpl negb. cbv iota zeta.
  by rewrite when_hashed_bronze, Hcols.
Qed.

(** X25: the ledger entry of a transformation that finds nothing to
    write stays [in_progress].  With a ledger, the copy of a readable
    table without columns, and the fusion of readable prefix tables
    that have no column besides [id], when they are not recorded as
    done, set the entry to [in_progress] with no row, run no [DROP
    TABLE] or [CREATE TABLE], leave the silver store as it was, and
    are therefore needed again at the next run. *)
Theorem nothing_to_write_stays_in_progress (st : state)
    (ledger : gmap (string * string * string) ledger_entry)
    (schema : string) :
  tracking st = Some ledger →
  (∀ tname,
     readable (bronze st) schema tname = true →
     get_table_columns (bronze st) schema tname = [] →
     ¬ recorded_success st schema tname "copy"
         (calculate_tables_hash (bronze st) schema [tname]) →
     let st' := copy_table schema tname st in
     (∃ h, ledger_lookup st' schema tname "copy"
           = Some (LedgerEntry tname schema h 0 "in_progress" None)
           ∧ is_transformation_needed st' schema tname "copy" h = true)
     ∧ journal st' = journal st ∧ silver st' = silver st)
  ∧ (∀ table_prefix target,
       let tables := prefix_tables (bronze st) schema table_prefix in
       tables ≠ [] →
       (∀ t, t ∈ tables → readable (bronze st) schema t = true) →
       collect_all_columns_from_tables (bronze st) schema tables = ∅ →
       ¬ recorded_success st schema target "fusion"
           (calculate_tables_hash (bronze st) schema tables) →
       let st' := create_fusion_table schema table_prefix target st in
       (∃ h, ledger_lookup st' schema target "fusion"
             = Some (LedgerEntry (PyStr.join "," tables) schema h 0
                       "in_progress" None)
             ∧ is_transformation_needed st' schema target "fusion" h = true)
       ∧ journal st' = journal st ∧ silver st' = silver st).
Proof.
  intros Hledger. split.
  - intros tname Hread Hcols Hnot st'.
    destruct (proj2 (calculate_tables_hash_is_Some (bronze st) schema [tname]))
      as [h Hh].
    { intros t ->%list_elem_of_singleton. done. }
    assert (Hne : h ≠ "") by by eapply calculate_tables_hash_nonempty.
    assert (Hup : up_to_date st schema tname "copy"
                    (calculate_tables_hash (bronze st) schema [tname]) = false).
    { apply not_true_is_false. intros Hup. apply Hnot.
      apply up_to_date_recorded; [|done]. intros hash Hhash.
      by eapply calculate_tables_hash_nonempty. }
    subst st'. rewrite copy_table_no_columns by done.
    rewrite Hh, when_hashed_Some by done.
    rewrite update_transformation_status_journal,
      update_transformation_status_silver.
    split; [|done]. exists h.
    unfold ledger_lookup, is_transformation_needed.
    rewrite update_transformation_status_tracking, Hledger. simpl.
    rewrite lookup_insert_eq. split; [done|]. cbn [status source_hash].
    by rewrite (bool_decide_eq_false_2 ("in_progress" = "success")).
  - intros table_prefix target tables Hsome Hread Hcols Hnot st'.
    assert (Hsources : existing_tables (bronze st) schema table_prefix = tables).
    { unfold existing_tables. by apply filter_all. }
    destruct (proj2 (calculate_tables_hash_is_Some (bronze st) schema tables))
      as [h Hh]; [done|].
    assert (Hne : h ≠ "") by by eapply calculate_tables_hash_nonempty.
    assert (Hup : up_to_date st schema target "fusion"
                    (calculate_tables_hash (bronze st) schema tables) = false).
    { apply not_true_is_false. intros Hup. apply Hnot.
      apply up_to_date_recorded; [|done]. intros hash Hhash.
      by eapply calculate_tables_hash_nonempty. }
    subst st'.
    rewrite create_fusion_table_no_columns; fold tables;
      rewrite ?Hsources; try done.
    rewrite Hh, when_hashed_Some by done.
    rewrite update_transformation_status_journal,
      update_transformation_status_silver.
    split; [|done]. exists h.
    unfold ledger_lookup, is_transformation_needed.
    rewrite update_transformation_status_tracking, Hledger. simpl.
    rewrite lookup_insert_eq. split; [done|]. cbn [status source_hash].
    by rewrite (bool_decide_eq_false_2 ("in_progress" = "success")).
Qed.

End StaleFacts.

Section EdgeExamples.
Import ImportJson Terms Sample.

Lemma build_table_scalars_witness :
  recursion_limit ≠ 0
  ∧ build_table "main" "numbers" [JInt 1; JInt 2; JInt 3]
    = Table raw_table_columns
        [ {[ "id" := JInt 1; "json_data" := JStr "1" ]};
          {[ "id" := JInt 2; "json_data" := JStr "2" ]};
          {[ "id" := JInt 3; "json_data" := JStr "3" ]} ].
Proof.
  assert (Hlimit : recursion_limit ≠ 0) by done.
  assert (Hscalars : ∀ item, item ∈ [JInt 1; JInt 2; JInt 3] →
                             Spec.is_scalar item = true).
  { intros item Hin. repeat (apply elem_of_cons in Hin as [->|Hin]; [done|]).
    by apply elem_of_nil in Hin. }
  split; [exact Hlimit|].
  rewrite (build_table_scalars "main" "numbers" [JInt 1; JInt 2; JInt 3]
             Hlimit Hscalars).
  vm_compute. reflexivity.
Defined.

End EdgeExamples.

Section StaleExamples.
Import BronzeToSilver Spec Terms Sample.

Lemma nothing_to_write_stays_in_progress_witness :
  let st := first_run columnless_db in
  let st' := copy_table "main" "notes" st in
  tracking st = Some ∅
  ∧ readable (bronze st) "main" "notes" = true
  ∧ get_table_columns (bronze st) "main" "notes" = []
  ∧ (∃ h, ledger_lookup st' "main" "notes" "copy"
          = Some (LedgerEntry "notes" "main" h 0 "in_progress" None)
          ∧ is_transformation_needed st' "main" "notes" "copy" h = true)
  ∧ journal st' = journal st ∧ silver st' = silver st.
Proof.
  intros st st'.
  assert (Hledger : tracking st = Some ∅) by reflexivity.
  assert (Hread : readable (bronze st) "main" "notes" = true)
    by (vm_compute; reflexivity).
  assert (Hcols : get_table_columns (bronze st) "main" "notes" = [])
    by (vm_compute; reflexivity).
  assert (Hnot : ¬ recorded_success st "main" "notes" "copy"
                     (calculate_tables_hash (bronze st) "main" ["notes"])).
  { intros (e & hash & _ & Hl & _). vm_compute in Hl. discriminate Hl. }
  split; [exact Hledger|]. split; [exact Hread|]. split; [exact Hcols|].
  pose proof (nothing_to_write_stays_in_progress st ∅ "main" Hledger) as Hthm.
  destruct Hthm as [Hcopy _].
  exact (Hcopy "notes" Hread Hcols Hnot).
Defined.

End StaleExamples.
